(** * Event-sourced cart: the projection fold, the backend test double and
    the reconciliation service.

    A shallow embedding of [src/types.ts], [src/state-manager.ts],
    [src/salesforce-client.ts] and [src/cart-service.ts].

    Modelling conventions.
    - A JavaScript [number] that holds a price, a quantity or a timestamp is
      an integer of [Z]; the tax rate is an exact rational of [Q];
      [Math.round x] is [floor (x + 1/2)].
    - A JavaScript [Map] keeps its entries in insertion order, so it is an
      association list with the three operations [get], [set], [delete].
    - The two objects of the service (the state manager and the backend
      client) together with the wall clock read by [Date.now()] and the
      source of identifiers [nanoid] form the [World]; a method is a function
      from worlds to a result and a world, and a thrown exception keeps the
      mutations made before it.
    - Calls run one at a time and the clock stands still while a call runs;
      time passes, and the session sweep runs, between calls. *)

From Stdlib Require Import ZArith QArith Qround.
From stdpp Require Import base tactics option list strings pretty gmap.

Local Open Scope string_scope.
Local Open Scope list_scope.
Local Open Scope Z_scope.

(** ** Insertion-ordered maps (JavaScript [Map<string, V>]) *)

Module JsMap.
Section Ops.
Context {V : Type}.

Definition t : Type := list (string * V).

Definition empty : t := [].

(** [m.get(k)] *)
Fixpoint get (k : string) (m : t) : option V :=
  match m with
  | [] => None
  | (k', v) :: rest => if decide (k = k') then Some v else get k rest
  end.

(** [m.set(k, v)]: an existing key keeps its position, a new key goes last. *)
Fixpoint set (k : string) (v : V) (m : t) : t :=
  match m with
  | [] => [(k, v)]
  | (k', v') :: rest =>
      if decide (k = k') then (k, v) :: rest else (k', v') :: set k v rest
  end.

(** [m.delete(k)] *)
Fixpoint delete (k : string) (m : t) : t :=
  match m with
  | [] => []
  | (k', v') :: rest =>
      if decide (k = k') then delete k rest else (k', v') :: delete k rest
  end.

(** [Array.from(m.values())] *)
Definition values (m : t) : list V := map snd m.
End Ops.
Arguments t : clear implicits.
End JsMap.

(** ** [types.ts] *)

(** [ItemType] is a union of string literals; at run time a request may
    carry any string, which is why [validateAddItemRequest] checks it. *)
Definition ItemType : Type := string.

Record CartItem : Type := mkCartItem {
  item_id : string;
  item_type : ItemType;
  item_name : string;
  item_price : Z;
  item_quantity : Z
}.

Definition withQuantity (it : CartItem) (q : Z) : CartItem :=
  {| item_id := item_id it; item_type := item_type it;
     item_name := item_name it; item_price := item_price it;
     item_quantity := q |}.

Record Cart : Type := mkCart {
  cart_sessionId : string;
  cart_items : list CartItem;
  cart_subtotal : Z;
  cart_tax : Z;
  cart_total : Z
}.

Record CheckoutResult : Type := mkCheckoutResult {
  co_orderId : string;
  co_cart : Cart
}.

Inductive CartEvent : Type :=
| ITEM_ADDED (itemId : string) (itemType : ItemType) (name : string)
             (price quantity timestamp : Z)
| ITEM_REMOVED (itemId : string) (quantity timestamp : Z)
| ITEM_UPDATED (itemId : string) (quantity timestamp : Z).

Record ExperienceSession : Type := mkSession {
  sess_sessionId : string;
  sess_sfContextId : option string;
  sess_lastActivity : Z;
  sess_events : list CartEvent;
  sess_checkedOut : bool
}.

Record SalesforceCartContext : Type := mkContext {
  ctx_contextId : string;
  ctx_items : JsMap.t CartItem;
  ctx_createdAt : Z;
  ctx_lastActivity : Z
}.

Record AddItemRequest : Type := mkAddItemRequest {
  req_itemId : string;
  req_type : ItemType;
  req_name : string;
  req_price : Z;
  req_quantity : Z
}.

Inductive CartError : Type :=
| ContextExpiredError (contextId : string)
| SessionNotFoundError (sessionId : string)
| ItemNotFoundError (itemId : string)
| InvalidQuantityError (message : string)
| EmptyCartError
| SessionCompletedError (sessionId : string).

Record Config : Type := mkConfig {
  SF_CONTEXT_TTL_MS : Z;
  MAX_SESSION_AGE_MS : Z;
  TAX_RATE : Q
}.

Definition DEFAULT_CONFIG : Config :=
  {| SF_CONTEXT_TTL_MS := 5 * 60 * 1000;
     MAX_SESSION_AGE_MS := 24 * 60 * 60 * 1000;
     TAX_RATE := 1 # 10 |}.

(** ** Worlds and methods *)

(** [sessions] is the map owned by the state manager, [contexts] the map
    owned by the backend client. [clock] is what [Date.now()] returns; it is
    constant while one method runs and moves only between calls. [nanoSeed]
    numbers the draws of [nanoid]. *)
Record World : Type := mkWorld {
  sessions : gmap string ExperienceSession;
  contexts : gmap string SalesforceCartContext;
  clock : Z;
  nanoSeed : nat
}.

Definition emptyWorld : World :=
  {| sessions := ∅; contexts := ∅; clock := 0; nanoSeed := 0 |}.

Definition withSessions (w : World) (ss : gmap string ExperienceSession) : World :=
  {| sessions := ss; contexts := contexts w; clock := clock w;
     nanoSeed := nanoSeed w |}.

Definition withContexts (w : World) (cs : gmap string SalesforceCartContext) : World :=
  {| sessions := sessions w; contexts := cs; clock := clock w;
     nanoSeed := nanoSeed w |}.

(** Time passing between two calls. *)
Definition advanceClock (dt : Z) (w : World) : World :=
  {| sessions := sessions w; contexts := contexts w; clock := clock w + dt;
     nanoSeed := nanoSeed w |}.

Inductive Result (A : Type) : Type :=
| Ok (a : A)
| Throw (e : CartError).
Arguments Ok {A} a.
Arguments Throw {A} e.

Definition M (A : Type) : Type := World -> Result A * World.

Definition ret {A} (a : A) : M A := fun w => (Ok a, w).

Definition throw {A} (e : CartError) : M A := fun w => (Throw e, w).

Definition bind {A B} (m : M A) (f : A -> M B) : M B :=
  fun w => match m w with
           | (Ok a, w') => f a w'
           | (Throw e, w') => (Throw e, w')
           end.

(** [try { body } catch (error) { handler }] *)
Definition tryCatch {A} (body : M A) (handler : CartError -> M A) : M A :=
  fun w => match body w with
           | (Ok a, w') => (Ok a, w')
           | (Throw e, w') => handler e w'
           end.

Declare Scope method_scope.
Delimit Scope method_scope with method.
Notation "x <- c1 ;; c2" := (bind c1 (fun x => c2))
  (at level 100, c1 at next level, right associativity) : method_scope.
Notation "c1 ;; c2" := (bind c1 (fun _ => c2))
  (at level 100, right associativity) : method_scope.
Local Open Scope method_scope.

Definition getWorld : M World := fun w => (Ok w, w).

Definition Date_now : M Z := fun w => (Ok (clock w), w).

(** [nanoid(10)]: the [n]-th draw is the decimal numeral of [n], so that two
    draws never coincide. *)
Definition nanoid : M string :=
  fun w => (Ok (pretty (nanoSeed w)),
            {| sessions := sessions w; contexts := contexts w;
               clock := clock w; nanoSeed := S (nanoSeed w) |}).

Definition isContextExpired (e : CartError) : bool :=
  match e with ContextExpiredError _ => true | _ => false end.

Definition isItemNotFound (e : CartError) : bool :=
  match e with ItemNotFoundError _ => true | _ => false end.

(** ** Arithmetic shared by the two cart builders *)

(** [Math.round]: the nearest integer, a half rounding up. *)
Definition Math_round (x : Q) : Z := Qfloor (x + (1 # 2))%Q.

(** [items.reduce((sum, item) => sum + item.price * item.quantity, 0)] *)
Definition sumItems (items : list CartItem) : Z :=
  fold_left (fun sum item => sum + item_price item * item_quantity item) items 0.

(** ** [salesforce-client.ts] *)

Module SalesforceCartClient.
Section Client.
Variable cfg : Config.

Definition putContext (contextId : string) (context : SalesforceCartContext)
  : M unit :=
  fun w => (Ok tt, withContexts w (<[contextId := context]> (contexts w))).

Definition dropContext (contextId : string) : M unit :=
  fun w => (Ok tt, withContexts w (base.delete contextId (contexts w))).

Definition createContext : M string :=
  n <- nanoid ;;
  let contextId := "sf_" +:+ n in
  now <- Date_now ;;
  putContext contextId
    {| ctx_contextId := contextId; ctx_items := JsMap.empty;
       ctx_createdAt := now; ctx_lastActivity := now |} ;;
  ret contextId.

Definition getValidContext (contextId : string) : M SalesforceCartContext :=
  w <- getWorld ;;
  match contexts w !! contextId with
  | None => throw (ContextExpiredError contextId)
  | Some context =>
      now <- Date_now ;;
      let timeSinceActivity := now - ctx_lastActivity context in
      if timeSinceActivity >? SF_CONTEXT_TTL_MS cfg
      then dropContext contextId ;; throw (ContextExpiredError contextId)
      else ret context
  end.

(** The context object is shared with the map, so a write to one of its
    fields is a write to the map entry. *)
Definition touch (contextId : string) (context : SalesforceCartContext)
           (items : JsMap.t CartItem) : M unit :=
  now <- Date_now ;;
  putContext contextId
    {| ctx_contextId := ctx_contextId context; ctx_items := items;
       ctx_createdAt := ctx_createdAt context; ctx_lastActivity := now |}.

Definition addItem (contextId : string) (item : CartItem) : M unit :=
  context <- getValidContext contextId ;;
  match JsMap.get (item_id item) (ctx_items context) with
  | Some existingItem =>
      touch contextId context
        (JsMap.set (item_id item)
           (withQuantity existingItem
              (item_quantity existingItem + item_quantity item))
           (ctx_items context))
  | None =>
      touch contextId context (JsMap.set (item_id item) item (ctx_items context))
  end.

Definition removeItem (contextId itemId : string) (quantity : option Z)
  : M unit :=
  context <- getValidContext contextId ;;
  match JsMap.get itemId (ctx_items context) with
  | None => throw (ItemNotFoundError itemId)
  | Some item =>
      match quantity with
      | None => touch contextId context (JsMap.delete itemId (ctx_items context))
      | Some quantity =>
          if quantity >=? item_quantity item
          then touch contextId context (JsMap.delete itemId (ctx_items context))
          else touch contextId context
                 (JsMap.set itemId
                    (withQuantity item (item_quantity item - quantity))
                    (ctx_items context))
      end
  end.

Definition updateItem (contextId itemId : string) (quantity : Z) : M unit :=
  context <- getValidContext contextId ;;
  match JsMap.get itemId (ctx_items context) with
  | None => throw (ItemNotFoundError itemId)
  | Some item =>
      touch contextId context
        (JsMap.set itemId (withQuantity item quantity) (ctx_items context))
  end.

Definition checkout (contextId sessionId : string) : M string :=
  context <- getValidContext contextId ;;
  touch contextId context (ctx_items context) ;;
  n <- nanoid ;;
  ret ("ord_" +:+ n).

(** [buildCart]: the tax is 10% whatever the configuration says. *)
Definition buildCart (sessionId : string) (context : SalesforceCartContext) : Cart :=
  let items := JsMap.values (ctx_items context) in
  let subtotal := sumItems items in
  let tax := Math_round (inject_Z subtotal * (1 # 10))%Q in
  let total := subtotal + tax in
  {| cart_sessionId := sessionId; cart_items := items;
     cart_subtotal := subtotal; cart_tax := tax; cart_total := total |}.

Definition getCart (contextId sessionId : string) : M Cart :=
  context <- getValidContext contextId ;;
  touch contextId context (ctx_items context) ;;
  ret (buildCart sessionId context).

Definition hasContext (contextId : string) : M bool :=
  w <- getWorld ;;
  ret (bool_decide (is_Some (contexts w !! contextId))).

(** [cleanup]: every context idle for more than the TTL is deleted. *)
Definition cleanup : M unit :=
  now <- Date_now ;;
  fun w =>
    (Ok tt,
     withContexts w
       (filter (fun entry =>
                  now - ctx_lastActivity (snd entry) <= SF_CONTEXT_TTL_MS cfg)
          (contexts w))).
End Client.
End SalesforceCartClient.

(** ** [state-manager.ts] *)

(** One turn of the [for (const event of events)] loop of
    [buildCartFromEvents]. *)
Definition applyEvent (itemsMap : JsMap.t CartItem) (event : CartEvent)
  : JsMap.t CartItem :=
  match event with
  | ITEM_ADDED itemId itemType name price quantity _ =>
      match JsMap.get itemId itemsMap with
      | Some existing =>
          JsMap.set itemId
            (withQuantity existing (item_quantity existing + quantity)) itemsMap
      | None =>
          JsMap.set itemId
            {| item_id := itemId; item_type := itemType; item_name := name;
               item_price := price; item_quantity := quantity |} itemsMap
      end
  | ITEM_REMOVED itemId quantity _ =>
      match JsMap.get itemId itemsMap with
      | Some existing =>
          if quantity >=? item_quantity existing
          then JsMap.delete itemId itemsMap
          else JsMap.set itemId
                 (withQuantity existing (item_quantity existing - quantity))
                 itemsMap
      | None => itemsMap
      end
  | ITEM_UPDATED itemId quantity _ =>
      match JsMap.get itemId itemsMap with
      | Some existing => JsMap.set itemId (withQuantity existing quantity) itemsMap
      | None => itemsMap
      end
  end.

Definition foldEvents (events : list CartEvent) : JsMap.t CartItem :=
  fold_left applyEvent events JsMap.empty.

Module CartStateManager.
Section Manager.
Variable cfg : Config.

Definition putSession (sessionId : string) (session : ExperienceSession)
  : M unit :=
  fun w => (Ok tt, withSessions w (<[sessionId := session]> (sessions w))).

Definition createSession : M string :=
  n <- nanoid ;;
  let sessionId := "exp_" +:+ n in
  now <- Date_now ;;
  putSession sessionId
    {| sess_sessionId := sessionId; sess_sfContextId := None;
       sess_lastActivity := now; sess_events := [];
       sess_checkedOut := false |} ;;
  ret sessionId.

Definition getSession (sessionId : string) : M ExperienceSession :=
  w <- getWorld ;;
  match sessions w !! sessionId with
  | None => throw (SessionNotFoundError sessionId)
  | Some session =>
      now <- Date_now ;;
      let session :=
        {| sess_sessionId := sess_sessionId session;
           sess_sfContextId := sess_sfContextId session;
           sess_lastActivity := now;
           sess_events := sess_events session;
           sess_checkedOut := sess_checkedOut session |} in
      putSession sessionId session ;;
      ret session
  end.

Definition updateSfContextId (sessionId sfContextId : string) : M unit :=
  session <- getSession sessionId ;;
  putSession sessionId
    {| sess_sessionId := sess_sessionId session;
       sess_sfContextId := Some sfContextId;
       sess_lastActivity := sess_lastActivity session;
       sess_events := sess_events session;
       sess_checkedOut := sess_checkedOut session |}.

Definition appendEvent (sessionId : string) (event : CartEvent) : M unit :=
  session <- getSession sessionId ;;
  now <- Date_now ;;
  putSession sessionId
    {| sess_sessionId := sess_sessionId session;
       sess_sfContextId := sess_sfContextId session;
       sess_lastActivity := now;
       sess_events := sess_events session ++ [event];
       sess_checkedOut := sess_checkedOut session |}.

Definition markCheckedOut (sessionId : string) : M unit :=
  session <- getSession sessionId ;;
  putSession sessionId
    {| sess_sessionId := sess_sessionId session;
       sess_sfContextId := sess_sfContextId session;
       sess_lastActivity := sess_lastActivity session;
       sess_events := sess_events session;
       sess_checkedOut := true |}.

Definition getEvents (sessionId : string) : M (list CartEvent) :=
  session <- getSession sessionId ;;
  ret (sess_events session).

Definition buildCartFromEvents (sessionId : string) (events : list CartEvent)
  : Cart :=
  let items := JsMap.values (foldEvents events) in
  let subtotal := sumItems items in
  let tax := Math_round (inject_Z subtotal * TAX_RATE cfg)%Q in
  let total := subtotal + tax in
  {| cart_sessionId := sessionId; cart_items := items;
     cart_subtotal := subtotal; cart_tax := tax; cart_total := total |}.

Definition isCheckedOut (sessionId : string) : M bool :=
  session <- getSession sessionId ;;
  ret (sess_checkedOut session).

(** [cleanupOldSessions], which the interval timer of the constructor runs
    between two calls: a session whose age is > the maximum is deleted. *)
Definition cleanupOldSessions : M unit :=
  now <- Date_now ;;
  fun w =>
    (Ok tt,
     withSessions w
       (filter (fun entry =>
                  now - sess_lastActivity (snd entry) <= MAX_SESSION_AGE_MS cfg)
          (sessions w))).

Definition getSessionCount : M nat :=
  w <- getWorld ;;
  ret (size (sessions w)).
End Manager.
End CartStateManager.

(** [cart.items.find((item) => item.id === itemId)] *)
Definition findItem (itemId : string) (items : list CartItem) : option CartItem :=
  find (fun item => bool_decide (item_id item = itemId)) items.

(** ** [cart-service.ts] *)

Module CartService.
Section Service.
Variable cfg : Config.

Definition createSession : M (string * Cart) :=
  sessionId <- CartStateManager.createSession ;;
  ret (sessionId, CartStateManager.buildCartFromEvents cfg sessionId []).

Definition getCart (sessionId : string) : M Cart :=
  CartStateManager.getSession sessionId ;;
  events <- CartStateManager.getEvents sessionId ;;
  ret (CartStateManager.buildCartFromEvents cfg sessionId events).

Definition ensureSfContext (sessionId : string) : M string :=
  session <- CartStateManager.getSession sessionId ;;
  match sess_sfContextId session with
  | None =>
      contextId <- SalesforceCartClient.createContext ;;
      CartStateManager.updateSfContextId sessionId contextId ;;
      ret contextId
  | Some sfContextId => ret sfContextId
  end.

(** The body of the [for (const event of events)] loop of [replayEvents]. *)
Definition replayEvent (newContextId : string) (event : CartEvent) : M unit :=
  match event with
  | ITEM_ADDED itemId itemType name price quantity _ =>
      SalesforceCartClient.addItem cfg newContextId
        {| item_id := itemId; item_type := itemType; item_name := name;
           item_price := price; item_quantity := quantity |}
  | ITEM_REMOVED itemId quantity _ =>
      tryCatch
        (SalesforceCartClient.removeItem cfg newContextId itemId (Some quantity))
        (fun error => if isItemNotFound error then ret tt else throw error)
  | ITEM_UPDATED itemId quantity _ =>
      tryCatch
        (SalesforceCartClient.updateItem cfg newContextId itemId quantity)
        (fun error => if isItemNotFound error then ret tt else throw error)
  end.

Fixpoint replayLoop (newContextId : string) (events : list CartEvent) : M unit :=
  match events with
  | [] => ret tt
  | event :: rest =>
      replayEvent newContextId event ;; replayLoop newContextId rest
  end.

Definition replayEvents (sessionId : string) : M unit :=
  newContextId <- SalesforceCartClient.createContext ;;
  CartStateManager.updateSfContextId sessionId newContextId ;;
  events <- CartStateManager.getEvents sessionId ;;
  replayLoop newContextId events.

(** The source types [operation] as [() => void]; [checkout] gets its
    order id out of the closure through a captured variable, which is the
    closure returning it, hence the result type [A]. *)
Definition executeWithReplay {A} (sessionId : string) (operation : M A) : M A :=
  tryCatch operation
    (fun error =>
       if isContextExpired error
       then replayEvents sessionId ;; operation
       else throw error).

Definition validateAddItemRequest (request : AddItemRequest) : M unit :=
  if bool_decide (req_itemId request = "")
  then throw (InvalidQuantityError "Item ID is required")
  else if negb (bool_decide (req_type request ∈ ["DEVICE"; "PLAN"; "ADDON"]))
  then throw (InvalidQuantityError "Invalid item type")
  else if bool_decide (req_name request = "")
  then throw (InvalidQuantityError "Item name is required")
  else if req_price request <? 0
  then throw (InvalidQuantityError "Price must be a non-negative number")
  else if req_quantity request <=? 0
  then throw (InvalidQuantityError "Quantity must be a positive number")
  else ret tt.

(** The closures handed to [executeWithReplay]. *)
Definition backendAdd (sessionId : string) (item : CartItem) : M unit :=
  sfContextId <- ensureSfContext sessionId ;;
  SalesforceCartClient.addItem cfg sfContextId item.

Definition backendRemove (sessionId itemId : string) (quantityToRemove : Z)
  : M unit :=
  sfContextId <- ensureSfContext sessionId ;;
  SalesforceCartClient.removeItem cfg sfContextId itemId (Some quantityToRemove).

Definition backendUpdate (sessionId itemId : string) (quantity : Z) : M unit :=
  sfContextId <- ensureSfContext sessionId ;;
  SalesforceCartClient.updateItem cfg sfContextId itemId quantity.

Definition addItem (sessionId : string) (request : AddItemRequest) : M Cart :=
  validateAddItemRequest request ;;
  checkedOut <- CartStateManager.isCheckedOut sessionId ;;
  if checkedOut : bool then throw (SessionCompletedError sessionId) else
  let item :=
    {| item_id := req_itemId request; item_type := req_type request;
       item_name := req_name request; item_price := req_price request;
       item_quantity := req_quantity request |} in
  executeWithReplay sessionId (backendAdd sessionId item) ;;
  now <- Date_now ;;
  CartStateManager.appendEvent sessionId
    (ITEM_ADDED (req_itemId request) (req_type request) (req_name request)
       (req_price request) (req_quantity request) now) ;;
  getCart sessionId.

Definition resolveQuantity (quantity : option Z) (existingItem : CartItem) : Z :=
  match quantity with
  | None => item_quantity existingItem
  | Some quantity => Z.min quantity (item_quantity existingItem)
  end.

Definition removeItem (sessionId itemId : string) (quantity : option Z)
  : M Cart :=
  match quantity with
  | Some q => if q <=? 0
              then throw (InvalidQuantityError "Quantity must be positive")
              else ret tt
  | None => ret tt
  end ;;
  checkedOut <- CartStateManager.isCheckedOut sessionId ;;
  if checkedOut : bool then throw (SessionCompletedError sessionId) else
  currentCart <- getCart sessionId ;;
  match findItem itemId (cart_items currentCart) with
  | None => throw (ItemNotFoundError itemId)
  | Some existingItem =>
      let quantityToRemove := resolveQuantity quantity existingItem in
      executeWithReplay sessionId
        (backendRemove sessionId itemId quantityToRemove) ;;
      now <- Date_now ;;
      CartStateManager.appendEvent sessionId
        (ITEM_REMOVED itemId quantityToRemove now) ;;
      getCart sessionId
  end.

Definition updateItem (sessionId itemId : string) (quantity : Z) : M Cart :=
  (if quantity <=? 0
   then throw (InvalidQuantityError "Quantity must be positive")
   else ret tt) ;;
  checkedOut <- CartStateManager.isCheckedOut sessionId ;;
  if checkedOut : bool then throw (SessionCompletedError sessionId) else
  currentCart <- getCart sessionId ;;
  match findItem itemId (cart_items currentCart) with
  | None => throw (ItemNotFoundError itemId)
  | Some _ =>
      executeWithReplay sessionId (backendUpdate sessionId itemId quantity) ;;
      now <- Date_now ;;
      CartStateManager.appendEvent sessionId (ITEM_UPDATED itemId quantity now) ;;
      getCart sessionId
  end.

Definition backendCheckout (sessionId : string) : M string :=
  sfContextId <- ensureSfContext sessionId ;;
  SalesforceCartClient.checkout cfg sfContextId sessionId.

Definition checkout (sessionId : string) : M CheckoutResult :=
  checkedOut <- CartStateManager.isCheckedOut sessionId ;;
  if checkedOut : bool then throw (SessionCompletedError sessionId) else
  currentCart <- getCart sessionId ;;
  match cart_items currentCart with
  | [] => throw EmptyCartError
  | _ :: _ =>
      orderId <- executeWithReplay sessionId (backendCheckout sessionId) ;;
      CartStateManager.markCheckedOut sessionId ;;
      ret {| co_orderId := orderId; co_cart := currentCart |}
  end.
End Service.
End CartService.

(** ** [routes.ts] *)

(** The [message] that the constructor of each error class builds. *)
Definition errorMessage (error : CartError) : string :=
  match error with
  | ContextExpiredError contextId =>
      "Salesforce context " +:+ contextId +:+ " has expired"
  | SessionNotFoundError sessionId => "Session " +:+ sessionId +:+ " not found"
  | ItemNotFoundError itemId => "Item " +:+ itemId +:+ " not found in cart"
  | InvalidQuantityError message => message
  | EmptyCartError => "Cannot checkout an empty cart"
  | SessionCompletedError sessionId =>
      "Session " +:+ sessionId +:+ " has already been checked out"
  end.

(** What a handler sends: [res.status(n).json(body)]. *)
Inductive HttpBody : Type :=
| SessionJson (sessionId : string) (cart : Cart)
| CartJson (cart : Cart)
| CheckoutJson (result : CheckoutResult)
| ErrorJson (error message : string).

Record HttpResponse : Type := mkResponse {
  res_status : Z;
  res_body : HttpBody
}.

Module Routes.
Section Router.
Variable cfg : Config.

Definition handleError (error : CartError) : HttpResponse :=
  match error with
  | SessionNotFoundError _ =>
      {| res_status := 404;
         res_body := ErrorJson "SESSION_NOT_FOUND" (errorMessage error) |}
  | ItemNotFoundError _ =>
      {| res_status := 404;
         res_body := ErrorJson "ITEM_NOT_FOUND" (errorMessage error) |}
  | InvalidQuantityError _ =>
      {| res_status := 400;
         res_body := ErrorJson "INVALID_REQUEST" (errorMessage error) |}
  | EmptyCartError =>
      {| res_status := 400;
         res_body := ErrorJson "EMPTY_CART" (errorMessage error) |}
  | SessionCompletedError _ =>
      {| res_status := 409;
         res_body := ErrorJson "SESSION_COMPLETED" (errorMessage error) |}
  | ContextExpiredError _ =>
      {| res_status := 500;
         res_body := ErrorJson "INTERNAL_ERROR" "An unexpected error occurred" |}
  end.

(** [POST /cart/sessions] *)
Definition postSessions : M HttpResponse :=
  tryCatch
    (result <- CartService.createSession cfg ;;
     ret {| res_status := 201;
            res_body := SessionJson (fst result) (snd result) |})
    (fun error => ret (handleError error)).

(** [GET /cart/:sessionId] *)
Definition getCart (sessionId : string) : M HttpResponse :=
  tryCatch
    (cart <- CartService.getCart cfg sessionId ;;
     ret {| res_status := 200; res_body := CartJson cart |})
    (fun error => ret (handleError error)).

(** [POST /cart/:sessionId/items] *)
Definition postItems (sessionId : string) (itemRequest : AddItemRequest)
  : M HttpResponse :=
  tryCatch
    (cart <- CartService.addItem cfg sessionId itemRequest ;;
     ret {| res_status := 200; res_body := CartJson cart |})
    (fun error => ret (handleError error)).

(** [DELETE /cart/:sessionId/items/:itemId] *)
Definition deleteItem (sessionId itemId : string) (quantity : option Z)
  : M HttpResponse :=
  tryCatch
    (cart <- CartService.removeItem cfg sessionId itemId quantity ;;
     ret {| res_status := 200; res_body := CartJson cart |})
    (fun error => ret (handleError error)).

(** [PATCH /cart/:sessionId/items/:itemId] *)
Definition patchItem (sessionId itemId : string) (quantity : option Z)
  : M HttpResponse :=
  tryCatch
    (match quantity with
     | None =>
         ret {| res_status := 400;
                res_body := ErrorJson "INVALID_REQUEST" "Quantity is required" |}
     | Some quantity =>
         cart <- CartService.updateItem cfg sessionId itemId quantity ;;
         ret {| res_status := 200; res_body := CartJson cart |}
     end)
    (fun error => ret (handleError error)).

(** [POST /cart/:sessionId/checkout] *)
Definition postCheckout (sessionId : string) : M HttpResponse :=
  tryCatch
    (result <- CartService.checkout cfg sessionId ;;
     ret {| res_status := 200; res_body := CheckoutJson result |})
    (fun error => ret (handleError error)).
End Router.
End Routes.

(** ** Clients: a sequence of calls with time passing in between *)

Inductive Operation : Type :=
| OpAddItem (request : AddItemRequest)
| OpRemoveItem (itemId : string) (quantity : option Z)
| OpUpdateItem (itemId : string) (quantity : Z).

Definition perform (cfg : Config) (sessionId : string) (op : Operation) : M Cart :=
  match op with
  | OpAddItem request => CartService.addItem cfg sessionId request
  | OpRemoveItem itemId quantity => CartService.removeItem cfg sessionId itemId quantity
  | OpUpdateItem itemId quantity => CartService.updateItem cfg sessionId itemId quantity
  end.

(** Each step lets [dt] milliseconds pass and then performs one call; a
    backend context expires when more than the TTL passes between two uses. *)
Fixpoint runSchedule (cfg : Config) (sessionId : string)
         (steps : list (Z * Operation)) (w : World)
  : list (Result Cart) * World :=
  match steps with
  | [] => ([], w)
  | (dt, op) :: rest =>
      let (r, w') := perform cfg sessionId op (advanceClock dt w) in
      let (rs, w'') := runSchedule cfg sessionId rest w' in
      (r :: rs, w'')
  end.

(** The same calls with no time passing at all. *)
Definition withoutExpiry (steps : list (Z * Operation)) : list (Z * Operation) :=
  map (fun step => (0, snd step)) steps.

(** * Vocabulary of the statements *)

(** ** The projection *)

(** Every entry of the fold's map is filed under its own item id. *)
Definition keyed (m : JsMap.t CartItem) : Prop :=
  Forall (fun kv => item_id (snd kv) = fst kv) m.

(** An event that the service can log: [addItem] and [updateItem] reject a
    quantity that is not positive before they log anything. *)
Definition positiveEvent (event : CartEvent) : Prop :=
  match event with
  | ITEM_ADDED _ _ _ _ quantity _ => 0 < quantity
  | ITEM_REMOVED _ _ _ => True
  | ITEM_UPDATED _ quantity _ => 0 < quantity
  end.

(** Every line of the map has a quantity > 0. *)
Definition positiveLines (m : JsMap.t CartItem) : Prop :=
  Forall (fun kv => 0 < item_quantity (snd kv)) m.

(** The sum of price × quantity over the lines. *)
Definition linesTotal (items : list CartItem) : Z :=
  foldr (fun item acc => item_price item * item_quantity item + acc) 0 items.

(** ** Observing a world *)

(** The log and the completed flag of a session. *)
Definition logOf (w : World) (sessionId : string) : option (list CartEvent * bool) :=
  (fun s => (sess_events s, sess_checkedOut s)) <$> sessions w !! sessionId.

(** The backend handle stored in a session. *)
Definition handleOf (w : World) (sessionId : string) : option (option string) :=
  sess_sfContextId <$> sessions w !! sessionId.

(** The log of a session; empty when there is no such session. *)
Definition eventsOf (w : World) (sessionId : string) : list CartEvent :=
  match sessions w !! sessionId with
  | Some s => sess_events s
  | None => []
  end.

(** No log and no flag changed, and the clock did not move. *)
Definition sameLogs (w w' : World) : Prop :=
  clock w' = clock w /\ forall sessionId, logOf w' sessionId = logOf w sessionId.

(** Moreover the backend was not called: no context was created, dropped or
    written, and no session got a new handle. *)
Definition backendUntouched (w w' : World) : Prop :=
  sameLogs w w'
  /\ contexts w' = contexts w
  /\ nanoSeed w' = nanoSeed w
  /\ forall sessionId, handleOf w' sessionId = handleOf w sessionId.

(** The logs and flags of the sessions other than [sessionId] are unchanged. *)
Definition othersSame (sessionId : string) (w w' : World) : Prop :=
  forall other, other <> sessionId -> logOf w' other = logOf w other.

(** Whatever the outcome, the method takes a world to an [R]-related one. *)
Definition frame (R : relation World) {A} (m : M A) : Prop :=
  forall w, R w (snd (m w)).

(** The session as [getSession] leaves it. *)
Definition touched (s : ExperienceSession) (now : Z) : ExperienceSession :=
  {| sess_sessionId := sess_sessionId s; sess_sfContextId := sess_sfContextId s;
     sess_lastActivity := now; sess_events := sess_events s;
     sess_checkedOut := sess_checkedOut s |}.

(** ** Phases of a client call *)

(** A write to one session: the other sessions, the backend, the clock and
    every handle stay as they are. *)
Definition onlySession (sessionId : string) (w w' : World) : Prop :=
  (forall other, other <> sessionId -> logOf w' other = logOf w other)
  /\ (forall other, handleOf w' other = handleOf w other)
  /\ contexts w' = contexts w
  /\ clock w' = clock w
  /\ nanoSeed w' = nanoSeed w.

(** The part common to [addItem], [removeItem] and [updateItem]: the
    recovery-wrapped backend call, then the append, then the projection. *)
Definition mutateThenRecord (cfg : Config) (sessionId : string)
           (mutation : M unit) (event : Z -> CartEvent) : M Cart :=
  CartService.executeWithReplay cfg sessionId mutation ;;
  now <- Date_now ;;
  CartStateManager.appendEvent sessionId (event now) ;;
  CartService.getCart cfg sessionId.

(** The [CartItem] that [addItem] builds from its request. *)
Definition itemOfRequest (request : AddItemRequest) : CartItem :=
  {| item_id := req_itemId request; item_type := req_type request;
     item_name := req_name request; item_price := req_price request;
     item_quantity := req_quantity request |}.

(** The message of the [InvalidQuantityError] that the input validation of a
    call throws, if it throws. *)
Definition validationError (op : Operation) : option string :=
  match op with
  | OpAddItem request =>
      if bool_decide (req_itemId request = "") then Some "Item ID is required"
      else if negb (bool_decide (req_type request ∈ ["DEVICE"; "PLAN"; "ADDON"]))
      then Some "Invalid item type"
      else if bool_decide (req_name request = "") then Some "Item name is required"
      else if req_price request <? 0
      then Some "Price must be a non-negative number"
      else if req_quantity request <=? 0
      then Some "Quantity must be a positive number"
      else None
  | OpRemoveItem _ (Some q) =>
      if q <=? 0 then Some "Quantity must be positive" else None
  | OpRemoveItem _ None => None
  | OpUpdateItem _ q =>
      if q <=? 0 then Some "Quantity must be positive" else None
  end.

(** What the checks of a call decide from the log of its session: an error,
    or the backend mutation to run and the event to log after it. *)
Definition precheck (cfg : Config) (sessionId : string) (op : Operation)
           (log : option (list CartEvent * bool))
  : CartError + (M unit * (Z -> CartEvent)) :=
  match validationError op with
  | Some message => inl (InvalidQuantityError message)
  | None =>
      match log with
      | None => inl (SessionNotFoundError sessionId)
      | Some (_, true) => inl (SessionCompletedError sessionId)
      | Some (events, false) =>
          match op with
          | OpAddItem request =>
              inr (CartService.backendAdd cfg sessionId (itemOfRequest request),
                   ITEM_ADDED (req_itemId request) (req_type request)
                     (req_name request) (req_price request) (req_quantity request))
          | OpRemoveItem itemId quantity =>
              match JsMap.get itemId (foldEvents events) with
              | None => inl (ItemNotFoundError itemId)
              | Some existingItem =>
                  let quantityToRemove :=
                    CartService.resolveQuantity quantity existingItem in
                  inr (CartService.backendRemove cfg sessionId itemId quantityToRemove,
                       ITEM_REMOVED itemId quantityToRemove)
              end
          | OpUpdateItem itemId quantity =>
              match JsMap.get itemId (foldEvents events) with
              | None => inl (ItemNotFoundError itemId)
              | Some _ =>
                  inr (CartService.backendUpdate cfg sessionId itemId quantity,
                       ITEM_UPDATED itemId quantity)
              end
          end
      end
  end.

(** The context that [createContext] stores. *)
Definition freshContext (contextId : string) (now : Z) : SalesforceCartContext :=
  {| ctx_contextId := contextId; ctx_items := JsMap.empty;
     ctx_createdAt := now; ctx_lastActivity := now |}.

(** The handle that the next [createContext] issues. *)
Definition nextHandle (w : World) : string := "sf_" +:+ pretty (nanoSeed w).

(** ** Scenarios *)

(** The configuration of the test suite: a backend TTL of 100 ms. *)
Definition testConfig : Config :=
  {| SF_CONTEXT_TTL_MS := 100;
     MAX_SESSION_AGE_MS := 24 * 60 * 60 * 1000;
     TAX_RATE := 1 # 10 |}.

Definition requestPhone : AddItemRequest :=
  {| req_itemId := "item1"; req_type := "DEVICE"; req_name := "iPhone";
     req_price := 99900; req_quantity := 1 |}.

Definition requestPlan : AddItemRequest :=
  {| req_itemId := "item2"; req_type := "PLAN"; req_name := "Unlimited";
     req_price := 5000; req_quantity := 1 |}.

(** A new session, [exp_0], in an empty service. *)
Definition worldNewSession : World :=
  snd (CartService.createSession testConfig emptyWorld).

(** The session after one successful [addItem]. *)
Definition worldOneItem : World :=
  snd (CartService.addItem testConfig "exp_0" requestPhone worldNewSession).

(** The same, 150 ms later: the backend context [sf_1] has expired. *)
Definition worldIdle : World := advanceClock 150 worldOneItem.

(** The session after a successful [checkout]. *)
Definition worldCompleted : World :=
  snd (CartService.checkout testConfig "exp_0" worldOneItem).

(** A context with no items, in an otherwise empty service. *)
Definition worldEmptyContext : World :=
  snd (SalesforceCartClient.createContext emptyWorld).

(** Scenario D of the specification: A×2, B×1, remove one A, expiry,
    update A to 3, add C. *)
Definition scenarioD : list (Z * Operation) :=
  [(0, OpAddItem {| req_itemId := "A"; req_type := "DEVICE"; req_name := "Phone";
                    req_price := 99900; req_quantity := 2 |});
   (0, OpAddItem {| req_itemId := "B"; req_type := "PLAN"; req_name := "Plan";
                    req_price := 5000; req_quantity := 1 |});
   (0, OpRemoveItem "A" (Some 1));
   (150, OpUpdateItem "A" 3);
   (0, OpAddItem {| req_itemId := "C"; req_type := "ADDON"; req_name := "Case";
                    req_price := 2000; req_quantity := 1 |})].

(** ** Reachable worlds *)

(** The worlds reached from the empty service by the public calls, on any
    sessions and with any arguments, with any time passing in between and
    the session sweep running at any point. *)
Inductive Reachable (cfg : Config) : World -> Prop :=
| reach_start : Reachable cfg emptyWorld
| reach_clock w dt : Reachable cfg w -> Reachable cfg (advanceClock dt w)
| reach_createSession w :
    Reachable cfg w -> Reachable cfg (snd (CartService.createSession cfg w))
| reach_getCart w sessionId :
    Reachable cfg w -> Reachable cfg (snd (CartService.getCart cfg sessionId w))
| reach_perform w sessionId op :
    Reachable cfg w -> Reachable cfg (snd (perform cfg sessionId op w))
| reach_checkout w sessionId :
    Reachable cfg w -> Reachable cfg (snd (CartService.checkout cfg sessionId w))
| reach_cleanup w :
    Reachable cfg w ->
    Reachable cfg (snd (CartStateManager.cleanupOldSessions cfg w)).

(** A completed session has a projection with at least one item. *)
Definition completedNonEmpty (w : World) : Prop :=
  forall sessionId events,
    logOf w sessionId = Some (events, true) ->
    JsMap.values (foldEvents events) <> [].

(** ** The backend and the log *)

(** The context after a write of its items at time [now]. *)
Definition contextWith (context : SalesforceCartContext)
           (items : JsMap.t CartItem) (now : Z) : SalesforceCartContext :=
  {| ctx_contextId := ctx_contextId context; ctx_items := items;
     ctx_createdAt := ctx_createdAt context; ctx_lastActivity := now |}.

(** The backend call that corresponds to an event: the one that
    [replayEvents] issues for it, and the one that the client's call issued
    before the event was logged. *)
Definition sfMutation (cfg : Config) (event : CartEvent) (contextId : string)
  : M unit :=
  match event with
  | ITEM_ADDED itemId itemType name price quantity _ =>
      SalesforceCartClient.addItem cfg contextId
        {| item_id := itemId; item_type := itemType; item_name := name;
           item_price := price; item_quantity := quantity |}
  | ITEM_REMOVED itemId quantity _ =>
      SalesforceCartClient.removeItem cfg contextId itemId (Some quantity)
  | ITEM_UPDATED itemId quantity _ =>
      SalesforceCartClient.updateItem cfg contextId itemId quantity
  end.

(** The item that the event removes or updates is there. *)
Definition applicable (items : JsMap.t CartItem) (event : CartEvent) : Prop :=
  match event with
  | ITEM_ADDED _ _ _ _ _ _ => True
  | ITEM_REMOVED itemId _ _ | ITEM_UPDATED itemId _ _ =>
      JsMap.get itemId items <> None
  end.

(** The backend has the context and it has not expired. *)
Definition liveContext (cfg : Config) (w : World) (contextId : string)
           (context : SalesforceCartContext) : Prop :=
  contexts w !! contextId = Some context
  /\ clock w - ctx_lastActivity context <= SF_CONTEXT_TTL_MS cfg.

(** The closure that the client calls hand to [executeWithReplay]. *)
Definition attempt (cfg : Config) (sessionId : string) (event : CartEvent) : M unit :=
  sfContextId <- CartService.ensureSfContext sessionId ;;
  sfMutation cfg event sfContextId.

(** The backend context of the session, when the backend still has it,
    holds the projection of the log. *)
Definition Synced (w : World) (sessionId : string) : Prop :=
  exists events checkedOut,
    logOf w sessionId = Some (events, checkedOut)
    /\ match handleOf w sessionId with
       | Some (Some contextId) =>
           forall context,
             contexts w !! contextId = Some context ->
             ctx_items context = foldEvents events
       | Some None => events = []
       | None => False
       end.

(** The event with its timestamp erased. *)
Definition untimed (event : CartEvent) : CartEvent :=
  match event with
  | ITEM_ADDED itemId itemType name price quantity _ =>
      ITEM_ADDED itemId itemType name price quantity 0
  | ITEM_REMOVED itemId quantity _ => ITEM_REMOVED itemId quantity 0
  | ITEM_UPDATED itemId quantity _ => ITEM_UPDATED itemId quantity 0
  end.

(** Two worlds whose session has the same log up to timestamps and the same
    flag, each with a synced backend. *)
Definition Twin (sessionId : string) (w1 w2 : World) : Prop :=
  Synced w1 sessionId /\ Synced w2 sessionId
  /\ exists events1 events2 checkedOut,
       logOf w1 sessionId = Some (events1, checkedOut)
       /\ logOf w2 sessionId = Some (events2, checkedOut)
       /\ map untimed events1 = map untimed events2.

(** ** Further vocabulary *)

(** An event whose price is not negative and whose quantity is positive:
    what [validateAddItemRequest] and [updateItem] let through. *)
Definition pricedEvent (event : CartEvent) : Prop :=
  match event with
  | ITEM_ADDED _ _ _ price quantity _ => 0 <= price /\ 0 < quantity
  | ITEM_REMOVED _ _ _ => True
  | ITEM_UPDATED _ quantity _ => 0 < quantity
  end.

(** Every line has a price >= 0 and a quantity > 0. *)
Definition pricedLines (m : JsMap.t CartItem) : Prop :=
  Forall (fun kv => 0 <= item_price (snd kv) /\ 0 < item_quantity (snd kv)) m.

(** [appendEvent] called once for each event of a list, in order. *)
Fixpoint appendAll (sessionId : string) (events : list CartEvent) : M unit :=
  match events with
  | [] => ret tt
  | event :: rest =>
      (CartStateManager.appendEvent sessionId event ;; appendAll sessionId rest)%method
  end.

(** The calls that the backend client offers on a context. *)
Inductive BackendCall : Type :=
| CallAddItem (item : CartItem)
| CallRemoveItem (itemId : string) (quantity : option Z)
| CallUpdateItem (itemId : string) (quantity : Z)
| CallGetCart (sessionId : string)
| CallCheckout (sessionId : string).

(** The call run for its effect; what it returns is dropped. *)
Definition runCall (cfg : Config) (contextId : string) (call : BackendCall)
  : M unit :=
  match call with
  | CallAddItem item => SalesforceCartClient.addItem cfg contextId item
  | CallRemoveItem itemId quantity =>
      SalesforceCartClient.removeItem cfg contextId itemId quantity
  | CallUpdateItem itemId quantity =>
      SalesforceCartClient.updateItem cfg contextId itemId quantity
  | CallGetCart sessionId =>
      (SalesforceCartClient.getCart cfg contextId sessionId ;; ret tt)%method
  | CallCheckout sessionId =>
      (SalesforceCartClient.checkout cfg contextId sessionId ;; ret tt)%method
  end.

(** Whether a call on a live context with these items succeeds. *)
Definition callOutcome (call : BackendCall) (items : JsMap.t CartItem)
  : Result unit :=
  match call with
  | CallRemoveItem itemId _ | CallUpdateItem itemId _ =>
      match JsMap.get itemId items with
      | None => Throw (ItemNotFoundError itemId)
      | Some _ => Ok tt
      end
  | _ => Ok tt
  end.

(** The HTTP request that makes a client call. *)
Definition routeOf (cfg : Config) (sessionId : string) (op : Operation)
  : M HttpResponse :=
  match op with
  | OpAddItem request => Routes.postItems cfg sessionId request
  | OpRemoveItem itemId quantity => Routes.deleteItem cfg sessionId itemId quantity
  | OpUpdateItem itemId quantity =>
      Routes.patchItem cfg sessionId itemId (Some quantity)
  end.

(** * Properties *)

(** ** Insertion-ordered maps *)

Section JsMapFacts.
Context {V : Type}.
Implicit Types (m : JsMap.t V) (k : string) (v : V).

Lemma get_set_eq m k v : JsMap.get k (JsMap.set k v m) = Some v.
Proof.
  induction m as [|[k' v'] m IH]; simpl.
  - by rewrite decide_True.
  - destruct (decide (k = k')) as [->|Hne]; simpl.
    + by rewrite decide_True.
    + by rewrite decide_False.
Qed.

Lemma get_set_ne m k k' v : k' <> k -> JsMap.get k' (JsMap.set k v m) = JsMap.get k' m.
Proof.
  intros Hne. induction m as [|[k0 v0] m IH]; simpl.
  - by rewrite decide_False.
  - destruct (decide (k = k0)) as [->|Hk]; simpl.
    + by rewrite !decide_False.
    + destruct (decide (k' = k0)); done.
Qed.

Lemma get_delete_eq m k : JsMap.get k (JsMap.delete k m) = None.
Proof.
  induction m as [|[k0 v0] m IH]; simpl; [done|].
  destruct (decide (k = k0)); simpl; [done|]. by rewrite decide_False.
Qed.

Lemma get_delete_ne m k k' : k' <> k -> JsMap.get k' (JsMap.delete k m) = JsMap.get k' m.
Proof.
  intros Hne. induction m as [|[k0 v0] m IH]; simpl; [done|].
  destruct (decide (k = k0)) as [->|Hk]; simpl.
  - by rewrite decide_False.
  - destruct (decide (k' = k0)); done.
Qed.

Lemma get_Forall (P : string * V -> Prop) m k v :
  Forall P m -> JsMap.get k m = Some v -> exists k0, P (k0, v).
Proof.
  induction 1 as [|[k0 v0] m HP _ IH]; simpl; [done|].
  destruct (decide (k = k0)); [|done]. intros [= ->]. eauto.
Qed.

Lemma Forall_set (P : string * V -> Prop) m k v :
  Forall P m -> P (k, v) -> Forall P (JsMap.set k v m).
Proof.
  intros Hm Hv. induction Hm as [|[k0 v0] m HP Hm IH]; simpl.
  - by constructor.
  - destruct (decide (k = k0)); constructor; done.
Qed.

Lemma Forall_delete (P : string * V -> Prop) m k :
  Forall P m -> Forall P (JsMap.delete k m).
Proof.
  induction 1 as [|[k0 v0] m HP _ IH]; simpl; [done|].
  destruct (decide (k = k0)); [done|]. by constructor.
Qed.

(** Overwriting a present key keeps the order of the keys. *)
Lemma keys_set_present m k v v0 :
  JsMap.get k m = Some v0 -> map fst (JsMap.set k v m) = map fst m.
Proof.
  induction m as [|[k0 v1] m IH]; simpl; [done|].
  destruct (decide (k = k0)) as [->|Hk]; simpl; [done|].
  intros H. by rewrite IH.
Qed.
End JsMapFacts.

(** ** The fold *)

Lemma foldEvents_snoc events event :
  foldEvents (events ++ [event]) = applyEvent (foldEvents events) event.
Proof. unfold foldEvents. by rewrite fold_left_app. Qed.

Lemma keyed_get m k v : keyed m -> JsMap.get k m = Some v -> item_id v = k.
Proof.
  induction 1 as [|[k0 v0] m HP _ IH]; simpl; [done|].
  destruct (decide (k = k0)) as [->|]; [|done]. by intros [= ->].
Qed.

Lemma applyEvent_keyed m event : keyed m -> keyed (applyEvent m event).
Proof.
  intros Hm. destruct event as [i t n p q ts|i q ts|i q ts]; simpl;
    destruct (JsMap.get i m) as [ex|] eqn:Hget; try done;
    try (apply Forall_set; [done|]; simpl; eauto using keyed_get).
  destruct (q >=? item_quantity ex).
  - by apply Forall_delete.
  - apply Forall_set; [done|]. simpl. eauto using keyed_get.
Qed.

Lemma foldEvents_keyed events : keyed (foldEvents events).
Proof.
  induction events as [|ev events IH] using rev_ind.
  - constructor.
  - rewrite foldEvents_snoc. by apply applyEvent_keyed.
Qed.

Lemma findItem_values m k : keyed m -> findItem k (JsMap.values m) = JsMap.get k m.
Proof.
  unfold findItem. induction 1 as [|[k0 v0] m HP _ IH]; simpl in *; [done|].
  subst k0. destruct (decide (k = item_id v0)) as [->|Hne].
  - by rewrite bool_decide_eq_true_2.
  - by rewrite bool_decide_eq_false_2.
Qed.

Lemma findItem_build cfg sessionId events itemId :
  findItem itemId (cart_items (CartStateManager.buildCartFromEvents cfg sessionId events))
  = JsMap.get itemId (foldEvents events).
Proof. apply findItem_values, foldEvents_keyed. Qed.

Lemma applyEvent_positive m event :
  positiveEvent event -> positiveLines m -> positiveLines (applyEvent m event).
Proof.
  intros Hev Hm. destruct event as [i t n p q ts|i q ts|i q ts]; simpl in *;
    destruct (JsMap.get i m) as [ex|] eqn:Hget; try done.
  - apply Forall_set; [done|]. simpl.
    destruct (get_Forall _ _ _ _ Hm Hget) as [? Hex]. simpl in Hex. lia.
  - by apply Forall_set.
  - destruct (q >=? item_quantity ex) eqn:Hq.
    + by apply Forall_delete.
    + apply Forall_set; [done|]. simpl. lia.
  - by apply Forall_set.
Qed.

Lemma foldEvents_positive events :
  Forall positiveEvent events -> positiveLines (foldEvents events).
Proof.
  induction events as [|ev events IH] using rev_ind; intros Hall.
  - constructor.
  - rewrite foldEvents_snoc. apply Forall_app in Hall as [Hes Hev].
    apply applyEvent_positive; [by inversion Hev | by apply IH].
Qed.

Lemma removal_in_fold events itemId quantity timestamp existing :
  JsMap.get itemId (foldEvents events) = Some existing ->
  JsMap.get itemId (foldEvents (events ++ [ITEM_REMOVED itemId quantity timestamp]))
  = if quantity >=? item_quantity existing then None
    else Some (withQuantity existing (item_quantity existing - quantity)).
Proof.
  intros Hget. rewrite foldEvents_snoc. simpl. rewrite Hget.
  destruct (quantity >=? item_quantity existing).
  - apply get_delete_eq.
  - apply get_set_eq.
Qed.






(** ** Totals *)

Lemma sumItems_from items acc :
  fold_left (fun sum item => sum + item_price item * item_quantity item) items acc
  = acc + linesTotal items.
Proof.
  revert acc. induction items as [|it items IH]; intros acc; simpl.
  - lia.
  - rewrite IH. lia.
Qed.

Lemma sumItems_linesTotal items : sumItems items = linesTotal items.
Proof. unfold sumItems. rewrite sumItems_from. lia. Qed.

(** [Math.round x] is the integer [n] with [n <= x + 1/2 < n + 1]. *)
Lemma Math_round_nearest (x : Q) :
  (inject_Z (Math_round x) <= x + (1 # 2)
   /\ x + (1 # 2) < inject_Z (Math_round x + 1))%Q.
Proof. unfold Math_round. split; [apply Qfloor_le | apply Qlt_floor]. Qed.


(** ** What a method leaves unchanged *)

#[local] Instance sameLogs_preorder : PreOrder sameLogs.
Proof.
  split.
  - by intros w.
  - intros w1 w2 w3 [Hc1 H1] [Hc2 H2]. split; [congruence|].
    intros sid. by rewrite H2, H1.
Qed.

#[local] Instance backendUntouched_preorder : PreOrder backendUntouched.
Proof.
  split.
  - by intros w.
  - intros w1 w2 w3 (L1 & C1 & N1 & H1) (L2 & C2 & N2 & H2).
    split; [by etrans|]. repeat split; congruence.
Qed.

Lemma backendUntouched_sameLogs w w' : backendUntouched w w' -> sameLogs w w'.
Proof. by intros [H _]. Qed.

Lemma sameLogs_eventsOf w w' sessionId :
  sameLogs w w' -> eventsOf w' sessionId = eventsOf w sessionId.
Proof.
  intros [_ H]. specialize (H sessionId). unfold logOf, eventsOf in *.
  destruct (sessions w' !! sessionId), (sessions w !! sessionId);
    simpl in H; congruence.
Qed.

Section Frames.
Context (R : relation World) `{!PreOrder R}.

Lemma frame_ret {A} (a : A) : frame R (ret a).
Proof. intros w. reflexivity. Qed.

Lemma frame_throw {A} e : frame R (@throw A e).
Proof. intros w. reflexivity. Qed.

Lemma frame_bind {A B} (m : M A) (f : A -> M B) :
  frame R m -> (forall a, frame R (f a)) -> frame R (bind m f).
Proof.
  intros Hm Hf w. unfold bind. specialize (Hm w).
  destruct (m w) as [[a|e] w1]; simpl in *; [|done].
  etrans; [exact Hm|apply Hf].
Qed.

Lemma frame_tryCatch {A} (body : M A) handler :
  frame R body -> (forall e, frame R (handler e)) -> frame R (tryCatch body handler).
Proof.
  intros Hm Hh w. unfold tryCatch. specialize (Hm w).
  destruct (body w) as [[a|e] w1]; simpl in *; [done|].
  etrans; [exact Hm|apply Hh].
Qed.

Lemma frame_getWorld : frame R getWorld.
Proof. intros w. reflexivity. Qed.

Lemma frame_Date_now : frame R Date_now.
Proof. intros w. reflexivity. Qed.

Lemma frame_run {A} (m : M A) w r w' : frame R m -> m w = (r, w') -> R w w'.
Proof. intros Hm Hrun. specialize (Hm w). by rewrite Hrun in Hm. Qed.
End Frames.

Lemma frame_weaken (R R' : relation World) {A} (m : M A) :
  (forall w w', R w w' -> R' w w') -> frame R m -> frame R' m.
Proof. intros Hsub Hm w. apply Hsub, Hm. Qed.

Create HintDb frames.

Ltac frame_step :=
  first
    [ solve [eauto with frames]
    | apply frame_ret; typeclasses eauto
    | apply frame_throw; typeclasses eauto
    | apply frame_getWorld; typeclasses eauto
    | apply frame_Date_now; typeclasses eauto
    | apply frame_bind; [typeclasses eauto| |intros ?]
    | apply frame_tryCatch; [typeclasses eauto| |intros ?]
    | match goal with
      | |- frame _ (match ?x with _ => _ end) => destruct x
      | |- frame _ (let _ := _ in _) => cbv zeta
      end ].

Ltac frames := repeat frame_step.

(** *** The state manager *)

Lemma getSession_missing sessionId w :
  sessions w !! sessionId = None ->
  CartStateManager.getSession sessionId w = (Throw (SessionNotFoundError sessionId), w).
Proof.
  intros H. unfold CartStateManager.getSession, bind, getWorld. simpl. by rewrite H.
Qed.

Lemma getSession_found sessionId w s :
  sessions w !! sessionId = Some s ->
  CartStateManager.getSession sessionId w
  = (Ok (touched s (clock w)),
     withSessions w (<[sessionId := touched s (clock w)]> (sessions w))).
Proof.
  intros H. unfold CartStateManager.getSession, bind, getWorld. simpl. by rewrite H.
Qed.

Lemma logOf_insert w ss sessionId s sid' :
  logOf (withSessions w (<[sessionId := s]> ss)) sid'
  = if decide (sessionId = sid') then Some (sess_events s, sess_checkedOut s)
    else (fun s => (sess_events s, sess_checkedOut s)) <$> ss !! sid'.
Proof.
  unfold logOf. simpl. rewrite lookup_insert. by destruct (decide (sessionId = sid')).
Qed.

Lemma handleOf_insert w ss sessionId s sid' :
  handleOf (withSessions w (<[sessionId := s]> ss)) sid'
  = if decide (sessionId = sid') then Some (sess_sfContextId s)
    else sess_sfContextId <$> ss !! sid'.
Proof.
  unfold handleOf. simpl. rewrite lookup_insert. by destruct (decide (sessionId = sid')).
Qed.

Lemma frame_getSession sessionId :
  frame backendUntouched (CartStateManager.getSession sessionId).
Proof.
  intros w. destruct (sessions w !! sessionId) as [s|] eqn:Hs.
  - rewrite (getSession_found _ _ _ Hs). simpl.
    repeat split; simpl; try done; intros sid.
    + rewrite logOf_insert. destruct (decide (sessionId = sid)) as [<-|]; [|done].
      unfold logOf. by rewrite Hs.
    + rewrite handleOf_insert. destruct (decide (sessionId = sid)) as [<-|]; [|done].
      unfold handleOf. by rewrite Hs.
  - rewrite (getSession_missing _ _ Hs). reflexivity.
Qed.
#[local] Hint Resolve frame_getSession : frames.

Lemma frame_isCheckedOut sessionId :
  frame backendUntouched (CartStateManager.isCheckedOut sessionId).
Proof. unfold CartStateManager.isCheckedOut. frames. Qed.

Lemma frame_getEvents sessionId :
  frame backendUntouched (CartStateManager.getEvents sessionId).
Proof. unfold CartStateManager.getEvents. frames. Qed.
#[local] Hint Resolve frame_isCheckedOut frame_getEvents : frames.

Lemma frame_getCart cfg sessionId :
  frame backendUntouched (CartService.getCart cfg sessionId).
Proof. unfold CartService.getCart. frames. Qed.

Lemma frame_validateAddItemRequest request :
  frame backendUntouched (CartService.validateAddItemRequest request).
Proof.
  unfold CartService.validateAddItemRequest.
  repeat match goal with |- context [if ?b then _ else _] => destruct b end; frames.
Qed.
#[local] Hint Resolve frame_getCart frame_validateAddItemRequest : frames.

Lemma frame_untouched_sameLogs {A} (m : M A) :
  frame backendUntouched m -> frame sameLogs m.
Proof. apply frame_weaken, backendUntouched_sameLogs. Qed.

#[local] Hint Extern 5 (frame sameLogs _) =>
  apply frame_untouched_sameLogs; solve [eauto with frames] : frames.

Lemma updateSfContextId_found sessionId sfContextId w s :
  sessions w !! sessionId = Some s ->
  CartStateManager.updateSfContextId sessionId sfContextId w
  = (Ok tt,
     withSessions w
       (<[sessionId :=
            {| sess_sessionId := sess_sessionId s;
               sess_sfContextId := Some sfContextId;
               sess_lastActivity := clock w;
               sess_events := sess_events s;
               sess_checkedOut := sess_checkedOut s |}]> (sessions w))).
Proof.
  intros H. unfold CartStateManager.updateSfContextId, bind.
  rewrite (getSession_found _ _ _ H). unfold CartStateManager.putSession. simpl.
  by rewrite insert_insert_eq.
Qed.

Lemma updateSfContextId_missing sessionId sfContextId w :
  sessions w !! sessionId = None ->
  CartStateManager.updateSfContextId sessionId sfContextId w
  = (Throw (SessionNotFoundError sessionId), w).
Proof.
  intros H. unfold CartStateManager.updateSfContextId, bind.
  by rewrite (getSession_missing _ _ H).
Qed.

Lemma frame_updateSfContextId sessionId sfContextId :
  frame sameLogs (CartStateManager.updateSfContextId sessionId sfContextId).
Proof.
  intros w. destruct (sessions w !! sessionId) as [s|] eqn:Hs.
  - rewrite (updateSfContextId_found _ _ _ _ Hs). split; [done|]. intros sid.
    simpl. rewrite logOf_insert. destruct (decide (sessionId = sid)) as [<-|]; [|done].
    unfold logOf. by rewrite Hs.
  - rewrite (updateSfContextId_missing _ _ _ Hs). reflexivity.
Qed.

Lemma frame_nanoid : frame sameLogs nanoid.
Proof. by intros w. Qed.

Lemma frame_putContext contextId context :
  frame sameLogs (SalesforceCartClient.putContext contextId context).
Proof. by intros w. Qed.

Lemma frame_dropContext contextId :
  frame sameLogs (SalesforceCartClient.dropContext contextId).
Proof. by intros w. Qed.
#[local] Hint Resolve frame_updateSfContextId frame_nanoid frame_putContext
  frame_dropContext : frames.

Lemma frame_createContext : frame sameLogs SalesforceCartClient.createContext.
Proof. unfold SalesforceCartClient.createContext. frames. Qed.

Lemma frame_getValidContext cfg contextId :
  frame sameLogs (SalesforceCartClient.getValidContext cfg contextId).
Proof. unfold SalesforceCartClient.getValidContext. frames. Qed.

Lemma frame_touch contextId context items :
  frame sameLogs (SalesforceCartClient.touch contextId context items).
Proof. unfold SalesforceCartClient.touch. frames. Qed.
#[local] Hint Resolve frame_createContext frame_getValidContext frame_touch : frames.

Lemma frame_sf_addItem cfg contextId item :
  frame sameLogs (SalesforceCartClient.addItem cfg contextId item).
Proof. unfold SalesforceCartClient.addItem. frames. Qed.

Lemma frame_sf_removeItem cfg contextId itemId quantity :
  frame sameLogs (SalesforceCartClient.removeItem cfg contextId itemId quantity).
Proof. unfold SalesforceCartClient.removeItem. frames. Qed.

Lemma frame_sf_updateItem cfg contextId itemId quantity :
  frame sameLogs (SalesforceCartClient.updateItem cfg contextId itemId quantity).
Proof. unfold SalesforceCartClient.updateItem. frames. Qed.

Lemma frame_sf_checkout cfg contextId sessionId :
  frame sameLogs (SalesforceCartClient.checkout cfg contextId sessionId).
Proof. unfold SalesforceCartClient.checkout. frames. Qed.
#[local] Hint Resolve frame_sf_addItem frame_sf_removeItem frame_sf_updateItem
  frame_sf_checkout : frames.

Lemma frame_ensureSfContext sessionId :
  frame sameLogs (CartService.ensureSfContext sessionId).
Proof. unfold CartService.ensureSfContext. frames. Qed.

Lemma frame_replayEvent cfg newContextId event :
  frame sameLogs (CartService.replayEvent cfg newContextId event).
Proof. unfold CartService.replayEvent. frames. Qed.
#[local] Hint Resolve frame_ensureSfContext frame_replayEvent : frames.

Lemma frame_replayLoop cfg newContextId events :
  frame sameLogs (CartService.replayLoop cfg newContextId events).
Proof. induction events as [|ev events IH]; simpl; frames. Qed.
#[local] Hint Resolve frame_replayLoop : frames.

Lemma frame_replayEvents cfg sessionId :
  frame sameLogs (CartService.replayEvents cfg sessionId).
Proof. unfold CartService.replayEvents. frames. Qed.
#[local] Hint Resolve frame_replayEvents : frames.

(** The recovery-wrapped call changes no log when the operation changes none. *)
Lemma frame_executeWithReplay cfg {A} sessionId (operation : M A) :
  frame sameLogs operation ->
  frame sameLogs (CartService.executeWithReplay cfg sessionId operation).
Proof. intros Hop. unfold CartService.executeWithReplay. frames. Qed.

Lemma frame_backendAdd cfg sessionId item :
  frame sameLogs (CartService.backendAdd cfg sessionId item).
Proof. unfold CartService.backendAdd. frames. Qed.

Lemma frame_backendRemove cfg sessionId itemId quantity :
  frame sameLogs (CartService.backendRemove cfg sessionId itemId quantity).
Proof. unfold CartService.backendRemove. frames. Qed.

Lemma frame_backendUpdate cfg sessionId itemId quantity :
  frame sameLogs (CartService.backendUpdate cfg sessionId itemId quantity).
Proof. unfold CartService.backendUpdate. frames. Qed.

Lemma frame_backendCheckout cfg sessionId :
  frame sameLogs (CartService.backendCheckout cfg sessionId).
Proof. unfold CartService.backendCheckout. frames. Qed.
#[local] Hint Resolve frame_executeWithReplay frame_backendAdd frame_backendRemove
  frame_backendUpdate frame_backendCheckout : frames.

(** *** Reading and writing one session *)

Lemma logOf_Some w sessionId events checkedOut :
  logOf w sessionId = Some (events, checkedOut) <->
  exists s, sessions w !! sessionId = Some s
            /\ sess_events s = events /\ sess_checkedOut s = checkedOut.
Proof.
  unfold logOf. destruct (sessions w !! sessionId) as [s|]; simpl; split.
  - intros [= <- <-]. eauto.
  - intros (s' & [= <-] & <- & <-). done.
  - done.
  - by intros (s' & ? & _).
Qed.

Lemma logOf_None w sessionId :
  logOf w sessionId = None <-> sessions w !! sessionId = None.
Proof. unfold logOf. by destruct (sessions w !! sessionId). Qed.

Lemma eventsOf_logOf w sessionId events checkedOut :
  logOf w sessionId = Some (events, checkedOut) -> eventsOf w sessionId = events.
Proof.
  intros (s & Hs & <- & _)%logOf_Some. unfold eventsOf. by rewrite Hs.
Qed.

Lemma isCheckedOut_ok sessionId w events checkedOut :
  logOf w sessionId = Some (events, checkedOut) ->
  exists w', CartStateManager.isCheckedOut sessionId w = (Ok checkedOut, w')
             /\ backendUntouched w w'.
Proof.
  intros (s & Hs & _ & <-)%logOf_Some.
  pose proof (frame_isCheckedOut sessionId w) as Hf.
  unfold CartStateManager.isCheckedOut, bind in *.
  rewrite (getSession_found _ _ _ Hs) in *. simpl in *. eauto.
Qed.

Lemma isCheckedOut_missing sessionId w :
  logOf w sessionId = None ->
  CartStateManager.isCheckedOut sessionId w
  = (Throw (SessionNotFoundError sessionId), w).
Proof.
  intros Hs%logOf_None. unfold CartStateManager.isCheckedOut, bind.
  by rewrite (getSession_missing _ _ Hs).
Qed.

Lemma getEvents_ok sessionId w events checkedOut :
  logOf w sessionId = Some (events, checkedOut) ->
  exists w', CartStateManager.getEvents sessionId w = (Ok events, w')
             /\ backendUntouched w w'.
Proof.
  intros (s & Hs & <- & _)%logOf_Some.
  pose proof (frame_getEvents sessionId w) as Hf.
  unfold CartStateManager.getEvents, bind in *.
  rewrite (getSession_found _ _ _ Hs) in *. simpl in *. eauto.
Qed.

Lemma getCart_ok cfg sessionId w events checkedOut :
  logOf w sessionId = Some (events, checkedOut) ->
  exists w',
    CartService.getCart cfg sessionId w
    = (Ok (CartStateManager.buildCartFromEvents cfg sessionId events), w')
    /\ backendUntouched w w'.
Proof.
  intros Hlog. pose proof (frame_getCart cfg sessionId w) as Hf.
  unfold CartService.getCart, bind in *.
  destruct (proj1 (logOf_Some _ _ _ _) Hlog) as (s & Hs & _ & _).
  rewrite (getSession_found _ _ _ Hs) in *.
  set (w1 := withSessions w _) in *.
  assert (Hlog1 : logOf w1 sessionId = Some (events, checkedOut)).
  { pose proof (frame_getSession sessionId w) as [[_ H] _].
    rewrite (getSession_found _ _ _ Hs) in H. simpl in H. by rewrite H. }
  destruct (getEvents_ok _ _ _ _ Hlog1) as (w2 & Hev & _).
  rewrite Hev in *. simpl in *. eauto.
Qed.

Lemma getCart_missing cfg sessionId w :
  logOf w sessionId = None ->
  CartService.getCart cfg sessionId w = (Throw (SessionNotFoundError sessionId), w).
Proof.
  intros Hs%logOf_None. unfold CartService.getCart, bind.
  by rewrite (getSession_missing _ _ Hs).
Qed.

Lemma appendEvent_ok sessionId event w events checkedOut :
  logOf w sessionId = Some (events, checkedOut) ->
  exists w',
    CartStateManager.appendEvent sessionId event w = (Ok tt, w')
    /\ logOf w' sessionId = Some (events ++ [event], checkedOut)
    /\ onlySession sessionId w w'.
Proof.
  intros (s & Hs & <- & <-)%logOf_Some.
  unfold CartStateManager.appendEvent, bind.
  rewrite (getSession_found _ _ _ Hs). simpl.
  eexists. split; [reflexivity|]. split; [|repeat split]; simpl.
  - unfold logOf. simpl. by rewrite insert_insert_eq, lookup_insert_eq.
  - intros other Hne. unfold logOf. simpl.
    by rewrite insert_insert_eq, lookup_insert_ne.
  - intros other. unfold handleOf. simpl. rewrite insert_insert_eq.
    destruct (decide (sessionId = other)) as [<-|Hne].
    + by rewrite lookup_insert_eq, Hs.
    + by rewrite lookup_insert_ne.
Qed.

Lemma markCheckedOut_ok sessionId w events checkedOut :
  logOf w sessionId = Some (events, checkedOut) ->
  exists w',
    CartStateManager.markCheckedOut sessionId w = (Ok tt, w')
    /\ logOf w' sessionId = Some (events, true)
    /\ onlySession sessionId w w'.
Proof.
  intros (s & Hs & <- & <-)%logOf_Some.
  unfold CartStateManager.markCheckedOut, bind.
  rewrite (getSession_found _ _ _ Hs). simpl.
  eexists. split; [reflexivity|]. split; [|repeat split]; simpl.
  - unfold logOf. simpl. by rewrite insert_insert_eq, lookup_insert_eq.
  - intros other Hne. unfold logOf. simpl.
    by rewrite insert_insert_eq, lookup_insert_ne.
  - intros other. unfold handleOf. simpl. rewrite insert_insert_eq.
    destruct (decide (sessionId = other)) as [<-|Hne].
    + by rewrite lookup_insert_eq, Hs.
    + by rewrite lookup_insert_ne.
Qed.

Lemma sameLogs_logOf w w' sessionId :
  sameLogs w w' -> logOf w' sessionId = logOf w sessionId.
Proof. by intros [_ H]. Qed.

Lemma untouched_logOf w w' sessionId :
  backendUntouched w w' -> logOf w' sessionId = logOf w sessionId.
Proof. by intros [[_ H] _]. Qed.

Lemma untouched_clock w w' : backendUntouched w w' -> clock w' = clock w.
Proof. by intros [[H _] _]. Qed.

(** *** The part common to [addItem], [removeItem] and [updateItem]: the
    recovery-wrapped backend call, then the append, then the projection. *)

Lemma mutateThenRecord_outcome cfg sessionId mutation event w events checkedOut :
  frame sameLogs mutation ->
  logOf w sessionId = Some (events, checkedOut) ->
  match CartService.executeWithReplay cfg sessionId mutation w with
  | (Ok _, w1) =>
      exists w',
        mutateThenRecord cfg sessionId mutation event w
        = (Ok (CartStateManager.buildCartFromEvents cfg sessionId
                 (events ++ [event (clock w)])), w')
        /\ logOf w' sessionId = Some (events ++ [event (clock w)], checkedOut)
        /\ onlySession sessionId w1 w'
  | (Throw e, w1) =>
      mutateThenRecord cfg sessionId mutation event w = (Throw e, w1)
      /\ logOf w1 sessionId = Some (events, checkedOut)
  end.
Proof.
  intros Hmut Hlog.
  pose proof (frame_executeWithReplay cfg sessionId mutation Hmut w) as Hf.
  unfold mutateThenRecord, bind.
  destruct (CartService.executeWithReplay cfg sessionId mutation w)
    as [[[]|e] w1]; simpl in Hf.
  - destruct Hf as [Hclock Hlogs]. unfold Date_now. rewrite Hclock.
    assert (Hlog1 : logOf w1 sessionId = Some (events, checkedOut))
      by (by rewrite Hlogs).
    destruct (appendEvent_ok sessionId (event (clock w)) _ _ _ Hlog1)
      as (w2 & -> & Hlog2 & Honly).
    destruct (getCart_ok cfg _ _ _ _ Hlog2) as (w3 & -> & Hun).
    exists w3. split; [done|]. split.
    + by rewrite (untouched_logOf _ _ _ Hun).
    + destruct Honly as (O1 & O2 & O3 & O4 & O5).
      destruct Hun as ([U0 U1] & U2 & U3 & U4).
      split; [|repeat split; congruence].
      intros other Hne. by rewrite U1, O1.
  - split; [done|]. by rewrite (sameLogs_logOf _ _ _ Hf).
Qed.

(** *** The checks that come before the backend call *)

Lemma validateAddItemRequest_eq request w :
  CartService.validateAddItemRequest request w
  = match validationError (OpAddItem request) with
    | Some message => (Throw (InvalidQuantityError message), w)
    | None => (Ok tt, w)
    end.
Proof.
  unfold CartService.validateAddItemRequest, validationError.
  repeat match goal with |- context [if ?b then _ else _] => destruct b end; done.
Qed.

Lemma precheck_mutation_frame cfg sessionId op log mutation event :
  precheck cfg sessionId op log = inr (mutation, event) -> frame sameLogs mutation.
Proof.
  unfold precheck. destruct (validationError op); [done|].
  destruct log as [[events []]|]; try done.
  destruct op as [request|itemId quantity|itemId quantity].
  - intros [= <- _]. eauto with frames.
  - destruct (JsMap.get itemId (foldEvents events)); [|done].
    intros [= <- _]. eauto with frames.
  - destruct (JsMap.get itemId (foldEvents events)); [|done].
    intros [= <- _]. eauto with frames.
Qed.

(** Every call is its checks, which do not touch the backend, followed, when
    they pass, by the recovery-wrapped mutation and the append. *)
Lemma perform_precheck cfg sessionId op w :
  exists w0,
    backendUntouched w w0
    /\ perform cfg sessionId op w
       = match precheck cfg sessionId op (logOf w sessionId) with
         | inl e => (Throw e, w0)
         | inr (mutation, event) =>
             mutateThenRecord cfg sessionId mutation event w0
         end.
Proof.
  unfold precheck.
  destruct op as [request|itemId quantity|itemId quantity]; simpl perform.
  - unfold CartService.addItem, bind at 1. rewrite validateAddItemRequest_eq.
    destruct (validationError (OpAddItem request)) as [msg|].
    { exists w. split; [reflexivity|done]. }
    unfold bind at 1.
    destruct (logOf w sessionId) as [[events co]|] eqn:Hlog.
    + destruct (isCheckedOut_ok _ _ _ _ Hlog) as (w0 & -> & Hun).
      exists w0. split; [done|]. by destruct co.
    + rewrite (isCheckedOut_missing _ _ Hlog). exists w. split; [reflexivity|done].
  - unfold CartService.removeItem, bind at 1.
    assert (Hval :
      (match quantity with
       | Some q => if q <=? 0
                   then throw (InvalidQuantityError "Quantity must be positive")
                   else ret tt
       | None => ret tt
       end) w
      = match validationError (OpRemoveItem itemId quantity) with
        | Some message => (Throw (InvalidQuantityError message), w)
        | None => (Ok tt, w)
        end).
    { simpl. destruct quantity as [q|]; [|done]. by destruct (q <=? 0). }
    rewrite Hval. clear Hval.
    destruct (validationError (OpRemoveItem itemId quantity)) as [msg|].
    { exists w. split; [reflexivity|done]. }
    unfold bind at 1.
    destruct (logOf w sessionId) as [[events co]|] eqn:Hlog.
    + destruct (isCheckedOut_ok _ _ _ _ Hlog) as (w0 & -> & Hun).
      destruct co; [exists w0; by split|].
      unfold bind at 1.
      assert (Hlog0 : logOf w0 sessionId = Some (events, false))
        by (by rewrite (untouched_logOf _ _ _ Hun)).
      destruct (getCart_ok cfg _ _ _ _ Hlog0) as (w1 & -> & Hun1).
      exists w1. split; [by etrans|]. rewrite findItem_build.
      by destruct (JsMap.get itemId (foldEvents events)).
    + rewrite (isCheckedOut_missing _ _ Hlog). exists w. split; [reflexivity|done].
  - unfold CartService.updateItem, bind at 1.
    assert (Hval :
      (if quantity <=? 0
       then throw (InvalidQuantityError "Quantity must be positive")
       else ret tt) w
      = match validationError (OpUpdateItem itemId quantity) with
        | Some message => (Throw (InvalidQuantityError message), w)
        | None => (Ok tt, w)
        end).
    { simpl. by destruct (quantity <=? 0). }
    rewrite Hval. clear Hval.
    destruct (validationError (OpUpdateItem itemId quantity)) as [msg|].
    { exists w. split; [reflexivity|done]. }
    unfold bind at 1.
    destruct (logOf w sessionId) as [[events co]|] eqn:Hlog.
    + destruct (isCheckedOut_ok _ _ _ _ Hlog) as (w0 & -> & Hun).
      destruct co; [exists w0; by split|].
      unfold bind at 1.
      assert (Hlog0 : logOf w0 sessionId = Some (events, false))
        by (by rewrite (untouched_logOf _ _ _ Hun)).
      destruct (getCart_ok cfg _ _ _ _ Hlog0) as (w1 & -> & Hun1).
      exists w1. split; [by etrans|]. rewrite findItem_build.
      by destruct (JsMap.get itemId (foldEvents events)).
    + rewrite (isCheckedOut_missing _ _ Hlog). exists w. split; [reflexivity|done].
Qed.

(** ** The recovery-wrapped call *)

Lemma createContext_eq w :
  SalesforceCartClient.createContext w
  = (Ok (nextHandle w),
     {| sessions := sessions w;
        contexts := <[nextHandle w := freshContext (nextHandle w) (clock w)]> (contexts w);
        clock := clock w;
        nanoSeed := S (nanoSeed w) |}).
Proof. reflexivity. Qed.

(** [replayEvents] issues one new handle, stores it in the session, and walks
    the whole log of the session once against it. *)
Lemma replayEvents_unfold cfg sessionId w events checkedOut :
  logOf w sessionId = Some (events, checkedOut) ->
  exists w',
    CartService.replayEvents cfg sessionId w
    = CartService.replayLoop cfg (nextHandle w) events w'
    /\ handleOf w' sessionId = Some (Some (nextHandle w))
    /\ sessions w' !! sessionId
       = (fun s => {| sess_sessionId := sess_sessionId s;
                      sess_sfContextId := Some (nextHandle w);
                      sess_lastActivity := clock w;
                      sess_events := sess_events s;
                      sess_checkedOut := sess_checkedOut s |})
         <$> sessions w !! sessionId
    /\ contexts w'
       = <[nextHandle w := freshContext (nextHandle w) (clock w)]> (contexts w)
    /\ nanoSeed w' = S (nanoSeed w)
    /\ sameLogs w w'.
Proof.
  intros (s & Hs & <- & <-)%logOf_Some.
  unfold CartService.replayEvents, bind at 1. rewrite createContext_eq.
  set (w1 := {| sessions := sessions w; contexts := _; clock := _; nanoSeed := _ |}).
  unfold bind at 1.
  rewrite (updateSfContextId_found sessionId (nextHandle w) w1 s Hs).
  set (s1 := {| sess_sessionId := _; sess_sfContextId := _; sess_lastActivity := _;
                sess_events := _; sess_checkedOut := _ |}).
  set (w2 := withSessions w1 _).
  assert (Hs2 : sessions w2 !! sessionId = Some s1) by apply lookup_insert_eq.
  unfold bind at 1, CartStateManager.getEvents, bind at 1.
  rewrite (getSession_found _ _ _ Hs2). simpl.
  eexists. split; [reflexivity|]. simpl. repeat split.
  - unfold handleOf. simpl. by rewrite insert_insert_eq, lookup_insert_eq.
  - by rewrite insert_insert_eq, lookup_insert_eq, Hs.
  - intros sid. unfold logOf. simpl. rewrite insert_insert_eq.
    destruct (decide (sessionId = sid)) as [<-|Hne].
    + by rewrite lookup_insert_eq, Hs.
    + by rewrite lookup_insert_ne.
Qed.

(** After a context-expired error the wrapper replays and runs the operation
    once more; what that run returns is what the wrapper returns. *)
Lemma executeWithReplay_expired cfg {A} sessionId (operation : M A) w contextId w1 :
  operation w = (Throw (ContextExpiredError contextId), w1) ->
  CartService.executeWithReplay cfg sessionId operation w
  = (CartService.replayEvents cfg sessionId ;; operation)%method w1.
Proof.
  intros Hexpired. unfold CartService.executeWithReplay, tryCatch.
  by rewrite Hexpired.
Qed.

Lemma executeWithReplay_retry cfg {A} sessionId (operation : M A) w contextId w1 w2 :
  operation w = (Throw (ContextExpiredError contextId), w1) ->
  CartService.replayEvents cfg sessionId w1 = (Ok tt, w2) ->
  CartService.executeWithReplay cfg sessionId operation w = operation w2.
Proof.
  intros Hexpired Hreplay. rewrite (executeWithReplay_expired _ _ _ _ _ _ Hexpired).
  unfold bind. by rewrite Hreplay.
Qed.



(** A retry that fails is final. With a TTL of -1 every context has expired
    by the time it is used: [addItem] on a new session creates [sf_1], fails,
    replays into [sf_2], fails again, and the caller gets the second
    context-expired error; no third context is created and nothing is
    logged. *)
Example second_expiry_reaches_caller :
  let cfg := {| SF_CONTEXT_TTL_MS := -1;
                MAX_SESSION_AGE_MS := 24 * 60 * 60 * 1000;
                TAX_RATE := 1 # 10 |} in
  let outcome :=
    CartService.addItem cfg "exp_0" requestPhone
      (snd (CartService.createSession cfg emptyWorld)) in
  fst outcome = Throw (ContextExpiredError "sf_2")
  /\ eventsOf (snd outcome) "exp_0" = []
  /\ nanoSeed (snd outcome) = 3%nat.
Proof. vm_compute. done. Qed.

(** The other two ways through the wrapper. *)
Lemma executeWithReplay_first_attempt_ok cfg {A} sessionId (operation : M A) w a w1 :
  operation w = (Ok a, w1) ->
  CartService.executeWithReplay cfg sessionId operation w = (Ok a, w1).
Proof. intros H. unfold CartService.executeWithReplay, tryCatch. by rewrite H. Qed.

Lemma executeWithReplay_other_error cfg {A} sessionId (operation : M A) w e w1 :
  operation w = (Throw e, w1) -> isContextExpired e = false ->
  CartService.executeWithReplay cfg sessionId operation w = (Throw e, w1).
Proof.
  intros H He. unfold CartService.executeWithReplay, tryCatch. by rewrite H, He.
Qed.

(** ** Errors during replay *)



(** ** Checkout and completed sessions *)

Lemma checkout_missing cfg sessionId w :
  logOf w sessionId = None ->
  CartService.checkout cfg sessionId w = (Throw (SessionNotFoundError sessionId), w).
Proof.
  intros Hlog. unfold CartService.checkout, bind.
  by rewrite (isCheckedOut_missing _ _ Hlog).
Qed.

Lemma checkout_completed cfg sessionId w events :
  logOf w sessionId = Some (events, true) ->
  exists w',
    CartService.checkout cfg sessionId w = (Throw (SessionCompletedError sessionId), w')
    /\ backendUntouched w w'.
Proof.
  intros Hlog. unfold CartService.checkout, bind.
  destruct (isCheckedOut_ok _ _ _ _ Hlog) as (w0 & -> & Hun). eauto.
Qed.

Lemma checkout_empty cfg sessionId w events :
  logOf w sessionId = Some (events, false) ->
  cart_items (CartStateManager.buildCartFromEvents cfg sessionId events) = [] ->
  exists w',
    CartService.checkout cfg sessionId w = (Throw EmptyCartError, w')
    /\ backendUntouched w w'.
Proof.
  intros Hlog Hempty. unfold CartService.checkout, bind.
  destruct (isCheckedOut_ok _ _ _ _ Hlog) as (w0 & -> & Hun).
  assert (Hlog0 : logOf w0 sessionId = Some (events, false))
    by (by rewrite (untouched_logOf _ _ _ Hun)).
  destruct (getCart_ok cfg _ _ _ _ Hlog0) as (w1 & -> & Hun1).
  rewrite Hempty. exists w1. split; [done|by etrans].
Qed.

Lemma checkout_nonempty cfg sessionId w events :
  logOf w sessionId = Some (events, false) ->
  cart_items (CartStateManager.buildCartFromEvents cfg sessionId events) <> [] ->
  exists w0,
    backendUntouched w w0
    /\ match CartService.executeWithReplay cfg sessionId
               (CartService.backendCheckout cfg sessionId) w0 with
       | (Ok orderId, w1) =>
           exists w',
             CartService.checkout cfg sessionId w
             = (Ok {| co_orderId := orderId;
                      co_cart := CartStateManager.buildCartFromEvents cfg
                                   sessionId events |}, w')
             /\ logOf w' sessionId = Some (events, true)
             /\ onlySession sessionId w1 w'
       | (Throw e, w1) =>
           CartService.checkout cfg sessionId w = (Throw e, w1)
           /\ logOf w1 sessionId = Some (events, false)
       end.
Proof.
  intros Hlog Hitems. unfold CartService.checkout, bind.
  destruct (isCheckedOut_ok _ _ _ _ Hlog) as (w0 & -> & Hun).
  assert (Hlog0 : logOf w0 sessionId = Some (events, false))
    by (by rewrite (untouched_logOf _ _ _ Hun)).
  destruct (getCart_ok cfg _ _ _ _ Hlog0) as (w1 & -> & Hun1).
  exists w1. split; [by etrans|].
  destruct (cart_items _) as [|item items] eqn:Hcart; [done|].
  assert (Hlog1 : logOf w1 sessionId = Some (events, false))
    by (by rewrite (untouched_logOf _ _ _ Hun1)).
  pose proof (frame_executeWithReplay cfg sessionId
                (CartService.backendCheckout cfg sessionId)
                (frame_backendCheckout cfg sessionId) w1) as Hf.
  destruct (CartService.executeWithReplay cfg sessionId
              (CartService.backendCheckout cfg sessionId) w1)
    as [[orderId|e] w2]; simpl in Hf.
  - assert (Hlog2 : logOf w2 sessionId = Some (events, false))
      by (by rewrite (sameLogs_logOf _ _ _ Hf)).
    destruct (markCheckedOut_ok _ _ _ _ Hlog2) as (w3 & -> & Hlog3 & Honly).
    exists w3. split; [done|]. by split.
  - split; [done|]. by rewrite (sameLogs_logOf _ _ _ Hf).
Qed.

(** What [checkout] does to the log and the flag, whatever the backend does. *)
Lemma checkout_log cfg sessionId w r w' :
  CartService.checkout cfg sessionId w = (r, w') ->
  match r with
  | Ok result =>
      exists events,
        logOf w sessionId = Some (events, false)
        /\ logOf w' sessionId = Some (events, true)
        /\ cart_items (co_cart result) <> []
        /\ co_cart result = CartStateManager.buildCartFromEvents cfg sessionId events
  | Throw _ => logOf w' sessionId = logOf w sessionId
  end.
Proof.
  intros Hrun. destruct (logOf w sessionId) as [[events co]|] eqn:Hlog.
  - destruct co.
    + destruct (checkout_completed cfg _ _ _ Hlog) as (w1 & H1 & Hun).
      rewrite H1 in Hrun. injection Hrun as <- <-.
      by rewrite (untouched_logOf _ _ _ Hun).
    + destruct (cart_items (CartStateManager.buildCartFromEvents cfg sessionId events))
        as [|item items] eqn:Hitems.
      * destruct (checkout_empty cfg _ _ _ Hlog Hitems) as (w1 & H1 & Hun).
        rewrite H1 in Hrun. injection Hrun as <- <-.
        by rewrite (untouched_logOf _ _ _ Hun).
      * destruct (checkout_nonempty cfg sessionId w events Hlog) as (w0 & Hun & Hout).
        { by rewrite Hitems. }
        destruct (CartService.executeWithReplay cfg sessionId
                    (CartService.backendCheckout cfg sessionId) w0)
          as [[orderId|e] w1].
        -- destruct Hout as (w2 & H2 & Hlog2 & _). rewrite H2 in Hrun.
           injection Hrun as <- <-. exists events. cbn [co_cart].
           by rewrite Hitems.
        -- destruct Hout as [H2 Hlog2]. rewrite H2 in Hrun.
           injection Hrun as <- <-. done.
  - rewrite (checkout_missing _ _ _ Hlog) in Hrun. injection Hrun as <- <-. done.
Qed.

(** What a client call does to the log and the flag. *)
Lemma perform_log cfg sessionId op w r w' :
  perform cfg sessionId op w = (r, w') ->
  match r with
  | Ok cart =>
      exists events event,
        logOf w sessionId = Some (events, false)
        /\ logOf w' sessionId = Some (events ++ [event], false)
        /\ cart = CartStateManager.buildCartFromEvents cfg sessionId
                    (events ++ [event])
  | Throw _ => logOf w' sessionId = logOf w sessionId
  end.
Proof.
  intros Hrun.
  destruct (perform_precheck cfg sessionId op w) as (w0 & Hun & Hperform).
  rewrite Hrun in Hperform.
  destruct (precheck cfg sessionId op (logOf w sessionId))
    as [e|[mutation event]] eqn:Hpre.
  - injection Hperform as -> ->. by rewrite (untouched_logOf _ _ _ Hun).
  - assert (Hframe := precheck_mutation_frame _ _ _ _ _ _ Hpre).
    unfold precheck in Hpre. destruct (validationError op); [done|].
    destruct (logOf w sessionId) as [[events co]|] eqn:Hlog; [|done].
    destruct co; [done|].
    assert (Hlog0 : logOf w0 sessionId = Some (events, false))
      by (by rewrite (untouched_logOf _ _ _ Hun)).
    pose proof (mutateThenRecord_outcome cfg sessionId mutation event w0
                  events false Hframe Hlog0) as Hout.
    destruct (CartService.executeWithReplay cfg sessionId mutation w0)
      as [[[]|e] w1].
    + destruct Hout as (w2 & H2 & Hlog2 & _). rewrite H2 in Hperform.
      injection Hperform as -> ->. eauto.
    + destruct Hout as [H2 Hlog2]. rewrite H2 in Hperform.
      injection Hperform as -> ->. done.
Qed.

(** *** Calls on one session leave the other sessions alone *)

#[local] Instance othersSame_preorder sessionId : PreOrder (othersSame sessionId).
Proof.
  split.
  - by intros w other _.
  - intros w1 w2 w3 H1 H2 other Hne. by rewrite H2, H1.
Qed.

Lemma frame_sameLogs_others sessionId {A} (m : M A) :
  frame sameLogs m -> frame (othersSame sessionId) m.
Proof. apply frame_weaken. intros w w' [_ H] other _. apply H. Qed.

#[local] Hint Extern 6 (frame (othersSame _) _) =>
  apply frame_sameLogs_others; solve [eauto with frames] : frames.

Lemma frame_appendEvent sessionId event :
  frame (othersSame sessionId) (CartStateManager.appendEvent sessionId event).
Proof.
  intros w. destruct (logOf w sessionId) as [[events co]|] eqn:Hlog.
  - destruct (appendEvent_ok sessionId event _ _ _ Hlog) as (w' & -> & _ & Ho & _).
    exact Ho.
  - apply logOf_None in Hlog. unfold CartStateManager.appendEvent, bind.
    rewrite (getSession_missing _ _ Hlog). reflexivity.
Qed.

Lemma frame_markCheckedOut sessionId :
  frame (othersSame sessionId) (CartStateManager.markCheckedOut sessionId).
Proof.
  intros w. destruct (logOf w sessionId) as [[events co]|] eqn:Hlog.
  - destruct (markCheckedOut_ok sessionId _ _ _ Hlog) as (w' & -> & _ & Ho & _).
    exact Ho.
  - apply logOf_None in Hlog. unfold CartStateManager.markCheckedOut, bind.
    rewrite (getSession_missing _ _ Hlog). reflexivity.
Qed.
#[local] Hint Resolve frame_appendEvent frame_markCheckedOut : frames.

Lemma frame_perform_others cfg sessionId op :
  frame (othersSame sessionId) (perform cfg sessionId op).
Proof.
  destruct op as [request|itemId quantity|itemId quantity]; simpl.
  - unfold CartService.addItem. frames.
  - unfold CartService.removeItem. frames.
  - unfold CartService.updateItem. frames.
Qed.

Lemma frame_checkout_others cfg sessionId :
  frame (othersSame sessionId) (CartService.checkout cfg sessionId).
Proof. unfold CartService.checkout. frames. Qed.

(** ** Worlds that the service can be in *)

Lemma logOf_cleanup cfg w sessionId log :
  logOf (snd (CartStateManager.cleanupOldSessions cfg w)) sessionId = Some log ->
  logOf w sessionId = Some log.
Proof.
  unfold logOf. simpl.
  destruct (filter _ (sessions w) !! sessionId) as [s|] eqn:Hs; [|done].
  apply map_lookup_filter_Some in Hs as [-> _]. done.
Qed.

Lemma reachable_completedNonEmpty cfg w : Reachable cfg w -> completedNonEmpty w.
Proof.
  induction 1 as [|w dt _ IH|w _ IH|w sid _ IH|w sid op _ IH|w sid _ IH|w _ IH];
    intros sessionId events Hlog;
    [| | | | | |by eapply (IH sessionId), logOf_cleanup].
  - done.
  - by apply (IH sessionId).
  - revert Hlog. unfold CartService.createSession, CartStateManager.createSession,
      bind, nanoid, Date_now, CartStateManager.putSession, ret. simpl.
    unfold logOf. simpl. rewrite lookup_insert.
    destruct (decide ("exp_" +:+ pretty (nanoSeed w) = sessionId)); [done|].
    apply (IH sessionId).
  - apply (IH sessionId).
    by rewrite <- (untouched_logOf _ _ sessionId (frame_getCart cfg sid w)).
  - destruct (decide (sessionId = sid)) as [->|Hne].
    + destruct (perform cfg sid op w) as [r w'] eqn:Hrun. simpl in Hlog.
      pose proof (perform_log _ _ _ _ _ _ Hrun) as Hl. destruct r as [cart|e].
      * destruct Hl as (evs & ev & _ & Hl & _). congruence.
      * apply (IH sid). congruence.
    + apply (IH sessionId).
      by rewrite <- (frame_perform_others cfg sid op w sessionId Hne).
  - destruct (decide (sessionId = sid)) as [->|Hne].
    + destruct (CartService.checkout cfg sid w) as [r w'] eqn:Hrun. simpl in Hlog.
      pose proof (checkout_log _ _ _ _ _ Hrun) as Hl. destruct r as [result|e].
      * destruct Hl as (evs & _ & Hl & Hne & Hcart).
        rewrite Hcart in Hne. simpl in Hne. congruence.
      * apply (IH sid). congruence.
    + apply (IH sessionId).
      by rewrite <- (frame_checkout_others cfg sid w sessionId Hne).
Qed.

(** C8. The completed flag of a session is set by a successful checkout and
    by nothing else, and once set it stays set: in any world the service can
    reach, checkout of a session whose projection has no items fails with
    EmptyCart; after a successful checkout the flag is true and a second
    checkout fails with SessionCompleted; a failed checkout and every
    [addItem], [removeItem] and [updateItem] leave the flag as it was; on a
    completed session each of the four calls fails, logs nothing and leaves
    the flag true. *)
Theorem completed_is_terminal cfg sessionId w :
  (Reachable cfg w ->
   forall events checkedOut,
     logOf w sessionId = Some (events, checkedOut) ->
     cart_items (CartStateManager.buildCartFromEvents cfg sessionId events) = [] ->
     exists w',
       CartService.checkout cfg sessionId w = (Throw EmptyCartError, w')
       /\ logOf w' sessionId = logOf w sessionId)
  /\ (forall result w',
        CartService.checkout cfg sessionId w = (Ok result, w') ->
        (exists events,
           logOf w sessionId = Some (events, false)
           /\ logOf w' sessionId = Some (events, true))
        /\ exists w'',
             CartService.checkout cfg sessionId w'
             = (Throw (SessionCompletedError sessionId), w'')
             /\ logOf w'' sessionId = logOf w' sessionId)
  /\ (forall e w',
        CartService.checkout cfg sessionId w = (Throw e, w') ->
        logOf w' sessionId = logOf w sessionId)
  /\ (forall op r w',
        perform cfg sessionId op w = (r, w') ->
        snd <$> logOf w' sessionId = snd <$> logOf w sessionId)
  /\ (forall events,
        logOf w sessionId = Some (events, true) ->
        (forall op,
           exists e w',
             perform cfg sessionId op w = (Throw e, w')
             /\ logOf w' sessionId = Some (events, true))
        /\ exists w',
             CartService.checkout cfg sessionId w
             = (Throw (SessionCompletedError sessionId), w')
             /\ logOf w' sessionId = Some (events, true)).
Proof.
  repeat split.
  - intros Hreach events checkedOut Hlog Hempty. destruct checkedOut.
    + exfalso. exact (reachable_completedNonEmpty cfg w Hreach _ _ Hlog Hempty).
    + destruct (checkout_empty cfg _ _ _ Hlog Hempty) as (w' & Hrun & Hun).
      exists w'. split; [done|]. apply (untouched_logOf _ _ _ Hun).
  - pose proof (checkout_log _ _ _ _ _ H) as (events & ? & ? & _). eauto.
  - pose proof (checkout_log _ _ _ _ _ H) as (events & _ & Hlog' & _).
    destruct (checkout_completed cfg _ _ _ Hlog') as (w'' & Hrun & Hun).
    exists w''. split; [done|]. apply (untouched_logOf _ _ _ Hun).
  - intros e w' Hrun. exact (checkout_log _ _ _ _ _ Hrun).
  - intros op r w' Hrun. pose proof (perform_log _ _ _ _ _ _ Hrun) as Hl.
    destruct r as [cart|e].
    + destruct Hl as (events & event & -> & -> & _). done.
    + by rewrite Hl.
  - intros op. destruct (perform cfg sessionId op w) as [r w'] eqn:Hrun.
    pose proof (perform_log _ _ _ _ _ _ Hrun) as Hl. destruct r as [cart|e].
    + destruct Hl as (evs & ev & Hl & _). congruence.
    + exists e, w'. split; [done|]. congruence.
  - destruct (checkout_completed cfg _ _ _ H) as (w' & Hrun & Hun).
    exists w'. split; [done|]. by rewrite (untouched_logOf _ _ _ Hun).
Qed.

Lemma completed_is_terminal_witness :
  (exists w',
     CartService.checkout testConfig "exp_0" worldNewSession
     = (Throw EmptyCartError, w')
     /\ logOf w' "exp_0" = logOf worldNewSession "exp_0")
  /\ exists e w',
       perform testConfig "exp_0" (OpAddItem requestPlan) worldCompleted
       = (Throw e, w')
       /\ logOf w' "exp_0"
          = Some ([ITEM_ADDED "item1" "DEVICE" "iPhone" 99900 1 0], true).
Proof.
  split.
  - refine (proj1 (completed_is_terminal testConfig "exp_0" worldNewSession)
              (reach_createSession testConfig emptyWorld (reach_start testConfig))
              [] false _ _).
    + vm_compute. reflexivity.
    + reflexivity.
  - refine (proj1 (proj2 (proj2 (proj2 (proj2
              (completed_is_terminal testConfig "exp_0" worldCompleted))))
              [ITEM_ADDED "item1" "DEVICE" "iPhone" 99900 1 0] _)
              (OpAddItem requestPlan)).
    vm_compute. reflexivity.
Defined.

(** C9, as amended. On a completed session every mutating call fails before
    any backend interaction and logs nothing. [checkout] fails with
    SessionCompleted. [addItem], [removeItem] and [updateItem] validate their
    input first: they fail with InvalidQuantity when the input is invalid
    and with SessionCompleted when it is valid. *)
Theorem completed_session_rejects cfg sessionId w events
    (Hcompleted : logOf w sessionId = Some (events, true)) :
  (exists w',
     CartService.checkout cfg sessionId w
     = (Throw (SessionCompletedError sessionId), w')
     /\ backendUntouched w w')
  /\ forall op,
       exists w',
         perform cfg sessionId op w
         = (Throw (match validationError op with
                   | Some message => InvalidQuantityError message
                   | None => SessionCompletedError sessionId
                   end), w')
         /\ backendUntouched w w'.
Proof.
  split; [by eapply checkout_completed|].
  intros op. destruct (perform_precheck cfg sessionId op w) as (w0 & Hun & Hrun).
  exists w0. split; [|done]. rewrite Hrun, Hcompleted. unfold precheck.
  by destruct (validationError op).
Qed.

Lemma completed_session_rejects_witness :
  exists w',
    perform testConfig "exp_0" (OpAddItem requestPlan) worldCompleted
    = (Throw (SessionCompletedError "exp_0"), w')
    /\ backendUntouched worldCompleted w'.
Proof.
  refine (proj2 (completed_session_rejects testConfig "exp_0" worldCompleted
                   [ITEM_ADDED "item1" "DEVICE" "iPhone" 99900 1 0] _)
            (OpAddItem requestPlan)).
  vm_compute. reflexivity.
Defined.

(** C9 as first stated fails: on the completed session [exp_0], [updateItem]
    with quantity 0 fails with InvalidQuantity, not with SessionCompleted. *)
Lemma invalid_request_on_completed_session :
  logOf worldCompleted "exp_0"
  = Some ([ITEM_ADDED "item1" "DEVICE" "iPhone" 99900 1 0], true)
  /\ fst (CartService.updateItem testConfig "exp_0" "item1" 0 worldCompleted)
     = Throw (InvalidQuantityError "Quantity must be positive")
  /\ fst (CartService.updateItem testConfig "exp_0" "item1" 0 worldCompleted)
     <> Throw (SessionCompletedError "exp_0").
Proof. vm_compute. repeat split; congruence. Qed.

(** ** The log records exactly the mutations that reached the backend *)



(** ** [removeItem] *)




(** Scenario B of the specification, run through the service with the
    backend context expiring before the second removal. *)
Example removeItem_partial_then_all :
  let add3 := OpAddItem {| req_itemId := "X"; req_type := "DEVICE";
                           req_name := "Phone"; req_price := 100;
                           req_quantity := 3 |} in
  map (fun r => match r with
                | Ok cart => Some (map (fun it => (item_id it, item_quantity it))
                                     (cart_items cart))
                | Throw _ => None
                end)
    (fst (runSchedule testConfig "exp_0"
            [(0, add3); (0, OpRemoveItem "X" (Some 1));
             (150, OpRemoveItem "X" (Some 5))] worldNewSession))
  = [Some [("X", 3)]; Some [("X", 2)]; Some []].
Proof. vm_compute. reflexivity. Qed.

(** ** The backend follows the log *)

Lemma getValidContext_live cfg w contextId context :
  liveContext cfg w contextId context ->
  SalesforceCartClient.getValidContext cfg contextId w = (Ok context, w).
Proof.
  intros [Hctx Hlive]. unfold SalesforceCartClient.getValidContext, bind, getWorld.
  simpl. rewrite Hctx. unfold Date_now.
  destruct (_ >? _) eqn:E; [lia|done].
Qed.

Lemma getValidContext_cases cfg w contextId :
  (exists context, liveContext cfg w contextId context)
  \/ (exists w',
        SalesforceCartClient.getValidContext cfg contextId w
        = (Throw (ContextExpiredError contextId), w')
        /\ sessions w' = sessions w /\ clock w' = clock w).
Proof.
  destruct (contexts w !! contextId) as [context|] eqn:Hctx.
  - destruct (decide (clock w - ctx_lastActivity context <= SF_CONTEXT_TTL_MS cfg))
      as [Hlive|Hdead].
    + left. by exists context.
    + right. unfold SalesforceCartClient.getValidContext, bind, getWorld.
      simpl. rewrite Hctx. unfold Date_now.
      destruct (_ >? _) eqn:E; [|lia]. by eexists.
  - right. unfold SalesforceCartClient.getValidContext, bind, getWorld.
    simpl. rewrite Hctx. by eexists.
Qed.

Lemma sfMutation_expired cfg event w contextId w' :
  SalesforceCartClient.getValidContext cfg contextId w
  = (Throw (ContextExpiredError contextId), w') ->
  sfMutation cfg event contextId w = (Throw (ContextExpiredError contextId), w').
Proof.
  intros H. destruct event; simpl;
    unfold SalesforceCartClient.addItem, SalesforceCartClient.removeItem,
      SalesforceCartClient.updateItem, bind; by rewrite H.
Qed.

(** On a live context the backend call does to the items of the context what
    the fold does to the projection. *)
Lemma sfMutation_live cfg event w contextId context :
  liveContext cfg w contextId context ->
  applicable (ctx_items context) event ->
  sfMutation cfg event contextId w
  = (Ok tt,
     withContexts w
       (<[contextId := contextWith context (applyEvent (ctx_items context) event)
                         (clock w)]> (contexts w))).
Proof.
  intros Hlive Happ. pose proof (getValidContext_live _ _ _ _ Hlive) as Hget.
  destruct event as [i t n p q ts|i q ts|i q ts]; simpl in *.
  - unfold SalesforceCartClient.addItem, bind. rewrite Hget. simpl.
    by destruct (JsMap.get i (ctx_items context)).
  - unfold SalesforceCartClient.removeItem, bind. rewrite Hget. simpl.
    destruct (JsMap.get i (ctx_items context)) as [item|]; [|done].
    by destruct (q >=? item_quantity item).
  - unfold SalesforceCartClient.updateItem, bind. rewrite Hget. simpl.
    by destruct (JsMap.get i (ctx_items context)).
Qed.

Lemma sfMutation_not_found cfg event w contextId context :
  liveContext cfg w contextId context ->
  ~ applicable (ctx_items context) event ->
  exists itemId,
    sfMutation cfg event contextId w = (Throw (ItemNotFoundError itemId), w)
    /\ applyEvent (ctx_items context) event = ctx_items context
    /\ match event with ITEM_ADDED _ _ _ _ _ _ => False | _ => True end.
Proof.
  intros Hlive Happ. pose proof (getValidContext_live _ _ _ _ Hlive) as Hget.
  destruct event as [i t n p q ts|i q ts|i q ts]; simpl in *; [done| |].
  - exists i. unfold SalesforceCartClient.removeItem, bind. rewrite Hget. simpl.
    destruct (JsMap.get i (ctx_items context)) as [item|]; [by destruct Happ|].
    done.
  - exists i. unfold SalesforceCartClient.updateItem, bind. rewrite Hget. simpl.
    destruct (JsMap.get i (ctx_items context)) as [item|]; [by destruct Happ|].
    done.
Qed.

Lemma applicable_dec items event : Decision (applicable items event).
Proof. destruct event; simpl; apply _. Qed.

(** One step of the replay on a context used at this very instant. *)
Lemma replayEvent_live cfg event w contextId context :
  0 <= SF_CONTEXT_TTL_MS cfg ->
  contexts w !! contextId = Some context ->
  ctx_lastActivity context = clock w ->
  exists w' context',
    CartService.replayEvent cfg contextId event w = (Ok tt, w')
    /\ sessions w' = sessions w
    /\ clock w' = clock w
    /\ contexts w' !! contextId = Some context'
    /\ ctx_lastActivity context' = clock w
    /\ ctx_items context' = applyEvent (ctx_items context) event.
Proof.
  intros HTTL Hctx Hnow.
  assert (Hlive : liveContext cfg w contextId context) by (split; [done|lia]).
  destruct (applicable_dec (ctx_items context) event) as [Happ|Hno].
  - pose proof (sfMutation_live _ _ _ _ _ Hlive Happ) as Hrun.
    exists (withContexts w
              (<[contextId := contextWith context
                                (applyEvent (ctx_items context) event) (clock w)]>
                 (contexts w))),
      (contextWith context (applyEvent (ctx_items context) event) (clock w)).
    split.
    + destruct event; simpl in *; unfold tryCatch; by rewrite ?Hrun.
    + simpl. by rewrite lookup_insert_eq.
  - destruct (sfMutation_not_found _ _ _ _ _ Hlive Hno) as (i & Hrun & Hsame & Hev).
    exists w, context. split.
    + destruct event; simpl in *; [done| |]; unfold tryCatch; by rewrite Hrun.
    + by rewrite Hsame.
Qed.

Lemma replayLoop_live cfg events w contextId context :
  0 <= SF_CONTEXT_TTL_MS cfg ->
  contexts w !! contextId = Some context ->
  ctx_lastActivity context = clock w ->
  exists w' context',
    CartService.replayLoop cfg contextId events w = (Ok tt, w')
    /\ sessions w' = sessions w
    /\ clock w' = clock w
    /\ contexts w' !! contextId = Some context'
    /\ ctx_lastActivity context' = clock w
    /\ ctx_items context' = fold_left applyEvent events (ctx_items context).
Proof.
  intros HTTL. revert w context.
  induction events as [|event events IH]; intros w context Hctx Hnow.
  - exists w, context. by simpl.
  - destruct (replayEvent_live cfg event w contextId context HTTL Hctx Hnow)
      as (w1 & context1 & Hrun1 & Hs1 & Hc1 & Hctx1 & Hnow1 & Hitems1).
    destruct (IH w1 context1 Hctx1) as (w2 & context2 & Hrun2 & Hs2 & Hc2 & Hctx2 & Hnow2 & Hitems2).
    { congruence. }
    exists w2, context2. simpl. unfold bind. rewrite Hrun1, Hrun2.
    repeat split; congruence.
Qed.

Lemma handleOf_Some w sessionId handle :
  handleOf w sessionId = Some handle <->
  exists s, sessions w !! sessionId = Some s /\ sess_sfContextId s = handle.
Proof.
  unfold handleOf. destruct (sessions w !! sessionId) as [s|]; simpl; split.
  - intros [= <-]. eauto.
  - by intros (s' & [= <-] & <-).
  - done.
  - by intros (s' & ? & _).
Qed.

Lemma ensureSfContext_stored sessionId w contextId :
  handleOf w sessionId = Some (Some contextId) ->
  exists w0,
    CartService.ensureSfContext sessionId w = (Ok contextId, w0)
    /\ backendUntouched w w0.
Proof.
  intros (s & Hs & Hc)%handleOf_Some.
  pose proof (frame_getSession sessionId w) as Hf.
  unfold CartService.ensureSfContext, bind.
  rewrite (getSession_found _ _ _ Hs) in *. simpl in *. rewrite Hc. eauto.
Qed.

Lemma ensureSfContext_first sessionId w :
  handleOf w sessionId = Some None ->
  exists w0,
    CartService.ensureSfContext sessionId w = (Ok (nextHandle w), w0)
    /\ handleOf w0 sessionId = Some (Some (nextHandle w))
    /\ contexts w0 !! nextHandle w
       = Some (freshContext (nextHandle w) (clock w))
    /\ clock w0 = clock w.
Proof.
  intros (s & Hs & Hc)%handleOf_Some.
  unfold CartService.ensureSfContext, bind at 1.
  rewrite (getSession_found _ _ _ Hs). cbn [sess_sfContextId touched]. rewrite Hc.
  set (w1 := withSessions w _).
  unfold bind at 1. rewrite createContext_eq.
  set (w2 := {| sessions := sessions w1; contexts := _; clock := _; nanoSeed := _ |}).
  assert (Hs2 : sessions w2 !! sessionId = Some (touched s (clock w)))
    by apply lookup_insert_eq.
  unfold bind.
  rewrite (updateSfContextId_found sessionId (nextHandle w1) w2 _ Hs2).
  eexists. split; [reflexivity|]. simpl. repeat split.
  - unfold handleOf. simpl. by rewrite lookup_insert_eq.
  - apply lookup_insert_eq.
Qed.

Lemma attempt_live cfg sessionId event w contextId context :
  handleOf w sessionId = Some (Some contextId) ->
  liveContext cfg w contextId context ->
  applicable (ctx_items context) event ->
  exists w' context',
    attempt cfg sessionId event w = (Ok tt, w')
    /\ handleOf w' sessionId = Some (Some contextId)
    /\ contexts w' !! contextId = Some context'
    /\ ctx_items context' = applyEvent (ctx_items context) event.
Proof.
  intros Hhandle [Hctx Hlive] Happ.
  destruct (ensureSfContext_stored _ _ _ Hhandle) as (w0 & Hrun & Hun).
  destruct Hun as ([Hclock _] & Hctxs & _ & Hhandles).
  assert (Hlive0 : liveContext cfg w0 contextId context).
  { split; [by rewrite Hctxs|by rewrite Hclock]. }
  unfold attempt, bind. rewrite Hrun, (sfMutation_live _ _ _ _ _ Hlive0 Happ).
  eexists _, _. split; [reflexivity|]. simpl. split; [|split].
  - change (handleOf w0 sessionId = Some (Some contextId)). by rewrite Hhandles.
  - apply lookup_insert_eq.
  - done.
Qed.

Lemma replayEvents_live cfg sessionId w events checkedOut :
  0 <= SF_CONTEXT_TTL_MS cfg ->
  logOf w sessionId = Some (events, checkedOut) ->
  exists w' context',
    CartService.replayEvents cfg sessionId w = (Ok tt, w')
    /\ clock w' = clock w
    /\ handleOf w' sessionId = Some (Some (nextHandle w))
    /\ contexts w' !! nextHandle w = Some context'
    /\ ctx_lastActivity context' = clock w
    /\ ctx_items context' = foldEvents events.
Proof.
  intros HTTL Hlog.
  destruct (replayEvents_unfold cfg _ _ _ _ Hlog)
    as (w1 & Hrun & Hhandle & _ & Hctxs & _ & [Hclock _]).
  assert (Hfresh : contexts w1 !! nextHandle w
                   = Some (freshContext (nextHandle w) (clock w))).
  { rewrite Hctxs. apply lookup_insert_eq. }
  destruct (replayLoop_live cfg events w1 (nextHandle w) _ HTTL Hfresh)
    as (w2 & context2 & Hloop & Hs2 & Hc2 & Hctx2 & Hnow2 & Hitems2).
  { simpl. congruence. }
  exists w2, context2. rewrite Hrun. split; [done|].
  split; [congruence|]. split.
  { unfold handleOf in *. by rewrite Hs2. }
  split; [done|]. split; [congruence|]. exact Hitems2.
Qed.

(** With a synced backend and a TTL that is not negative, the
    recovery-wrapped call of an applicable mutation succeeds, whether or not
    the context has expired, and leaves a context that holds the projection
    with the event applied. *)
Lemma executeWithReplay_synced cfg sessionId event w events checkedOut :
  0 <= SF_CONTEXT_TTL_MS cfg ->
  Synced w sessionId ->
  logOf w sessionId = Some (events, checkedOut) ->
  applicable (foldEvents events) event ->
  exists w' contextId,
    CartService.executeWithReplay cfg sessionId (attempt cfg sessionId event) w
    = (Ok tt, w')
    /\ handleOf w' sessionId = Some (Some contextId)
    /\ forall context,
         contexts w' !! contextId = Some context ->
         ctx_items context = applyEvent (foldEvents events) event.
Proof.
  intros HTTL (events' & co' & Hlog' & Hsync) Hlog Happ.
  rewrite Hlog in Hlog'. injection Hlog' as <- <-.
  destruct (handleOf w sessionId) as [[contextId|]|] eqn:Hhandle; [| |done].
  - (* a handle is stored *)
    destruct (ensureSfContext_stored _ _ _ Hhandle) as (w0 & Hensure & Hun).
    destruct (getValidContext_cases cfg w0 contextId)
      as [[context Hlive]|(w1 & Hdead & Hs1 & Hc1)].
    + (* and its context is live: the first attempt succeeds *)
      assert (Hlive' : liveContext cfg w contextId context).
      { destruct Hlive as [H1 H2], Hun as ([Hclock _] & Hctxs & _).
        split; [by rewrite <- Hctxs|by rewrite <- Hclock]. }
      assert (Hitems : ctx_items context = foldEvents events)
        by (apply Hsync, Hlive').
      rewrite <- Hitems in Happ.
      destruct (attempt_live cfg sessionId event w contextId context Hhandle Hlive' Happ)
        as (w' & context' & Hrun & Hh' & Hctx' & Hitems').
      exists w', contextId.
      rewrite (executeWithReplay_first_attempt_ok _ _ _ _ _ _ Hrun).
      split; [done|]. split; [done|]. intros c Hc. rewrite Hctx' in Hc.
      injection Hc as <-. by rewrite Hitems', Hitems.
    + (* or it has expired: replay, then the retry succeeds *)
      assert (Hfirst : attempt cfg sessionId event w
                       = (Throw (ContextExpiredError contextId), w1)).
      { unfold attempt, bind. rewrite Hensure.
        by apply sfMutation_expired. }
      assert (Hlog1 : logOf w1 sessionId = Some (events, checkedOut)).
      { unfold logOf. rewrite Hs1.
        change (logOf w0 sessionId = Some (events, checkedOut)).
        by rewrite (untouched_logOf _ _ _ Hun). }
      destruct (replayEvents_live cfg sessionId w1 events checkedOut HTTL Hlog1)
        as (w2 & context2 & Hreplay & Hc2 & Hh2 & Hctx2 & Hnow2 & Hitems2).
      assert (Hlive2 : liveContext cfg w2 (nextHandle w1) context2).
      { split; [done|]. rewrite Hnow2, Hc2. lia. }
      rewrite <- Hitems2 in Happ.
      destruct (attempt_live cfg sessionId event w2 _ context2 Hh2 Hlive2 Happ)
        as (w' & context' & Hrun & Hh' & Hctx' & Hitems').
      exists w', (nextHandle w1).
      rewrite (executeWithReplay_retry cfg sessionId _ w contextId w1 w2
                 Hfirst Hreplay).
      split; [done|]. split; [done|]. intros c Hc. rewrite Hctx' in Hc.
      injection Hc as <-. by rewrite Hitems', Hitems2.
  - (* no handle yet: the log is empty and a first context is created *)
    subst events.
    destruct (ensureSfContext_first _ _ Hhandle)
      as (w0 & Hensure & Hh0 & Hctx0 & Hc0).
    assert (Hlive0 : liveContext cfg w0 (nextHandle w)
                       (freshContext (nextHandle w) (clock w))).
    { split; [done|]. simpl. lia. }
    pose proof (sfMutation_live cfg event w0 _ _ Hlive0 Happ) as Hrun.
    set (w' := withContexts w0 _) in Hrun.
    assert (Hfirst : attempt cfg sessionId event w = (Ok tt, w')).
    { unfold attempt, bind. rewrite Hensure. exact Hrun. }
    exists w', (nextHandle w).
    rewrite (executeWithReplay_first_attempt_ok _ _ _ _ _ _ Hfirst).
    split; [done|]. split; [exact Hh0|]. subst w'. simpl. intros c.
    rewrite lookup_insert_eq. by intros [= <-].
Qed.

Lemma Synced_untouched w w' sessionId :
  backendUntouched w w' -> Synced w sessionId -> Synced w' sessionId.
Proof.
  intros ([_ Hlogs] & Hctxs & _ & Hhandles) (events & co & Hlog & Hsync).
  exists events, co. rewrite Hlogs, Hhandles, Hctxs. by split.
Qed.

Lemma precheck_attempt cfg sessionId op events checkedOut mutation event :
  precheck cfg sessionId op (Some (events, checkedOut)) = inr (mutation, event) ->
  forall timestamp,
    mutation = attempt cfg sessionId (event timestamp)
    /\ applicable (foldEvents events) (event timestamp).
Proof.
  unfold precheck. destruct (validationError op); [done|].
  destruct checkedOut; [done|].
  destruct op as [request|itemId quantity|itemId quantity].
  - intros [= <- <-] ts. by split.
  - destruct (JsMap.get itemId (foldEvents events)) as [existing|] eqn:Hget; [|done].
    intros [= <- <-] ts. split; [done|]. simpl. by rewrite Hget.
  - destruct (JsMap.get itemId (foldEvents events)) as [existing|] eqn:Hget; [|done].
    intros [= <- <-] ts. split; [done|]. simpl. by rewrite Hget.
Qed.

(** With a synced backend and a TTL that is not negative, a client call does
    what its checks decide from the log alone: the backend never makes it
    fail, and it leaves the backend synced. *)
Lemma perform_synced cfg sessionId op w events checkedOut :
  0 <= SF_CONTEXT_TTL_MS cfg ->
  Synced w sessionId ->
  logOf w sessionId = Some (events, checkedOut) ->
  exists w',
    Synced w' sessionId
    /\ match precheck cfg sessionId op (Some (events, checkedOut)) with
       | inl e =>
           perform cfg sessionId op w = (Throw e, w')
           /\ logOf w' sessionId = Some (events, checkedOut)
       | inr (_, event) =>
           perform cfg sessionId op w
           = (Ok (CartStateManager.buildCartFromEvents cfg sessionId
                    (events ++ [event (clock w)])), w')
           /\ logOf w' sessionId = Some (events ++ [event (clock w)], checkedOut)
       end.
Proof.
  intros HTTL Hsync Hlog.
  destruct (perform_precheck cfg sessionId op w) as (w0 & Hun & Hrun).
  rewrite Hlog in Hrun.
  pose proof (Synced_untouched _ _ _ Hun Hsync) as Hsync0.
  assert (Hlog0 : logOf w0 sessionId = Some (events, checkedOut))
    by (by rewrite (untouched_logOf _ _ _ Hun)).
  destruct (precheck cfg sessionId op (Some (events, checkedOut)))
    as [e|[mutation event]] eqn:Hpre.
  - exists w0. by repeat split.
  - destruct (precheck_attempt _ _ _ _ _ _ _ Hpre (clock w)) as [-> Happ].
    destruct (executeWithReplay_synced cfg sessionId (event (clock w)) w0
                events checkedOut HTTL Hsync0 Hlog0 Happ)
      as (w1 & contextId & Hexec & Hhandle1 & Hitems1).
    pose proof (mutateThenRecord_outcome cfg sessionId
                  (attempt cfg sessionId (event (clock w))) event w0 events
                  checkedOut) as Hout.
    rewrite Hexec, (untouched_clock _ _ Hun) in Hout.
    destruct Hout as (w' & Hrun' & Hlog' & Honly); [|done|].
    { unfold attempt. frames. destruct (event (clock w)); simpl; eauto with frames. }
    exists w'. split; [|split; [congruence|done]].
    exists (events ++ [event (clock w)]), checkedOut. split; [done|].
    destruct Honly as (_ & Hhandles & Hctxs & _).
    rewrite Hhandles, Hhandle1, Hctxs, foldEvents_snoc. exact Hitems1.
Qed.

(** *** Timestamps do not matter to the projection *)

Lemma applyEvent_untimed items event :
  applyEvent items (untimed event) = applyEvent items event.
Proof. by destruct event. Qed.

Lemma fold_untimed events items :
  fold_left applyEvent (map untimed events) items
  = fold_left applyEvent events items.
Proof.
  revert items. induction events as [|event events IH]; intros items; simpl.
  - done.
  - by rewrite applyEvent_untimed, IH.
Qed.

Lemma foldEvents_untimed events1 events2 :
  map untimed events1 = map untimed events2 ->
  foldEvents events1 = foldEvents events2.
Proof.
  intros H. unfold foldEvents.
  by rewrite <- (fold_untimed events1), <- (fold_untimed events2), H.
Qed.

Lemma buildCart_untimed cfg sessionId events1 events2 :
  map untimed events1 = map untimed events2 ->
  CartStateManager.buildCartFromEvents cfg sessionId events1
  = CartStateManager.buildCartFromEvents cfg sessionId events2.
Proof.
  intros H. unfold CartStateManager.buildCartFromEvents.
  by rewrite (foldEvents_untimed _ _ H).
Qed.

Lemma precheck_untimed cfg sessionId op events1 events2 checkedOut :
  map untimed events1 = map untimed events2 ->
  match precheck cfg sessionId op (Some (events1, checkedOut)),
        precheck cfg sessionId op (Some (events2, checkedOut)) with
  | inl e1, inl e2 => e1 = e2
  | inr (_, event1), inr (_, event2) =>
      forall t1 t2, untimed (event1 t1) = untimed (event2 t2)
  | _, _ => False
  end.
Proof.
  intros H. unfold precheck. rewrite (foldEvents_untimed _ _ H).
  destruct (validationError op); [done|]. destruct checkedOut; [done|].
  destruct op as [request|itemId quantity|itemId quantity]; [done| |];
    by destruct (JsMap.get itemId (foldEvents events2)).
Qed.

(** *** Two runs of the same calls *)

Lemma Twin_advanceClock sessionId w1 w2 dt1 dt2 :
  Twin sessionId w1 w2 -> Twin sessionId (advanceClock dt1 w1) (advanceClock dt2 w2).
Proof. done. Qed.

Lemma perform_twin cfg sessionId op w1 w2 :
  0 <= SF_CONTEXT_TTL_MS cfg ->
  Twin sessionId w1 w2 ->
  fst (perform cfg sessionId op w1) = fst (perform cfg sessionId op w2)
  /\ Twin sessionId (snd (perform cfg sessionId op w1))
       (snd (perform cfg sessionId op w2)).
Proof.
  intros HTTL (Hs1 & Hs2 & events1 & events2 & co & Hlog1 & Hlog2 & Hsame).
  destruct (perform_synced cfg sessionId op w1 events1 co HTTL Hs1 Hlog1)
    as (w1' & Hs1' & H1).
  destruct (perform_synced cfg sessionId op w2 events2 co HTTL Hs2 Hlog2)
    as (w2' & Hs2' & H2).
  pose proof (precheck_untimed cfg sessionId op events1 events2 co Hsame) as Hpre.
  destruct (precheck cfg sessionId op (Some (events1, co))) as [e1|[m1 event1]],
           (precheck cfg sessionId op (Some (events2, co))) as [e2|[m2 event2]];
    try done.
  - destruct H1 as [-> Hl1], H2 as [-> Hl2]. subst e2. simpl.
    split; [done|]. split; [done|]. split; [done|]. eauto 10.
  - destruct H1 as [-> Hl1], H2 as [-> Hl2]. simpl.
    assert (Hsame' : map untimed (events1 ++ [event1 (clock w1)])
                     = map untimed (events2 ++ [event2 (clock w2)])).
    { rewrite !map_app. simpl. by rewrite Hsame, (Hpre (clock w1) (clock w2)). }
    split; [by rewrite (buildCart_untimed _ _ _ _ Hsame')|].
    split; [done|]. split; [done|]. eauto 10.
Qed.

Lemma runSchedule_twin cfg sessionId steps1 steps2 w1 w2 :
  0 <= SF_CONTEXT_TTL_MS cfg ->
  map snd steps1 = map snd steps2 ->
  Twin sessionId w1 w2 ->
  fst (runSchedule cfg sessionId steps1 w1)
  = fst (runSchedule cfg sessionId steps2 w2)
  /\ Twin sessionId (snd (runSchedule cfg sessionId steps1 w1))
       (snd (runSchedule cfg sessionId steps2 w2)).
Proof.
  intros HTTL. revert steps2 w1 w2.
  induction steps1 as [|[dt1 op] steps1 IH]; intros [|[dt2 op2] steps2] w1 w2;
    try done.
  simpl. intros [= <- Hops] Htwin.
  destruct (perform_twin cfg sessionId op (advanceClock dt1 w1) (advanceClock dt2 w2)
              HTTL (Twin_advanceClock _ _ _ dt1 dt2 Htwin)) as [Hr Htwin'].
  destruct (perform cfg sessionId op (advanceClock dt1 w1)) as [r1 w1'].
  destruct (perform cfg sessionId op (advanceClock dt2 w2)) as [r2 w2'].
  simpl in Hr, Htwin'. subst r2.
  destruct (IH steps2 w1' w2' Hops Htwin') as [Hrs Htwin''].
  destruct (runSchedule cfg sessionId steps1 w1') as [rs1 w1''].
  destruct (runSchedule cfg sessionId steps2 w2') as [rs2 w2''].
  simpl in *. by subst rs2.
Qed.

Lemma getCart_twin cfg sessionId w1 w2 :
  Twin sessionId w1 w2 ->
  exists cart,
    fst (CartService.getCart cfg sessionId w1) = Ok cart
    /\ fst (CartService.getCart cfg sessionId w2) = Ok cart.
Proof.
  intros (_ & _ & events1 & events2 & co & Hlog1 & Hlog2 & Hsame).
  destruct (getCart_ok cfg _ _ _ _ Hlog1) as (w1' & -> & _).
  destruct (getCart_ok cfg _ _ _ _ Hlog2) as (w2' & -> & _).
  eexists. split; [done|]. simpl. by rewrite (buildCart_untimed _ _ _ _ Hsame).
Qed.

Lemma createSession_synced cfg w0 :
  let sessionId := "exp_" +:+ pretty (nanoSeed w0) in
  fst (CartService.createSession cfg w0)
  = Ok (sessionId, CartStateManager.buildCartFromEvents cfg sessionId [])
  /\ Twin sessionId (snd (CartService.createSession cfg w0))
       (snd (CartService.createSession cfg w0)).
Proof.
  intros sessionId. split; [done|].
  assert (Hlog : logOf (snd (CartService.createSession cfg w0)) sessionId
                 = Some ([], false)).
  { unfold logOf. simpl. by rewrite lookup_insert_eq. }
  assert (Hsync : Synced (snd (CartService.createSession cfg w0)) sessionId).
  { exists [], false. split; [done|]. unfold handleOf. simpl.
    by rewrite lookup_insert_eq. }
  split; [done|]. split; [done|]. by exists [], [], false.
Qed.

Lemma withoutExpiry_ops steps : map snd (withoutExpiry steps) = map snd steps.
Proof. unfold withoutExpiry. rewrite map_map. done. Qed.

(** C2. Take a new session and any sequence of [addItem], [removeItem] and
    [updateItem] calls on it, with any amount of time passing before each
    call, so that the backend context may expire at any point. When the TTL
    of the backend is not negative, every call returns what it returns when
    no time passes at all, and the cart read at the end is the same. *)
Theorem replay_equivalence cfg w0 steps
    (HTTL : 0 <= SF_CONTEXT_TTL_MS cfg) :
  let sessionId := "exp_" +:+ pretty (nanoSeed w0) in
  let w := snd (CartService.createSession cfg w0) in
  let withExpiries := runSchedule cfg sessionId steps w in
  let noExpiries := runSchedule cfg sessionId (withoutExpiry steps) w in
  fst (CartService.createSession cfg w0)
  = Ok (sessionId, CartStateManager.buildCartFromEvents cfg sessionId [])
  /\ fst withExpiries = fst noExpiries
  /\ exists cart,
       fst (CartService.getCart cfg sessionId (snd withExpiries)) = Ok cart
       /\ fst (CartService.getCart cfg sessionId (snd noExpiries)) = Ok cart.
Proof.
  intros sessionId w withExpiries noExpiries.
  destruct (createSession_synced cfg w0) as [Hnew Htwin].
  split; [exact Hnew|].
  destruct (runSchedule_twin cfg sessionId steps (withoutExpiry steps) w w HTTL)
    as [Hresponses Htwin']; [by rewrite withoutExpiry_ops|exact Htwin|].
  split; [exact Hresponses|]. by apply getCart_twin.
Qed.

Lemma replay_equivalence_witness :
  0 <= SF_CONTEXT_TTL_MS testConfig
  /\ fst (runSchedule testConfig "exp_0" scenarioD worldNewSession)
     = fst (runSchedule testConfig "exp_0" (withoutExpiry scenarioD) worldNewSession).
Proof.
  assert (H : 0 <= SF_CONTEXT_TTL_MS testConfig) by (simpl; lia).
  split; [exact H|].
  exact (proj1 (proj2 (replay_equivalence testConfig emptyWorld scenarioD H))).
Defined.

(** In scenario D the expiry is real: the run with the pause issues a second
    backend handle and ends with A×3, B×1, C×1; the run without it never
    replays. *)
Example scenarioD_outcome :
  let ended := runSchedule testConfig "exp_0" scenarioD worldNewSession in
  let quiet := runSchedule testConfig "exp_0" (withoutExpiry scenarioD)
                 worldNewSession in
  (map (fun it => (item_id it, item_quantity it)) <$>
     match fst (CartService.getCart testConfig "exp_0" (snd ended)) with
     | Ok cart => Some (cart_items cart)
     | Throw _ => None
     end) = Some [("A", 3); ("B", 1); ("C", 1)]
  /\ handleOf (snd ended) "exp_0" = Some (Some "sf_2")
  /\ handleOf (snd quiet) "exp_0" = Some (Some "sf_1").
Proof. vm_compute. done. Qed.

(** ** The logs that the service writes *)

Lemma precheck_positive cfg sessionId op log mutation event :
  precheck cfg sessionId op log = inr (mutation, event) ->
  forall timestamp, positiveEvent (event timestamp).
Proof.
  unfold precheck. destruct (validationError op) eqn:Hvalid; [done|].
  destruct log as [[events []]|]; try done.
  destruct op as [request|itemId quantity|itemId quantity]; simpl in Hvalid.
  - intros [= _ <-] ts. simpl.
    repeat match type of Hvalid with
           | (if ?b then _ else _) = None => destruct b eqn:?; [done|]
           end.
    lia.
  - destruct (JsMap.get itemId (foldEvents events)); [|done].
    by intros [= _ <-] ts.
  - destruct (JsMap.get itemId (foldEvents events)); [|done].
    intros [= _ <-] ts. simpl. destruct (quantity <=? 0) eqn:E; [done|lia].
Qed.

Lemma perform_appends_positive cfg sessionId op w cart w' :
  perform cfg sessionId op w = (Ok cart, w') ->
  exists events event,
    logOf w sessionId = Some (events, false)
    /\ logOf w' sessionId = Some (events ++ [event], false)
    /\ positiveEvent event.
Proof.
  intros Hrun.
  destruct (perform_precheck cfg sessionId op w) as (w0 & Hun & Hperform).
  rewrite Hrun in Hperform.
  destruct (precheck cfg sessionId op (logOf w sessionId))
    as [e|[mutation event]] eqn:Hpre; [done|].
  assert (Hframe := precheck_mutation_frame _ _ _ _ _ _ Hpre).
  assert (Hpos := precheck_positive _ _ _ _ _ _ Hpre (clock w0)).
  unfold precheck in Hpre. destruct (validationError op); [done|].
  destruct (logOf w sessionId) as [[events co]|] eqn:Hlog; [|done].
  destruct co; [done|].
  assert (Hlog0 : logOf w0 sessionId = Some (events, false))
    by (by rewrite (untouched_logOf _ _ _ Hun)).
  pose proof (mutateThenRecord_outcome cfg sessionId mutation event w0
                events false Hframe Hlog0) as Hout.
  destruct (CartService.executeWithReplay cfg sessionId mutation w0)
    as [[[]|e] w1].
  - destruct Hout as (w2 & H2 & Hlog2 & _). rewrite H2 in Hperform.
    injection Hperform as _ ->. eauto.
  - destruct Hout as [H2 _]. congruence.
Qed.

(** Every log that the service has written holds positive quantities only,
    so every cart that the service returns has items of quantity > 0. *)
Lemma reachable_logs_positive cfg w :
  Reachable cfg w ->
  forall sessionId events checkedOut,
    logOf w sessionId = Some (events, checkedOut) -> Forall positiveEvent events.
Proof.
  induction 1 as [|w dt _ IH|w _ IH|w sid _ IH|w sid op _ IH|w sid _ IH|w _ IH];
    intros sessionId events checkedOut Hlog;
    [| | | | | |by eapply (IH sessionId), logOf_cleanup].
  - done.
  - by apply (IH sessionId _ checkedOut).
  - revert Hlog. unfold CartService.createSession, CartStateManager.createSession,
      bind, nanoid, Date_now, CartStateManager.putSession, ret. simpl.
    unfold logOf. simpl. rewrite lookup_insert.
    destruct (decide ("exp_" +:+ pretty (nanoSeed w) = sessionId)).
    + intros [= <- _]. constructor.
    + apply (IH sessionId).
  - apply (IH sessionId _ checkedOut).
    by rewrite <- (untouched_logOf _ _ sessionId (frame_getCart cfg sid w)).
  - destruct (decide (sessionId = sid)) as [->|Hne].
    + destruct (perform cfg sid op w) as [r w'] eqn:Hrun. simpl in Hlog.
      destruct r as [cart|e].
      * destruct (perform_appends_positive _ _ _ _ _ _ Hrun)
          as (evs & ev & Hl & Hl' & Hpos).
        rewrite Hl' in Hlog. injection Hlog as <- <-.
        apply Forall_app. split; [by apply (IH sid _ false)|by constructor].
      * pose proof (perform_log _ _ _ _ _ _ Hrun) as Hl. simpl in Hl.
        apply (IH sid _ checkedOut). congruence.
    + apply (IH sessionId _ checkedOut).
      by rewrite <- (frame_perform_others cfg sid op w sessionId Hne).
  - destruct (decide (sessionId = sid)) as [->|Hne].
    + destruct (CartService.checkout cfg sid w) as [r w'] eqn:Hrun. simpl in Hlog.
      pose proof (checkout_log _ _ _ _ _ Hrun) as Hl. destruct r as [result|e].
      * destruct Hl as (evs & Hl & Hl' & _). rewrite Hl' in Hlog.
        injection Hlog as <- <-. by apply (IH sid _ false).
      * apply (IH sid _ checkedOut). congruence.
    + apply (IH sessionId _ checkedOut).
      by rewrite <- (frame_checkout_others cfg sid w sessionId Hne).
Qed.

Lemma service_carts_positive cfg w sessionId cart w' :
  Reachable cfg w ->
  CartService.getCart cfg sessionId w = (Ok cart, w') ->
  Forall (fun item => 0 < item_quantity item) (cart_items cart).
Proof.
  intros Hreach Hrun. destruct (logOf w sessionId) as [[events co]|] eqn:Hlog.
  - destruct (getCart_ok cfg _ _ _ _ Hlog) as (w1 & Hrun1 & _).
    rewrite Hrun1 in Hrun. injection Hrun as <- <-. simpl.
    unfold JsMap.values. apply Forall_map.
    apply foldEvents_positive. by eapply reachable_logs_positive.
  - rewrite (getCart_missing _ _ _ Hlog) in Hrun. done.
Qed.

(** * Further properties of the code *)

(** ** The projection fold *)

Lemma get_None_keys {V} (m : JsMap.t V) k :
  JsMap.get k m = None <-> k ∉ map fst m.
Proof.
  induction m as [|[k0 v0] m IH]; simpl.
  - split; [intros _; apply not_elem_of_nil|done].
  - rewrite not_elem_of_cons. destruct (decide (k = k0)) as [->|Hne].
    + split; [done|]. by intros [? _].
    + rewrite IH. tauto.
Qed.

Lemma set_absent {V} (m : JsMap.t V) k v :
  JsMap.get k m = None -> JsMap.set k v m = m ++ [(k, v)].
Proof.
  induction m as [|[k0 v0] m IH]; simpl; [done|].
  destruct (decide (k = k0)); [done|]. intros H. by rewrite IH.
Qed.

Lemma delete_absent {V} (m : JsMap.t V) k :
  JsMap.get k m = None -> JsMap.delete k m = m.
Proof.
  induction m as [|[k0 v0] m IH]; simpl; [done|].
  destruct (decide (k = k0)); [done|]. intros H. by rewrite IH.
Qed.

Lemma delete_set_absent {V} (m : JsMap.t V) k v :
  JsMap.get k m = None -> JsMap.delete k (JsMap.set k v m) = m.
Proof.
  induction m as [|[k0 v0] m IH]; simpl.
  - by rewrite decide_True.
  - destruct (decide (k = k0)) as [->|Hne]; [done|]. intros H. simpl.
    rewrite decide_False by done. by rewrite IH.
Qed.

Lemma keys_delete {V} (m : JsMap.t V) k :
  map fst (JsMap.delete k m) = filter (fun k' => k' <> k) (map fst m).
Proof.
  induction m as [|[k0 v0] m IH]; simpl; [done|].
  destruct (decide (k = k0)) as [->|Hne].
  - rewrite filter_cons_False by (intros H; by apply H). done.
  - rewrite filter_cons_True by done. simpl. by rewrite IH.
Qed.

Lemma keys_set_NoDup {V} (m : JsMap.t V) k v :
  NoDup (map fst m) -> NoDup (map fst (JsMap.set k v m)).
Proof.
  intros Hm. destruct (JsMap.get k m) as [v0|] eqn:Hget.
  - by rewrite (keys_set_present _ _ _ _ Hget).
  - rewrite (set_absent _ _ _ Hget), map_app. simpl.
    apply NoDup_app. split; [done|]. split; [|apply NoDup_singleton].
    intros k' Hin Hk'. apply list_elem_of_singleton in Hk' as ->.
    by apply get_None_keys in Hget.
Qed.

Lemma applyEvent_keys_NoDup m event :
  NoDup (map fst m) -> NoDup (map fst (applyEvent m event)).
Proof.
  intros Hm. destruct event as [i t n p q ts|i q ts|i q ts]; simpl;
    destruct (JsMap.get i m) as [ex|]; try done;
    try by apply keys_set_NoDup.
  destruct (q >=? item_quantity ex).
  - rewrite keys_delete. by apply NoDup_filter.
  - by apply keys_set_NoDup.
Qed.

Lemma foldEvents_keys_NoDup events : NoDup (map fst (foldEvents events)).
Proof.
  induction events as [|ev events IH] using rev_ind.
  - constructor.
  - rewrite foldEvents_snoc. by apply applyEvent_keys_NoDup.
Qed.

Lemma keyed_ids m : keyed m -> map item_id (JsMap.values m) = map fst m.
Proof.
  unfold JsMap.values.
  induction 1 as [|[k v] m Hkv _ IH]; simpl in *; [done|]. by rewrite Hkv, IH.
Qed.

(** X1. The projection has one line per item id: whatever the events, no two
    items of the cart built by [buildCartFromEvents] share an id. *)
Theorem projection_one_line_per_item cfg sessionId events :
  NoDup (map item_id
           (cart_items (CartStateManager.buildCartFromEvents cfg sessionId events))).
Proof.
  simpl. rewrite (keyed_ids _ (foldEvents_keyed events)).
  apply foldEvents_keys_NoDup.
Qed.

(** X2. An ITEM_REMOVED or ITEM_UPDATED event for an item id that is not in
    the projection changes nothing: the cart built from the log with the
    event is the cart built from the log without it. *)
Theorem fold_ignores_event_for_absent_item cfg sessionId events itemId
    quantity timestamp
    (Habsent :
       findItem itemId
         (cart_items (CartStateManager.buildCartFromEvents cfg sessionId events))
       = None) :
  CartStateManager.buildCartFromEvents cfg sessionId
    (events ++ [ITEM_REMOVED itemId quantity timestamp])
  = CartStateManager.buildCartFromEvents cfg sessionId events
  /\ CartStateManager.buildCartFromEvents cfg sessionId
       (events ++ [ITEM_UPDATED itemId quantity timestamp])
     = CartStateManager.buildCartFromEvents cfg sessionId events.
Proof.
  rewrite findItem_build in Habsent.
  unfold CartStateManager.buildCartFromEvents.
  rewrite !foldEvents_snoc. simpl. by rewrite Habsent.
Qed.

Lemma fold_ignores_event_for_absent_item_witness :
  CartStateManager.buildCartFromEvents testConfig "exp_0"
    ([ITEM_ADDED "item1" "DEVICE" "iPhone" 99900 1 0]
     ++ [ITEM_REMOVED "item9" 4 1])
  = CartStateManager.buildCartFromEvents testConfig "exp_0"
      [ITEM_ADDED "item1" "DEVICE" "iPhone" 99900 1 0].
Proof.
  exact (proj1 (fold_ignores_event_for_absent_item testConfig "exp_0"
                  [ITEM_ADDED "item1" "DEVICE" "iPhone" 99900 1 0] "item9" 4 1
                  eq_refl)).
Defined.

(** X3. An ITEM_ADDED event for an item id that is not in the projection
    appends a line built from the event after the existing lines, which stay
    as they are and in their order. *)
Theorem add_of_absent_item_appends_line cfg sessionId events
    itemId itemType name price quantity timestamp
    (Habsent :
       findItem itemId
         (cart_items (CartStateManager.buildCartFromEvents cfg sessionId events))
       = None) :
  cart_items
    (CartStateManager.buildCartFromEvents cfg sessionId
       (events ++ [ITEM_ADDED itemId itemType name price quantity timestamp]))
  = cart_items (CartStateManager.buildCartFromEvents cfg sessionId events)
    ++ [{| item_id := itemId; item_type := itemType; item_name := name;
           item_price := price; item_quantity := quantity |}].
Proof.
  rewrite findItem_build in Habsent. simpl.
  rewrite foldEvents_snoc. simpl. rewrite Habsent.
  rewrite (set_absent _ _ _ Habsent). unfold JsMap.values. by rewrite map_app.
Qed.

Lemma add_of_absent_item_appends_line_witness :
  cart_items
    (CartStateManager.buildCartFromEvents testConfig "exp_0"
       ([ITEM_ADDED "A" "DEVICE" "Phone" 100 1 0; ITEM_REMOVED "A" 1 1]
        ++ [ITEM_ADDED "A" "PLAN" "Other" 250 2 2]))
  = cart_items
      (CartStateManager.buildCartFromEvents testConfig "exp_0"
         [ITEM_ADDED "A" "DEVICE" "Phone" 100 1 0; ITEM_REMOVED "A" 1 1])
    ++ [{| item_id := "A"; item_type := "PLAN"; item_name := "Other";
           item_price := 250; item_quantity := 2 |}].
Proof.
  exact (add_of_absent_item_appends_line testConfig "exp_0"
           [ITEM_ADDED "A" "DEVICE" "Phone" 100 1 0; ITEM_REMOVED "A" 1 1]
           "A" "PLAN" "Other" 250 2 2 eq_refl).
Defined.

Lemma findItem_app itemId items1 items2 :
  findItem itemId (items1 ++ items2)
  = match findItem itemId items1 with
    | Some item => Some item
    | None => findItem itemId items2
    end.
Proof.
  unfold findItem. induction items1 as [|item items1 IH]; simpl; [done|].
  by destruct (bool_decide (item_id item = itemId)).
Qed.

(** X4. An item that was removed entirely and is added again is a new line:
    it has the type, name, price and quantity of the new ITEM_ADDED event,
    not those of the line that was removed, and it comes after the lines
    that stayed. *)
Theorem readded_item_is_a_new_line cfg sessionId events existing removed t0
    itemId itemType name price quantity timestamp
    (Hpresent :
       findItem itemId
         (cart_items (CartStateManager.buildCartFromEvents cfg sessionId events))
       = Some existing)
    (Hall : item_quantity existing <= removed) :
  let line := {| item_id := itemId; item_type := itemType; item_name := name;
                 item_price := price; item_quantity := quantity |} in
  let after :=
    CartStateManager.buildCartFromEvents cfg sessionId
      (events ++ [ITEM_REMOVED itemId removed t0;
                  ITEM_ADDED itemId itemType name price quantity timestamp]) in
  findItem itemId (cart_items after) = Some line
  /\ last (cart_items after) = Some line.
Proof.
  intros line after.
  assert (Hgone :
    findItem itemId
      (cart_items
         (CartStateManager.buildCartFromEvents cfg sessionId
            (events ++ [ITEM_REMOVED itemId removed t0]))) = None).
  { rewrite findItem_build in *. rewrite (removal_in_fold _ _ _ _ _ Hpresent).
    destruct (removed >=? item_quantity existing) eqn:E; [done|lia]. }
  assert (Hitems : cart_items after
                   = cart_items
                       (CartStateManager.buildCartFromEvents cfg sessionId
                          (events ++ [ITEM_REMOVED itemId removed t0]))
                     ++ [line]).
  { subst after.
    replace (events ++ [ITEM_REMOVED itemId removed t0;
                        ITEM_ADDED itemId itemType name price quantity timestamp])
      with ((events ++ [ITEM_REMOVED itemId removed t0])
            ++ [ITEM_ADDED itemId itemType name price quantity timestamp])
      by (by rewrite <- app_assoc).
    rewrite findItem_build in Hgone. cbn [cart_items CartStateManager.buildCartFromEvents].
    rewrite (foldEvents_snoc (events ++ _)). simpl applyEvent. rewrite Hgone.
    rewrite (set_absent _ _ _ Hgone). unfold JsMap.values. by rewrite map_app. }
  split.
  - rewrite Hitems, findItem_app, Hgone. unfold findItem. simpl.
    by rewrite bool_decide_eq_true_2.
  - rewrite Hitems. apply last_snoc.
Qed.

Lemma readded_item_is_a_new_line_witness :
  findItem "A"
    (cart_items
       (CartStateManager.buildCartFromEvents testConfig "exp_0"
          ([ITEM_ADDED "A" "DEVICE" "Phone" 100 1 0]
           ++ [ITEM_REMOVED "A" 1 1; ITEM_ADDED "A" "PLAN" "Other" 250 2 2])))
  = Some {| item_id := "A"; item_type := "PLAN"; item_name := "Other";
            item_price := 250; item_quantity := 2 |}.
Proof.
  refine (proj1 (readded_item_is_a_new_line testConfig "exp_0"
                   [ITEM_ADDED "A" "DEVICE" "Phone" 100 1 0]
                   {| item_id := "A"; item_type := "DEVICE"; item_name := "Phone";
                      item_price := 100; item_quantity := 1 |}
                   1 1 "A" "PLAN" "Other" 250 2 2 eq_refl _)).
  simpl. lia.
Defined.

(** X5. Timestamps are not read by the projection: two logs that differ only
    in the timestamps of their events give the same cart. *)
Theorem projection_ignores_timestamps cfg sessionId events1 events2
    (Hsame : map untimed events1 = map untimed events2) :
  CartStateManager.buildCartFromEvents cfg sessionId events1
  = CartStateManager.buildCartFromEvents cfg sessionId events2.
Proof. by apply buildCart_untimed. Qed.

Lemma projection_ignores_timestamps_witness :
  CartStateManager.buildCartFromEvents testConfig "exp_0"
    [ITEM_ADDED "A" "DEVICE" "Phone" 100 1 5; ITEM_UPDATED "A" 3 9]
  = CartStateManager.buildCartFromEvents testConfig "exp_0"
      [ITEM_ADDED "A" "DEVICE" "Phone" 100 1 700; ITEM_UPDATED "A" 3 20].
Proof.
  exact (projection_ignores_timestamps testConfig "exp_0"
           [ITEM_ADDED "A" "DEVICE" "Phone" 100 1 5; ITEM_UPDATED "A" 3 9]
           [ITEM_ADDED "A" "DEVICE" "Phone" 100 1 700; ITEM_UPDATED "A" 3 20]
           eq_refl).
Defined.

Lemma applyEvent_priced m event :
  pricedEvent event -> pricedLines m -> pricedLines (applyEvent m event).
Proof.
  intros Hev Hm. destruct event as [i t n p q ts|i q ts|i q ts]; simpl in *;
    destruct (JsMap.get i m) as [ex|] eqn:Hget; try done.
  - apply Forall_set; [done|]. simpl.
    destruct (get_Forall _ _ _ _ Hm Hget) as [? Hex]. simpl in Hex. lia.
  - by apply Forall_set.
  - destruct (get_Forall _ _ _ _ Hm Hget) as [? Hex]. simpl in Hex.
    destruct (q >=? item_quantity ex) eqn:Hq.
    + by apply Forall_delete.
    + apply Forall_set; [done|]. simpl. lia.
  - destruct (get_Forall _ _ _ _ Hm Hget) as [? Hex]. simpl in Hex.
    apply Forall_set; [done|]. simpl. lia.
Qed.

Lemma foldEvents_priced events :
  Forall pricedEvent events -> pricedLines (foldEvents events).
Proof.
  induction events as [|ev events IH] using rev_ind; intros Hall.
  - constructor.
  - rewrite foldEvents_snoc. apply Forall_app in Hall as [Hes Hev].
    apply applyEvent_priced; [by inversion Hev | by apply IH].
Qed.

Lemma linesTotal_nonneg m : pricedLines m -> 0 <= linesTotal (JsMap.values m).
Proof.
  induction 1 as [|[k v] m [Hp Hq] _ IH]; simpl in *; [done|]. nia.
Qed.



(** ** The state manager *)

(** X7. A session id that the state manager does not hold makes every method
    of the state manager, [getCart], [checkout] and every client call with
    valid input throw SessionNotFound, and nothing at all changes: no
    session is created and the backend is not called. *)
Theorem unknown_session_is_an_error cfg sessionId w
    (Hmissing : sessions w !! sessionId = None) :
  let notFound {A} : Result A * World :=
    (Throw (SessionNotFoundError sessionId), w) in
  CartStateManager.getSession sessionId w = notFound
  /\ CartStateManager.getEvents sessionId w = notFound
  /\ CartStateManager.isCheckedOut sessionId w = notFound
  /\ (forall event, CartStateManager.appendEvent sessionId event w = notFound)
  /\ CartStateManager.markCheckedOut sessionId w = notFound
  /\ (forall handle,
        CartStateManager.updateSfContextId sessionId handle w = notFound)
  /\ CartService.getCart cfg sessionId w = notFound
  /\ CartService.checkout cfg sessionId w = notFound
  /\ (forall op,
        validationError op = None -> perform cfg sessionId op w = notFound).
Proof.
  intros notFound. subst notFound.
  pose proof (getSession_missing _ _ Hmissing) as Hget.
  assert (Hlog : logOf w sessionId = None) by (by apply logOf_None).
  repeat split.
  - done.
  - unfold CartStateManager.getEvents, bind. by rewrite Hget.
  - by apply isCheckedOut_missing.
  - intros event. unfold CartStateManager.appendEvent, bind. by rewrite Hget.
  - unfold CartStateManager.markCheckedOut, bind. by rewrite Hget.
  - intros handle. by apply updateSfContextId_missing.
  - by apply getCart_missing.
  - by apply checkout_missing.
  - intros op Hvalid.
    destruct op as [request|itemId quantity|itemId quantity]; simpl perform.
    + unfold CartService.addItem, bind. rewrite validateAddItemRequest_eq, Hvalid.
      by rewrite (isCheckedOut_missing _ _ Hlog).
    + unfold CartService.removeItem, bind. simpl in Hvalid.
      destruct quantity as [q|].
      * destruct (q <=? 0); [done|]. simpl.
        by rewrite (isCheckedOut_missing _ _ Hlog).
      * simpl. by rewrite (isCheckedOut_missing _ _ Hlog).
    + unfold CartService.updateItem, bind. simpl in Hvalid.
      destruct (quantity <=? 0); [done|]. simpl.
      by rewrite (isCheckedOut_missing _ _ Hlog).
Qed.

Lemma unknown_session_is_an_error_witness :
  CartService.getCart testConfig "exp_7" worldOneItem
  = (Throw (SessionNotFoundError "exp_7"), worldOneItem).
Proof.
  refine (proj1 (proj2 (proj2 (proj2 (proj2 (proj2 (proj2
            (unknown_session_is_an_error testConfig "exp_7" worldOneItem _)))))))).
  vm_compute. reflexivity.
Defined.

Lemma appendAll_ok sessionId new w old checkedOut :
  logOf w sessionId = Some (old, checkedOut) ->
  exists w',
    appendAll sessionId new w = (Ok tt, w')
    /\ logOf w' sessionId = Some (old ++ new, checkedOut)
    /\ onlySession sessionId w w'.
Proof.
  revert w old. induction new as [|event new IH]; intros w old Hlog; simpl.
  - exists w. rewrite app_nil_r. by repeat split.
  - destruct (appendEvent_ok sessionId event _ _ _ Hlog) as (w1 & Hrun1 & Hlog1 & O1).
    destruct (IH w1 _ Hlog1) as (w2 & Hrun2 & Hlog2 & O2).
    exists w2. unfold bind. rewrite Hrun1, Hrun2. split; [done|].
    split; [by rewrite <- app_assoc in Hlog2|].
    destruct O1 as (A1 & A2 & A3 & A4 & A5), O2 as (B1 & B2 & B3 & B4 & B5).
    split; [|repeat split; congruence].
    intros other Hne. by rewrite B1, A1.
Qed.

(** X8. Events come back from the log in the order they were appended:
    after [appendEvent] for each event of a list, [getEvents] returns the old
    log followed by the list; the completed flag, the other sessions and the
    backend are unchanged. *)
Theorem appended_events_are_read_back_in_order sessionId new w old checkedOut
    (Hlog : logOf w sessionId = Some (old, checkedOut)) :
  exists w1 w2,
    appendAll sessionId new w = (Ok tt, w1)
    /\ CartStateManager.getEvents sessionId w1 = (Ok (old ++ new), w2)
    /\ logOf w2 sessionId = Some (old ++ new, checkedOut)
    /\ (forall other, other <> sessionId -> logOf w2 other = logOf w other)
    /\ contexts w2 = contexts w.
Proof.
  destruct (appendAll_ok sessionId new w old checkedOut Hlog)
    as (w1 & Hrun & Hlog1 & (O1 & _ & O3 & _)).
  destruct (getEvents_ok _ _ _ _ Hlog1) as (w2 & Hget & ([_ U1] & U2 & _)).
  exists w1, w2. split; [done|]. split; [done|]. split; [by rewrite U1|].
  split; [|congruence]. intros other Hne. by rewrite U1, O1.
Qed.

Lemma appended_events_are_read_back_in_order_witness :
  exists w1 w2,
    appendAll "exp_0" [ITEM_UPDATED "item1" 4 7; ITEM_REMOVED "item1" 1 8]
      worldOneItem = (Ok tt, w1)
    /\ CartStateManager.getEvents "exp_0" w1
       = (Ok ([ITEM_ADDED "item1" "DEVICE" "iPhone" 99900 1 0]
              ++ [ITEM_UPDATED "item1" 4 7; ITEM_REMOVED "item1" 1 8]), w2)
    /\ logOf w2 "exp_0"
       = Some ([ITEM_ADDED "item1" "DEVICE" "iPhone" 99900 1 0]
               ++ [ITEM_UPDATED "item1" 4 7; ITEM_REMOVED "item1" 1 8], false)
    /\ (forall other, other <> "exp_0" -> logOf w2 other = logOf worldOneItem other)
    /\ contexts w2 = contexts worldOneItem.
Proof.
  refine (appended_events_are_read_back_in_order "exp_0"
            [ITEM_UPDATED "item1" 4 7; ITEM_REMOVED "item1" 1 8] worldOneItem
            [ITEM_ADDED "item1" "DEVICE" "iPhone" 99900 1 0] false _).
  vm_compute. reflexivity.
Defined.

Lemma getCart_touches cfg sessionId w cart w1 :
  CartService.getCart cfg sessionId w = (Ok cart, w1) ->
  exists s events checkedOut,
    sessions w1 !! sessionId = Some s
    /\ sess_lastActivity s = clock w
    /\ clock w1 = clock w
    /\ contexts w1 = contexts w
    /\ logOf w1 sessionId = Some (events, checkedOut)
    /\ cart = CartStateManager.buildCartFromEvents cfg sessionId events.
Proof.
  intros Hrun. destruct (sessions w !! sessionId) as [s|] eqn:Hs.
  - revert Hrun. unfold CartService.getCart, bind.
    rewrite (getSession_found _ _ _ Hs).
    set (w0 := withSessions w _).
    assert (Hs0 : sessions w0 !! sessionId = Some (touched s (clock w)))
      by apply lookup_insert_eq.
    unfold CartStateManager.getEvents, bind.
    rewrite (getSession_found _ _ _ Hs0). simpl. intros [= <- <-].
    exists (touched (touched s (clock w)) (clock w)), (sess_events s),
      (sess_checkedOut s).
    simpl. rewrite lookup_insert_eq. repeat split.
    unfold logOf. simpl. by rewrite lookup_insert_eq.
  - apply logOf_None in Hs. by rewrite (getCart_missing _ _ _ Hs) in Hrun.
Qed.

(** X9. The session sweep goes by idle time. After a successful [getCart] on
    a session, a sweep that runs [dt] ms later keeps the session and its log
    when [dt] is at most the maximum session age, and deletes it when [dt]
    is greater, after which [getCart] throws SessionNotFound. The sweep
    never changes a session that it keeps and never touches the backend
    contexts, so the context of a deleted session stays behind. *)
Theorem sweep_goes_by_idle_time cfg sessionId w cart w1 dt
    (Hused : CartService.getCart cfg sessionId w = (Ok cart, w1)) :
  let w2 := snd (CartStateManager.cleanupOldSessions cfg (advanceClock dt w1)) in
  (dt <= MAX_SESSION_AGE_MS cfg ->
   sessions w2 !! sessionId = sessions w1 !! sessionId
   /\ fst (CartService.getCart cfg sessionId w2) = Ok cart)
  /\ (MAX_SESSION_AGE_MS cfg < dt ->
      sessions w2 !! sessionId = None
      /\ CartService.getCart cfg sessionId w2
         = (Throw (SessionNotFoundError sessionId), w2))
  /\ (forall other s,
        sessions w2 !! other = Some s -> sessions w1 !! other = Some s)
  /\ contexts w2 = contexts w1.
Proof.
  intros w2.
  destruct (getCart_touches _ _ _ _ _ Hused)
    as (s & events & co & Hs & Hlast & Hclock & _ & Hlog & ->).
  assert (Hw2 : sessions w2
                = filter (fun entry =>
                            clock w1 + dt - sess_lastActivity (snd entry)
                            <= MAX_SESSION_AGE_MS cfg) (sessions w1)) by done.
  split; [|split; [|split]].
  - intros Hdt.
    assert (Hkept : sessions w2 !! sessionId = Some s).
    { rewrite Hw2. apply map_lookup_filter_Some. split; [done|]. simpl. lia. }
    split; [congruence|].
    assert (Hlog2 : logOf w2 sessionId = Some (events, co)).
    { unfold logOf in *. by rewrite Hkept, <- Hs. }
    by destruct (getCart_ok cfg _ _ _ _ Hlog2) as (w3 & -> & _).
  - intros Hdt.
    assert (Hgone : sessions w2 !! sessionId = None).
    { rewrite Hw2. apply map_lookup_filter_None. right. intros s' Hs'.
      rewrite Hs in Hs'. injection Hs' as <-. simpl. lia. }
    split; [done|]. by apply getCart_missing, logOf_None.
  - intros other s' Hother. rewrite Hw2 in Hother.
    by apply map_lookup_filter_Some in Hother as [? _].
  - done.
Qed.

Lemma sweep_goes_by_idle_time_witness :
  sessions
    (snd (CartStateManager.cleanupOldSessions testConfig
            (advanceClock (MAX_SESSION_AGE_MS testConfig + 1)
               (snd (CartService.getCart testConfig "exp_0" worldOneItem)))))
  !! "exp_0" = None.
Proof.
  refine (proj1 (proj1 (proj2 (sweep_goes_by_idle_time testConfig "exp_0"
                   worldOneItem
                   (CartStateManager.buildCartFromEvents testConfig "exp_0"
                      [ITEM_ADDED "item1" "DEVICE" "iPhone" 99900 1 0])
                   (snd (CartService.getCart testConfig "exp_0" worldOneItem))
                   (MAX_SESSION_AGE_MS testConfig + 1) _)) _)).
  - vm_compute. reflexivity.
  - lia.
Defined.

(** ** The backend client *)

Lemma withContexts_same w : withContexts w (contexts w) = w.
Proof. by destruct w. Qed.

Lemma getValidContext_dead cfg w contextId :
  (forall context, ~ liveContext cfg w contextId context) ->
  SalesforceCartClient.getValidContext cfg contextId w
  = (Throw (ContextExpiredError contextId),
     withContexts w (base.delete contextId (contexts w))).
Proof.
  intros Hdead. unfold SalesforceCartClient.getValidContext, bind, getWorld.
  simpl. destruct (contexts w !! contextId) as [context|] eqn:Hctx.
  - unfold Date_now. destruct (_ >? _) eqn:E; [done|].
    destruct (Hdead context). split; [done|lia].
  - by rewrite (delete_id _ _ Hctx), withContexts_same.
Qed.

Lemma runCall_dead cfg w contextId call :
  (forall context, ~ liveContext cfg w contextId context) ->
  runCall cfg contextId call w
  = (Throw (ContextExpiredError contextId),
     withContexts w (base.delete contextId (contexts w))).
Proof.
  intros Hdead. pose proof (getValidContext_dead cfg w contextId Hdead) as Hget.
  destruct call; simpl;
    unfold SalesforceCartClient.addItem, SalesforceCartClient.removeItem,
      SalesforceCartClient.updateItem, SalesforceCartClient.getCart,
      SalesforceCartClient.checkout, bind; by rewrite Hget.
Qed.

Lemma runCall_live cfg w contextId context call :
  liveContext cfg w contextId context ->
  exists w',
    runCall cfg contextId call w = (callOutcome call (ctx_items context), w')
    /\ match callOutcome call (ctx_items context) with
       | Throw _ => w' = w
       | Ok _ =>
           sessions w' = sessions w /\ clock w' = clock w
           /\ exists context',
                contexts w' !! contextId = Some context'
                /\ ctx_lastActivity context' = clock w
       end.
Proof.
  intros Hlive. pose proof (getValidContext_live _ _ _ _ Hlive) as Hget.
  destruct call as [item|itemId quantity|itemId quantity|sid|sid]; simpl;
    unfold SalesforceCartClient.addItem, SalesforceCartClient.removeItem,
      SalesforceCartClient.updateItem, SalesforceCartClient.getCart,
      SalesforceCartClient.checkout, bind; rewrite Hget; simpl.
  - destruct (JsMap.get (item_id item) (ctx_items context));
      (eexists; split; [reflexivity|]; simpl; repeat split;
       eexists; split; [apply lookup_insert_eq|done]).
  - destruct (JsMap.get itemId (ctx_items context)) as [item|]; [|by eexists].
    destruct quantity as [q|]; [destruct (q >=? item_quantity item)|];
      (eexists; split; [reflexivity|]; simpl; repeat split;
       eexists; split; [apply lookup_insert_eq|done]).
  - destruct (JsMap.get itemId (ctx_items context)) as [item|]; [|by eexists].
    eexists; split; [reflexivity|]; simpl; repeat split.
    eexists; split; [apply lookup_insert_eq|done].
  - eexists; split; [reflexivity|]; simpl; repeat split.
    eexists; split; [apply lookup_insert_eq|done].
  - eexists; split; [reflexivity|]; simpl; repeat split.
    eexists; split; [apply lookup_insert_eq|done].
Qed.

Lemma live_or_dead cfg w contextId :
  (exists context, liveContext cfg w contextId context)
  \/ (forall context, ~ liveContext cfg w contextId context).
Proof.
  destruct (contexts w !! contextId) as [context|] eqn:Hctx.
  - destruct (decide (clock w - ctx_lastActivity context <= SF_CONTEXT_TTL_MS cfg)).
    + left. by exists context.
    + right. intros context' [Hc Hl]. rewrite Hctx in Hc. by injection Hc as <-.
  - right. intros context' [Hc _]. by rewrite Hctx in Hc.
Qed.

(** X10. A context that has been idle for more than the TTL is gone for
    good: the first call on it, whichever it is, throws ContextExpired and
    deletes the context, [hasContext] is false from then on, and every later
    call on that handle throws ContextExpired whatever the time is. *)
Theorem expired_context_is_gone cfg contextId w context call
    (Hctx : contexts w !! contextId = Some context)
    (Hidle : SF_CONTEXT_TTL_MS cfg < clock w - ctx_lastActivity context) :
  let gone := withContexts w (base.delete contextId (contexts w)) in
  runCall cfg contextId call w = (Throw (ContextExpiredError contextId), gone)
  /\ SalesforceCartClient.hasContext contextId gone = (Ok false, gone)
  /\ forall dt later,
       runCall cfg contextId later (advanceClock dt gone)
       = (Throw (ContextExpiredError contextId), advanceClock dt gone).
Proof.
  intros gone. split; [|split].
  - apply runCall_dead. intros context' [Hc Hl]. rewrite Hctx in Hc.
    injection Hc as <-. lia.
  - unfold SalesforceCartClient.hasContext, bind, getWorld, ret. simpl.
    rewrite lookup_delete_eq. by rewrite bool_decide_eq_false_2 by by intros [].
  - intros dt later.
    rewrite (runCall_dead cfg (advanceClock dt gone) contextId later).
    + simpl. rewrite delete_delete_eq.
      by rewrite <- (withContexts_same (advanceClock dt gone)) at 2.
    + intros context' [Hc _]. simpl in Hc. by rewrite lookup_delete_eq in Hc.
Qed.

Lemma expired_context_is_gone_witness :
  runCall testConfig "sf_1" (CallGetCart "exp_0") worldIdle
  = (Throw (ContextExpiredError "sf_1"),
     withContexts worldIdle (base.delete "sf_1" (contexts worldIdle))).
Proof.
  refine (proj1 (expired_context_is_gone testConfig "sf_1" worldIdle
                   {| ctx_contextId := "sf_1";
                      ctx_items :=
                        [("item1", {| item_id := "item1"; item_type := "DEVICE";
                                      item_name := "iPhone"; item_price := 99900;
                                      item_quantity := 1 |})];
                      ctx_createdAt := 0; ctx_lastActivity := 0 |}
                   (CallGetCart "exp_0") _ _)).
  - vm_compute. reflexivity.
  - vm_compute. reflexivity.
Defined.

(** X11. Every successful call refreshes the idle clock of its context: after
    a call that returned, the context is still there [dt] ms later for every
    [dt] up to the TTL, so that [getCart] on it returns. *)
Theorem successful_call_keeps_context_alive cfg contextId w call w' dt sessionId
    (Hcall : runCall cfg contextId call w = (Ok tt, w'))
    (Hsoon : dt <= SF_CONTEXT_TTL_MS cfg) :
  exists context,
    liveContext cfg (advanceClock dt w') contextId context
    /\ exists w'',
         SalesforceCartClient.getCart cfg contextId sessionId (advanceClock dt w')
         = (Ok (SalesforceCartClient.buildCart sessionId context), w'').
Proof.
  destruct (live_or_dead cfg w contextId) as [[context Hlive]|Hdead].
  - destruct (runCall_live cfg w contextId context call Hlive) as (w1 & Hrun & Hpost).
    rewrite Hcall in Hrun. injection Hrun as Hout <-. rewrite <- Hout in Hpost.
    destruct Hpost as (_ & Hclock & context' & Hctx' & Hlast).
    assert (Hlive' : liveContext cfg (advanceClock dt w') contextId context').
    { split; [done|]. simpl. lia. }
    exists context'. split; [done|].
    unfold SalesforceCartClient.getCart, bind.
    rewrite (getValidContext_live _ _ _ _ Hlive'). by eexists.
  - by rewrite (runCall_dead _ _ _ call Hdead) in Hcall.
Qed.

Lemma successful_call_keeps_context_alive_witness :
  exists context,
    liveContext testConfig
      (advanceClock 100
         (snd (runCall testConfig "sf_1" (CallUpdateItem "item1" 2) worldOneItem)))
      "sf_1" context
    /\ exists w'',
         SalesforceCartClient.getCart testConfig "sf_1" "exp_0"
           (advanceClock 100
              (snd (runCall testConfig "sf_1" (CallUpdateItem "item1" 2)
                      worldOneItem)))
         = (Ok (SalesforceCartClient.buildCart "exp_0" context), w'').
Proof.
  refine (successful_call_keeps_context_alive testConfig "sf_1" worldOneItem
            (CallUpdateItem "item1" 2) _ 100 "exp_0" _ _).
  - vm_compute. reflexivity.
  - vm_compute. congruence.
Defined.

(** X12. [removeItem] and [updateItem] for an item that a live context does
    not hold throw ItemNotFound and change nothing, not even the idle clock
    of the context: a failed call does not keep the context alive. *)
Theorem missing_item_leaves_context_untouched cfg contextId w context itemId
    (Hlive : liveContext cfg w contextId context)
    (Habsent : JsMap.get itemId (ctx_items context) = None) :
  (forall quantity,
     SalesforceCartClient.removeItem cfg contextId itemId quantity w
     = (Throw (ItemNotFoundError itemId), w))
  /\ (forall quantity,
        SalesforceCartClient.updateItem cfg contextId itemId quantity w
        = (Throw (ItemNotFoundError itemId), w)).
Proof.
  pose proof (getValidContext_live _ _ _ _ Hlive) as Hget.
  split; intros quantity;
    unfold SalesforceCartClient.removeItem, SalesforceCartClient.updateItem, bind;
    by rewrite Hget, Habsent.
Qed.

Lemma missing_item_leaves_context_untouched_witness :
  SalesforceCartClient.updateItem testConfig "sf_0" "item1" 3 worldEmptyContext
  = (Throw (ItemNotFoundError "item1"), worldEmptyContext).
Proof.
  refine (proj2 (missing_item_leaves_context_untouched testConfig "sf_0"
                   worldEmptyContext (freshContext "sf_0" 0) "item1" _ _) 3).
  - split; [vm_compute; reflexivity|vm_compute; congruence].
  - reflexivity.
Defined.

(** X13. Adding an item that a live context does not hold and then removing
    it, with no quantity or with a quantity that is at least the one added,
    gives back the items the context had, in their order (the TTL being
    >= 0, so that the context is still live for the second call). *)
Theorem backend_add_then_remove_restores_items cfg contextId w context item quantity
    (HTTL : 0 <= SF_CONTEXT_TTL_MS cfg)
    (Hlive : liveContext cfg w contextId context)
    (Habsent : JsMap.get (item_id item) (ctx_items context) = None)
    (Hall : forall q, quantity = Some q -> item_quantity item <= q) :
  exists w' context',
    (SalesforceCartClient.addItem cfg contextId item ;;
     SalesforceCartClient.removeItem cfg contextId (item_id item) quantity)%method w
    = (Ok tt, w')
    /\ contexts w' !! contextId = Some context'
    /\ ctx_items context' = ctx_items context
    /\ sessions w' = sessions w.
Proof.
  pose proof (getValidContext_live _ _ _ _ Hlive) as Hget.
  destruct Hlive as [Hctx Hidle].
  unfold bind at 1, SalesforceCartClient.addItem, bind at 1.
  rewrite Hget, Habsent. unfold SalesforceCartClient.touch, bind, Date_now,
    SalesforceCartClient.putContext.
  set (context1 := {| ctx_contextId := _; ctx_items := _; ctx_createdAt := _;
                      ctx_lastActivity := _ |}).
  set (w1 := withContexts w _).
  assert (Hlive1 : liveContext cfg w1 contextId context1).
  { split; [apply lookup_insert_eq|]. simpl. lia. }
  unfold SalesforceCartClient.removeItem, bind.
  rewrite (getValidContext_live _ _ _ _ Hlive1). simpl.
  rewrite get_set_eq.
  assert (Hdel : JsMap.delete (item_id item)
                   (JsMap.set (item_id item) item (ctx_items context))
                 = ctx_items context) by (by apply delete_set_absent).
  destruct quantity as [q|].
  - specialize (Hall q eq_refl). destruct (q >=? item_quantity item) eqn:E; [|lia].
    eexists _, _. split; [reflexivity|]. simpl. rewrite lookup_insert_eq.
    by rewrite Hdel.
  - eexists _, _. split; [reflexivity|]. simpl. rewrite lookup_insert_eq.
    by rewrite Hdel.
Qed.

Lemma backend_add_then_remove_restores_items_witness :
  exists w' context',
    (SalesforceCartClient.addItem testConfig "sf_1" (itemOfRequest requestPlan) ;;
     SalesforceCartClient.removeItem testConfig "sf_1" "item2" None)%method
      worldOneItem
    = (Ok tt, w')
    /\ contexts w' !! "sf_1" = Some context'
    /\ ctx_items context'
       = [("item1", {| item_id := "item1"; item_type := "DEVICE";
                       item_name := "iPhone"; item_price := 99900;
                       item_quantity := 1 |})]
    /\ sessions w' = sessions worldOneItem.
Proof.
  refine (backend_add_then_remove_restores_items testConfig "sf_1" worldOneItem
            {| ctx_contextId := "sf_1";
               ctx_items :=
                 [("item1", {| item_id := "item1"; item_type := "DEVICE";
                               item_name := "iPhone"; item_price := 99900;
                               item_quantity := 1 |})];
               ctx_createdAt := 0; ctx_lastActivity := 0 |}
            (itemOfRequest requestPlan) None _ _ _ _).
  - vm_compute. congruence.
  - split; [vm_compute; reflexivity|vm_compute; congruence].
  - reflexivity.
  - intros q [=].
Defined.

(** X14. The backend's [cleanup] cannot be observed through the calls: it
    deletes exactly the contexts that have expired, which the next call
    would have found expired anyway, so every call answers after a
    [cleanup] what it answers without it. Live contexts and the sessions
    are unchanged. *)
Theorem backend_cleanup_is_not_observable cfg w contextId call :
  let swept := snd (SalesforceCartClient.cleanup cfg w) in
  fst (runCall cfg contextId call swept) = fst (runCall cfg contextId call w)
  /\ (forall context,
        contexts swept !! contextId = Some context
        <-> liveContext cfg w contextId context)
  /\ sessions swept = sessions w.
Proof.
  intros swept.
  assert (Hlookup : forall context,
            contexts swept !! contextId = Some context
            <-> liveContext cfg w contextId context).
  { intros context. unfold swept, SalesforceCartClient.cleanup, bind, Date_now.
    simpl. rewrite map_lookup_filter_Some. done. }
  assert (Hlive : forall context,
            liveContext cfg swept contextId context
            <-> liveContext cfg w contextId context).
  { intros context. split.
    - intros [Hc _]. by apply Hlookup.
    - intros Hl. split; [by apply Hlookup|]. by destruct Hl. }
  split; [|by split].
  destruct (live_or_dead cfg w contextId) as [[context Hl]|Hdead].
  - destruct (runCall_live cfg w contextId context call Hl) as (w1 & -> & _).
    apply Hlive in Hl.
    by destruct (runCall_live cfg swept contextId context call Hl) as (w2 & -> & _).
  - rewrite (runCall_dead cfg w contextId call Hdead).
    rewrite (runCall_dead cfg swept contextId call); [done|].
    intros context Hl. apply (Hdead context). by apply Hlive.
Qed.

(** ** The service *)

(** X15. Replay rebuilds the projection in the backend: when the TTL is
    >= 0, [replayEvents] on a session returns, stores a new handle in the
    session, and the context of that handle holds exactly the items of the
    projection of the log, in the same order, so that the backend's cart has
    the items and the subtotal of the service's cart. The log is unchanged. *)
Theorem replay_rebuilds_projection cfg sessionId w events checkedOut
    (HTTL : 0 <= SF_CONTEXT_TTL_MS cfg)
    (Hlog : logOf w sessionId = Some (events, checkedOut)) :
  exists w' context,
    CartService.replayEvents cfg sessionId w = (Ok tt, w')
    /\ handleOf w' sessionId = Some (Some (nextHandle w))
    /\ contexts w' !! nextHandle w = Some context
    /\ ctx_items context = foldEvents events
    /\ cart_items (SalesforceCartClient.buildCart sessionId context)
       = cart_items (CartStateManager.buildCartFromEvents cfg sessionId events)
    /\ cart_subtotal (SalesforceCartClient.buildCart sessionId context)
       = cart_subtotal (CartStateManager.buildCartFromEvents cfg sessionId events)
    /\ logOf w' sessionId = Some (events, checkedOut).
Proof.
  destruct (replayEvents_live cfg sessionId w events checkedOut HTTL Hlog)
    as (w' & context & Hrun & _ & Hhandle & Hctx & _ & Hitems).
  exists w', context. repeat split; try done.
  - simpl. by rewrite Hitems.
  - simpl. by rewrite Hitems.
  - pose proof (frame_replayEvents cfg sessionId w) as [_ Hlogs].
    rewrite Hrun in Hlogs. simpl in Hlogs. by rewrite Hlogs.
Qed.

Lemma replay_rebuilds_projection_witness :
  exists w' context,
    CartService.replayEvents testConfig "exp_0" worldIdle = (Ok tt, w')
    /\ handleOf w' "exp_0" = Some (Some (nextHandle worldIdle))
    /\ contexts w' !! nextHandle worldIdle = Some context
    /\ ctx_items context
       = foldEvents [ITEM_ADDED "item1" "DEVICE" "iPhone" 99900 1 0]
    /\ cart_items (SalesforceCartClient.buildCart "exp_0" context)
       = cart_items
           (CartStateManager.buildCartFromEvents testConfig "exp_0"
              [ITEM_ADDED "item1" "DEVICE" "iPhone" 99900 1 0])
    /\ cart_subtotal (SalesforceCartClient.buildCart "exp_0" context)
       = cart_subtotal
           (CartStateManager.buildCartFromEvents testConfig "exp_0"
              [ITEM_ADDED "item1" "DEVICE" "iPhone" 99900 1 0])
    /\ logOf w' "exp_0"
       = Some ([ITEM_ADDED "item1" "DEVICE" "iPhone" 99900 1 0], false).
Proof.
  refine (replay_rebuilds_projection testConfig "exp_0" worldIdle
            [ITEM_ADDED "item1" "DEVICE" "iPhone" 99900 1 0] false _ _).
  - vm_compute. congruence.
  - vm_compute. reflexivity.
Defined.

(** X16. [getCart] of the service is a pure read of the log: it returns the
    projection of the session's log, never calls the backend (no context is
    created, dropped or written, even when the context of the session has
    expired), leaves every log and flag as it is, and returns the same
    answer when it is called again. *)
Theorem getCart_only_reads cfg sessionId w :
  backendUntouched w (snd (CartService.getCart cfg sessionId w))
  /\ fst (CartService.getCart cfg sessionId
            (snd (CartService.getCart cfg sessionId w)))
     = fst (CartService.getCart cfg sessionId w)
  /\ fst (CartService.getCart cfg sessionId w)
     = match logOf w sessionId with
       | Some (events, _) =>
           Ok (CartStateManager.buildCartFromEvents cfg sessionId events)
       | None => Throw (SessionNotFoundError sessionId)
       end.
Proof.
  split; [apply frame_getCart|].
  destruct (logOf w sessionId) as [[events co]|] eqn:Hlog.
  - destruct (getCart_ok cfg _ _ _ _ Hlog) as (w1 & Hrun & Hun).
    rewrite Hrun. simpl. split; [|done].
    assert (Hlog1 : logOf w1 sessionId = Some (events, co))
      by (by rewrite (untouched_logOf _ _ _ Hun)).
    by destruct (getCart_ok cfg _ _ _ _ Hlog1) as (w2 & -> & _).
  - rewrite (getCart_missing _ _ _ Hlog). simpl.
    by rewrite (getCart_missing _ _ _ Hlog).
Qed.

Lemma logOf_eventsOf_eq w w' sessionId :
  logOf w' sessionId = logOf w sessionId ->
  eventsOf w' sessionId = eventsOf w sessionId.
Proof.
  unfold logOf, eventsOf.
  destruct (sessions w' !! sessionId), (sessions w !! sessionId); simpl; congruence.
Qed.

Lemma runSchedule_others cfg sessionId steps w other :
  other <> sessionId ->
  logOf (snd (runSchedule cfg sessionId steps w)) other = logOf w other.
Proof.
  intros Hne. revert w. induction steps as [|[dt op] steps IH]; intros w; simpl.
  - done.
  - pose proof (frame_perform_others cfg sessionId op (advanceClock dt w) other Hne)
      as Hstep.
    destruct (perform cfg sessionId op (advanceClock dt w)) as [r w1].
    specialize (IH w1).
    destruct (runSchedule cfg sessionId steps w1) as [rs w2]. simpl in *.
    by rewrite IH, Hstep.
Qed.

(** X17. Sessions are isolated: no call on one session, whether it succeeds
    or fails and whether or not it goes through a replay, changes the log
    or the completed flag of another session. *)
Theorem sessions_are_isolated cfg sessionId other w
    (Hother : other <> sessionId) :
  (forall op, logOf (snd (perform cfg sessionId op w)) other = logOf w other)
  /\ logOf (snd (CartService.checkout cfg sessionId w)) other = logOf w other
  /\ logOf (snd (CartService.getCart cfg sessionId w)) other = logOf w other
  /\ (forall steps,
        logOf (snd (runSchedule cfg sessionId steps w)) other = logOf w other).
Proof.
  repeat split.
  - intros op. by apply (frame_perform_others cfg sessionId op w).
  - by apply (frame_checkout_others cfg sessionId w).
  - apply (untouched_logOf _ _ other (frame_getCart cfg sessionId w)).
  - intros steps. by apply runSchedule_others.
Qed.

Lemma sessions_are_isolated_witness :
  logOf (snd (perform testConfig "exp_0" (OpRemoveItem "item1" None) worldIdle))
    "exp_5"
  = logOf worldIdle "exp_5".
Proof.
  refine (proj1 (sessions_are_isolated testConfig "exp_0" "exp_5" worldIdle _)
            (OpRemoveItem "item1" None)).
  congruence.
Defined.

Lemma perform_prefix cfg sessionId op w any :
  eventsOf w any `prefix_of` eventsOf (snd (perform cfg sessionId op w)) any.
Proof.
  destruct (decide (any = sessionId)) as [->|Hne].
  - destruct (perform cfg sessionId op w) as [r w'] eqn:Hrun. simpl.
    pose proof (perform_log _ _ _ _ _ _ Hrun) as Hl. destruct r as [cart|e].
    + destruct Hl as (events & event & Hl & Hl' & _).
      rewrite (eventsOf_logOf _ _ _ _ Hl), (eventsOf_logOf _ _ _ _ Hl').
      by apply prefix_app_r.
    + by rewrite (logOf_eventsOf_eq _ _ _ Hl).
  - by rewrite (logOf_eventsOf_eq _ _ _
                  (frame_perform_others cfg sessionId op w any Hne)).
Qed.

(** X18. The log is append-only: after any client call, any run of calls,
    a [checkout] or a [getCart], the log that each session had before is a
    prefix of the log it has after; [checkout] and [getCart] leave every log
    as it is. No event is ever removed, changed or reordered, and a replay
    adds none. *)
Theorem log_is_append_only cfg sessionId w any :
  (forall op,
     eventsOf w any `prefix_of` eventsOf (snd (perform cfg sessionId op w)) any)
  /\ (forall steps,
        eventsOf w any
        `prefix_of` eventsOf (snd (runSchedule cfg sessionId steps w)) any)
  /\ eventsOf (snd (CartService.checkout cfg sessionId w)) any = eventsOf w any
  /\ eventsOf (snd (CartService.getCart cfg sessionId w)) any = eventsOf w any.
Proof.
  repeat split.
  - intros op. apply perform_prefix.
  - intros steps. revert w. induction steps as [|[dt op] steps IH]; intros w; simpl.
    + done.
    + pose proof (perform_prefix cfg sessionId op (advanceClock dt w) any) as Hstep.
      destruct (perform cfg sessionId op (advanceClock dt w)) as [r w1].
      specialize (IH w1).
      destruct (runSchedule cfg sessionId steps w1) as [rs w2]. simpl in *.
      by etrans.
  - destruct (decide (any = sessionId)) as [->|Hne].
    + destruct (CartService.checkout cfg sessionId w) as [r w'] eqn:Hrun. simpl.
      pose proof (checkout_log _ _ _ _ _ Hrun) as Hl. destruct r as [result|e].
      * destruct Hl as (events & Hl & Hl' & _).
        by rewrite (eventsOf_logOf _ _ _ _ Hl), (eventsOf_logOf _ _ _ _ Hl').
      * by apply logOf_eventsOf_eq.
    + by apply logOf_eventsOf_eq, (frame_checkout_others cfg sessionId w).
  - apply logOf_eventsOf_eq, (untouched_logOf _ _ any (frame_getCart cfg sessionId w)).
Qed.


Lemma runSchedule_synced cfg sessionId steps w events checkedOut :
  0 <= SF_CONTEXT_TTL_MS cfg ->
  Synced w sessionId ->
  logOf w sessionId = Some (events, checkedOut) ->
  Synced (snd (runSchedule cfg sessionId steps w)) sessionId
  /\ exists events',
       logOf (snd (runSchedule cfg sessionId steps w)) sessionId
       = Some (events', checkedOut).
Proof.
  intros HTTL. revert w events.
  induction steps as [|[dt op] steps IH]; intros w events Hsync Hlog; simpl.
  - eauto.
  - destruct (perform_synced cfg sessionId op (advanceClock dt w) events checkedOut
                HTTL Hsync Hlog) as (w1 & Hsync1 & Hstep).
    assert (exists r events1,
              perform cfg sessionId op (advanceClock dt w) = (r, w1)
              /\ logOf w1 sessionId = Some (events1, checkedOut))
      as (r & events1 & Hrun & Hlog1).
    { destruct (precheck cfg sessionId op (Some (events, checkedOut)))
        as [e|[m ev]]; destruct Hstep as [? ?]; eauto. }
    rewrite Hrun. destruct (IH w1 events1 Hsync1 Hlog1) as [Hend Hlogend].
    destruct (runSchedule cfg sessionId steps w1) as [rs w2]. done.
Qed.

Lemma newSession_schedule_synced cfg w0 steps dt :
  0 <= SF_CONTEXT_TTL_MS cfg ->
  let sessionId := "exp_" +:+ pretty (nanoSeed w0) in
  let w :=
    advanceClock dt
      (snd (runSchedule cfg sessionId steps
              (snd (CartService.createSession cfg w0)))) in
  Synced w sessionId /\ exists events, logOf w sessionId = Some (events, false).
Proof.
  intros HTTL sessionId w.
  destruct (createSession_synced cfg w0) as [_ (Hsync & _ & _)].
  assert (Hlog : logOf (snd (CartService.createSession cfg w0)) sessionId
                 = Some ([], false)).
  { unfold logOf. simpl. by rewrite lookup_insert_eq. }
  exact (runSchedule_synced cfg sessionId steps _ [] false HTTL Hsync Hlog).
Qed.

Lemma getValidContext_Ok cfg w contextId context w' :
  SalesforceCartClient.getValidContext cfg contextId w = (Ok context, w') ->
  liveContext cfg w contextId context /\ w' = w.
Proof.
  intros Hrun. destruct (live_or_dead cfg w contextId) as [[context0 Hlive]|Hdead].
  - rewrite (getValidContext_live _ _ _ _ Hlive) in Hrun.
    by injection Hrun as <- <-.
  - by rewrite (getValidContext_dead _ _ _ Hdead) in Hrun.
Qed.

(** X20. The backend follows the log. Take a new session and any run of
    client calls on it, with any time passing before each call and a TTL
    >= 0. Whenever the backend's own [getCart] on the handle stored in the
    session returns, its cart has the items, in the same order, and the
    subtotal of the cart that the service computes from the log; with the
    configured tax rate at 10% the two carts are equal. *)
Theorem backend_cart_matches_projection cfg w0 steps dt contextId cart w'
    (HTTL : 0 <= SF_CONTEXT_TTL_MS cfg) :
  let sessionId := "exp_" +:+ pretty (nanoSeed w0) in
  let w :=
    advanceClock dt
      (snd (runSchedule cfg sessionId steps
              (snd (CartService.createSession cfg w0)))) in
  handleOf w sessionId = Some (Some contextId) ->
  SalesforceCartClient.getCart cfg contextId sessionId w = (Ok cart, w') ->
  exists projected,
    fst (CartService.getCart cfg sessionId w) = Ok projected
    /\ cart_items cart = cart_items projected
    /\ cart_subtotal cart = cart_subtotal projected
    /\ (TAX_RATE cfg = 1 # 10 -> cart = projected).
Proof.
  intros sessionId w Hhandle Hcart.
  destruct (newSession_schedule_synced cfg w0 steps dt HTTL)
    as [(events & co & Hlog & Hsync) _]. fold sessionId w in Hlog, Hsync.
  rewrite Hhandle in Hsync.
  destruct (getCart_ok cfg _ _ _ _ Hlog) as (w1 & Hrun & _).
  exists (CartStateManager.buildCartFromEvents cfg sessionId events).
  rewrite Hrun. split; [done|].
  revert Hcart. unfold SalesforceCartClient.getCart, bind.
  destruct (SalesforceCartClient.getValidContext cfg contextId w)
    as [[context|e] w2] eqn:Hget; [|done].
  apply getValidContext_Ok in Hget as [[Hctx _] ->].
  simpl. intros [= <- _]. specialize (Hsync context Hctx).
  unfold SalesforceCartClient.buildCart, CartStateManager.buildCartFromEvents.
  rewrite Hsync. simpl. repeat split. by intros ->.
Qed.

Lemma backend_cart_matches_projection_witness :
  0 <= SF_CONTEXT_TTL_MS testConfig
  /\ exists projected,
       fst (CartService.getCart testConfig "exp_0"
              (advanceClock 0
                 (snd (runSchedule testConfig "exp_0" scenarioD worldNewSession))))
       = Ok projected
       /\ cart_items
            (SalesforceCartClient.buildCart "exp_0"
               {| ctx_contextId := "sf_2";
                  ctx_items :=
                    foldEvents
                      (eventsOf
                         (snd (runSchedule testConfig "exp_0" scenarioD
                                 worldNewSession)) "exp_0");
                  ctx_createdAt := 150; ctx_lastActivity := 150 |})
          = cart_items projected.
Proof.
  assert (HTTL : 0 <= SF_CONTEXT_TTL_MS testConfig) by (simpl; lia).
  split; [exact HTTL|].
  destruct (backend_cart_matches_projection testConfig emptyWorld scenarioD 0 "sf_2"
              (SalesforceCartClient.buildCart "exp_0"
                 {| ctx_contextId := "sf_2";
                    ctx_items :=
                      foldEvents
                        (eventsOf
                           (snd (runSchedule testConfig "exp_0" scenarioD
                                   worldNewSession)) "exp_0");
                    ctx_createdAt := 150; ctx_lastActivity := 150 |})
              (snd (SalesforceCartClient.getCart testConfig "sf_2" "exp_0"
                      (advanceClock 0
                         (snd (runSchedule testConfig "exp_0" scenarioD
                                 worldNewSession)))))
              HTTL)
    as (projected & H1 & H2 & _).
  - vm_compute. reflexivity.
  - vm_compute. reflexivity.
  - exists projected. by split.
Defined.

Lemma sf_checkout_live cfg w contextId sessionId context :
  liveContext cfg w contextId context ->
  exists w',
    SalesforceCartClient.checkout cfg contextId sessionId w
    = (Ok ("ord_" +:+ pretty (nanoSeed w)), w')
    /\ forall other, logOf w' other = logOf w other.
Proof.
  intros Hlive. unfold SalesforceCartClient.checkout, bind.
  rewrite (getValidContext_live _ _ _ _ Hlive). simpl. by eexists.
Qed.

Lemma sf_checkout_expired cfg w contextId sessionId w' :
  SalesforceCartClient.getValidContext cfg contextId w
  = (Throw (ContextExpiredError contextId), w') ->
  SalesforceCartClient.checkout cfg contextId sessionId w
  = (Throw (ContextExpiredError contextId), w').
Proof. intros H. unfold SalesforceCartClient.checkout, bind. by rewrite H. Qed.

Lemma backendCheckout_live cfg sessionId w contextId context :
  handleOf w sessionId = Some (Some contextId) ->
  liveContext cfg w contextId context ->
  exists orderId w',
    CartService.backendCheckout cfg sessionId w = (Ok orderId, w').
Proof.
  intros Hhandle [Hctx Hidle].
  destruct (ensureSfContext_stored _ _ _ Hhandle) as (w0 & Hrun & Hun).
  destruct Hun as ([Hclock _] & Hctxs & _).
  assert (Hlive0 : liveContext cfg w0 contextId context).
  { split; [by rewrite Hctxs|by rewrite Hclock]. }
  destruct (sf_checkout_live cfg w0 contextId sessionId context Hlive0)
    as (w' & Hco & _).
  unfold CartService.backendCheckout, bind. rewrite Hrun, Hco. eauto.
Qed.

(** With a TTL that is not negative the recovery-wrapped backend checkout
    returns an order id, expired context or not. *)
Lemma executeWithReplay_checkout cfg sessionId w events checkedOut :
  0 <= SF_CONTEXT_TTL_MS cfg ->
  logOf w sessionId = Some (events, checkedOut) ->
  exists orderId w',
    CartService.executeWithReplay cfg sessionId
      (CartService.backendCheckout cfg sessionId) w
    = (Ok orderId, w').
Proof.
  intros HTTL Hlog.
  assert (exists handle, handleOf w sessionId = Some handle) as [handle Hhandle].
  { apply logOf_Some in Hlog as (s & Hs & _). unfold handleOf. rewrite Hs. eauto. }
  destruct handle as [contextId|].
  - destruct (ensureSfContext_stored _ _ _ Hhandle) as (w0 & Hensure & Hun).
    destruct (getValidContext_cases cfg w0 contextId)
      as [[context Hlive]|(w1 & Hdead & Hs1 & Hc1)].
    + assert (Hlive' : liveContext cfg w contextId context).
      { destruct Hlive as [H1 H2], Hun as ([Hclock _] & Hctxs & _).
        split; [by rewrite <- Hctxs|by rewrite <- Hclock]. }
      destruct (backendCheckout_live cfg sessionId w contextId context Hhandle Hlive')
        as (orderId & w' & Hrun).
      exists orderId, w'. by apply executeWithReplay_first_attempt_ok.
    + assert (Hfirst : CartService.backendCheckout cfg sessionId w
                       = (Throw (ContextExpiredError contextId), w1)).
      { unfold CartService.backendCheckout, bind. rewrite Hensure.
        by apply sf_checkout_expired. }
      assert (Hlog1 : logOf w1 sessionId = Some (events, checkedOut)).
      { unfold logOf. rewrite Hs1.
        change (logOf w0 sessionId = Some (events, checkedOut)).
        by rewrite (untouched_logOf _ _ _ Hun). }
      destruct (replayEvents_live cfg sessionId w1 events checkedOut HTTL Hlog1)
        as (w2 & context2 & Hreplay & Hc2 & Hh2 & Hctx2 & Hnow2 & _).
      assert (Hlive2 : liveContext cfg w2 (nextHandle w1) context2).
      { split; [done|]. rewrite Hnow2, Hc2. lia. }
      destruct (backendCheckout_live cfg sessionId w2 _ context2 Hh2 Hlive2)
        as (orderId & w' & Hrun).
      exists orderId, w'.
      by rewrite (executeWithReplay_retry cfg sessionId _ w contextId w1 w2
                    Hfirst Hreplay).
  - destruct (ensureSfContext_first _ _ Hhandle)
      as (w0 & Hensure & _ & Hctx0 & Hc0).
    assert (Hlive0 : liveContext cfg w0 (nextHandle w)
                       (freshContext (nextHandle w) (clock w))).
    { split; [done|]. simpl. lia. }
    destruct (sf_checkout_live cfg w0 (nextHandle w) sessionId _ Hlive0)
      as (w' & Hco & _).
    eexists _, w'. apply executeWithReplay_first_attempt_ok.
    unfold CartService.backendCheckout, bind. by rewrite Hensure, Hco.
Qed.

Lemma checkout_total cfg sessionId w events :
  0 <= SF_CONTEXT_TTL_MS cfg ->
  logOf w sessionId = Some (events, false) ->
  let cart := CartStateManager.buildCartFromEvents cfg sessionId events in
  (cart_items cart = [] ->
   fst (CartService.checkout cfg sessionId w) = Throw EmptyCartError)
  /\ (cart_items cart <> [] ->
      exists orderId w',
        CartService.checkout cfg sessionId w
        = (Ok {| co_orderId := orderId; co_cart := cart |}, w')
        /\ logOf w' sessionId = Some (events, true)).
Proof.
  intros HTTL Hactive cart. split.
  - intros Hempty.
    by destruct (checkout_empty cfg _ _ _ Hactive Hempty) as (w' & -> & _).
  - intros Hitems.
    destruct (checkout_nonempty cfg sessionId w events Hactive Hitems)
      as (w0 & Hun & Hout).
    assert (Hlog0 : logOf w0 sessionId = Some (events, false))
      by (by rewrite (untouched_logOf _ _ _ Hun)).
    destruct (executeWithReplay_checkout cfg sessionId w0 events false HTTL Hlog0)
      as (orderId & w1 & Hexec).
    rewrite Hexec in Hout. destruct Hout as (w' & Hrun & Hlog' & _).
    by exists orderId, w'.
Qed.

(** X21. Checkout does not depend on the backend context being alive: on an
    active session and with a TTL >= 0, [checkout] throws EmptyCart when the
    projection has no items and otherwise returns an order that carries the
    projection of the log, and marks the session completed with its log
    unchanged, however long the backend context has been idle. *)
Theorem checkout_survives_expiry cfg sessionId w events
    (HTTL : 0 <= SF_CONTEXT_TTL_MS cfg)
    (Hactive : logOf w sessionId = Some (events, false)) :
  let cart := CartStateManager.buildCartFromEvents cfg sessionId events in
  (cart_items cart = [] ->
   fst (CartService.checkout cfg sessionId w) = Throw EmptyCartError)
  /\ (cart_items cart <> [] ->
      exists orderId w',
        CartService.checkout cfg sessionId w
        = (Ok {| co_orderId := orderId; co_cart := cart |}, w')
        /\ logOf w' sessionId = Some (events, true)).
Proof. exact (checkout_total cfg sessionId w events HTTL Hactive). Qed.

Lemma checkout_survives_expiry_witness :
  exists orderId w',
    CartService.checkout testConfig "exp_0" worldIdle
    = (Ok {| co_orderId := orderId;
             co_cart :=
               CartStateManager.buildCartFromEvents testConfig "exp_0"
                 [ITEM_ADDED "item1" "DEVICE" "iPhone" 99900 1 0] |}, w')
    /\ logOf w' "exp_0"
       = Some ([ITEM_ADDED "item1" "DEVICE" "iPhone" 99900 1 0], true).
Proof.
  refine (proj2 (checkout_survives_expiry testConfig "exp_0" worldIdle
                   [ITEM_ADDED "item1" "DEVICE" "iPhone" 99900 1 0] _ _) _).
  - vm_compute. congruence.
  - vm_compute. reflexivity.
  - vm_compute. congruence.
Defined.

(** ** The HTTP routes *)

Lemma route_of_outcome {A} (call : M A) (reply : A -> HttpResponse) w :
  tryCatch (a <- call ;; ret (reply a))%method
    (fun error => ret (Routes.handleError error)) w
  = (Ok match fst (call w) with
        | Ok a => reply a
        | Throw e => Routes.handleError e
        end, snd (call w)).
Proof. unfold tryCatch, bind. by destruct (call w) as [[a|e] w']. Qed.

Lemma routeOf_outcome cfg sessionId op w :
  routeOf cfg sessionId op w
  = (Ok match fst (perform cfg sessionId op w) with
        | Ok cart => {| res_status := 200; res_body := CartJson cart |}
        | Throw e => Routes.handleError e
        end, snd (perform cfg sessionId op w)).
Proof. destruct op; apply route_of_outcome. Qed.



(** X23. How the routes answer when the session is the problem. On a session
    that the service does not hold, the cart, checkout and (with valid
    input) add, remove and update requests answer 404 SESSION_NOT_FOUND; on
    a completed session the checkout and the valid add, remove and update
    requests answer 409 SESSION_COMPLETED while the cart request still
    answers 200 with the cart; an update request without a quantity answers
    400 INVALID_REQUEST without calling the service, whatever the session.
    None of these requests changes a log or calls the backend. *)
Theorem http_answers_for_session_state cfg sessionId w :
  (logOf w sessionId = None ->
   let notFound :=
     {| res_status := 404;
        res_body := ErrorJson "SESSION_NOT_FOUND"
                      ("Session " +:+ sessionId +:+ " not found") |} in
   Routes.getCart cfg sessionId w = (Ok notFound, w)
   /\ Routes.postCheckout cfg sessionId w = (Ok notFound, w)
   /\ forall op,
        validationError op = None -> routeOf cfg sessionId op w = (Ok notFound, w))
  /\ (forall events,
        logOf w sessionId = Some (events, true) ->
        let completed :=
          {| res_status := 409;
             res_body := ErrorJson "SESSION_COMPLETED"
                           ("Session " +:+ sessionId
                            +:+ " has already been checked out") |} in
        (exists w',
           Routes.postCheckout cfg sessionId w = (Ok completed, w')
           /\ backendUntouched w w')
        /\ (forall op,
              validationError op = None ->
              exists w',
                routeOf cfg sessionId op w = (Ok completed, w')
                /\ backendUntouched w w')
        /\ exists w',
             Routes.getCart cfg sessionId w
             = (Ok {| res_status := 200;
                      res_body :=
                        CartJson (CartStateManager.buildCartFromEvents cfg
                                    sessionId events) |}, w')
             /\ backendUntouched w w')
  /\ (forall itemId,
        Routes.patchItem cfg sessionId itemId None w
        = (Ok {| res_status := 400;
                 res_body := ErrorJson "INVALID_REQUEST" "Quantity is required" |},
           w)).
Proof.
  split; [|split].
  - intros Hlog notFound. repeat split.
    + unfold Routes.getCart. rewrite route_of_outcome.
      by rewrite (getCart_missing _ _ _ Hlog).
    + unfold Routes.postCheckout. rewrite route_of_outcome.
      by rewrite (checkout_missing _ _ _ Hlog).
    + intros op Hvalid. rewrite routeOf_outcome.
      destruct (perform_precheck cfg sessionId op w) as (w0 & Hun & Hrun).
      assert (Hsame : perform cfg sessionId op w
                      = (Throw (SessionNotFoundError sessionId), w)).
      { destruct op as [request|itemId quantity|itemId quantity]; simpl perform.
        - unfold CartService.addItem, bind.
          rewrite validateAddItemRequest_eq, Hvalid.
          by rewrite (isCheckedOut_missing _ _ Hlog).
        - unfold CartService.removeItem, bind. simpl in Hvalid.
          destruct quantity as [q|].
          + destruct (q <=? 0); [done|]. simpl.
            by rewrite (isCheckedOut_missing _ _ Hlog).
          + simpl. by rewrite (isCheckedOut_missing _ _ Hlog).
        - unfold CartService.updateItem, bind. simpl in Hvalid.
          destruct (quantity <=? 0); [done|]. simpl.
          by rewrite (isCheckedOut_missing _ _ Hlog). }
      by rewrite Hsame.
  - intros events Hlog completed. repeat split.
    + destruct (checkout_completed cfg _ _ _ Hlog) as (w' & Hrun & Hun).
      exists w'. unfold Routes.postCheckout. rewrite route_of_outcome, Hrun.
      by split.
    + intros op Hvalid.
      destruct (perform_precheck cfg sessionId op w) as (w0 & Hun & Hrun).
      rewrite Hlog in Hrun. unfold precheck in Hrun. rewrite Hvalid in Hrun.
      exists w0. rewrite routeOf_outcome, Hrun. by split.
    + destruct (getCart_ok cfg _ _ _ _ Hlog) as (w' & Hrun & Hun).
      exists w'. unfold Routes.getCart. rewrite route_of_outcome, Hrun.
      by split.
  - done.
Qed.

Lemma http_answers_for_session_state_witness :
  exists w',
    routeOf testConfig "exp_0" (OpAddItem requestPlan) worldCompleted
    = (Ok {| res_status := 409;
             res_body := ErrorJson "SESSION_COMPLETED"
                           ("Session " +:+ "exp_0"
                            +:+ " has already been checked out") |}, w')
    /\ backendUntouched worldCompleted w'.
Proof.
  refine (proj1 (proj2 (proj1 (proj2
            (http_answers_for_session_state testConfig "exp_0" worldCompleted))
            [ITEM_ADDED "item1" "DEVICE" "iPhone" 99900 1 0] _))
            (OpAddItem requestPlan) _).
  - vm_compute. reflexivity.
  - reflexivity.
Defined.

(** X24. Input validation comes before everything else: a client call whose
    input is invalid throws InvalidQuantity and leaves the service exactly
    as it was, whatever the session is (unknown, active or completed); the
    session is not even looked up, so its idle clock is not refreshed. *)
Theorem invalid_input_changes_nothing cfg sessionId op w message
    (Hinvalid : validationError op = Some message) :
  perform cfg sessionId op w = (Throw (InvalidQuantityError message), w).
Proof.
  destruct op as [request|itemId quantity|itemId quantity]; simpl perform.
  - unfold CartService.addItem, bind.
    by rewrite validateAddItemRequest_eq, Hinvalid.
  - unfold CartService.removeItem, bind. simpl in Hinvalid.
    destruct quantity as [q|]; [|done].
    destruct (q <=? 0); [|done]. by injection Hinvalid as <-.
  - unfold CartService.updateItem, bind. simpl in Hinvalid.
    destruct (quantity <=? 0); [|done]. by injection Hinvalid as <-.
Qed.

Lemma invalid_input_changes_nothing_witness :
  perform testConfig "exp_9" (OpRemoveItem "item1" (Some (-2))) worldOneItem
  = (Throw (InvalidQuantityError "Quantity must be positive"), worldOneItem).
Proof.
  exact (invalid_input_changes_nothing testConfig "exp_9"
           (OpRemoveItem "item1" (Some (-2))) worldOneItem
           "Quantity must be positive" eq_refl).
Defined.

Lemma Math_round_zero (rate : Q) : Math_round (inject_Z 0 * rate)%Q = 0.
Proof.
  unfold Math_round.
  assert (H : (inject_Z 0 * rate + (1 # 2) == 1 # 2)%Q) by ring.
  by rewrite H.
Qed.

(** X25. Creating a session does not call the backend: [createSession]
    returns an empty cart with subtotal, tax and total 0 whatever the tax
    rate, and leaves the backend contexts as they were; the new session is
    active, has an empty log and stores no backend handle, [getCart] on it
    returns the same empty cart, and [checkout] on it throws EmptyCart. *)
Theorem createSession_is_lazy cfg w0 :
  let sessionId := "exp_" +:+ pretty (nanoSeed w0) in
  let empty := {| cart_sessionId := sessionId; cart_items := [];
                  cart_subtotal := 0; cart_tax := 0; cart_total := 0 |} in
  let w := snd (CartService.createSession cfg w0) in
  fst (CartService.createSession cfg w0) = Ok (sessionId, empty)
  /\ contexts w = contexts w0
  /\ logOf w sessionId = Some ([], false)
  /\ handleOf w sessionId = Some None
  /\ fst (CartService.getCart cfg sessionId w) = Ok empty
  /\ fst (CartService.checkout cfg sessionId w) = Throw EmptyCartError.
Proof.
  intros sessionId empty w.
  assert (Hcart : CartStateManager.buildCartFromEvents cfg sessionId [] = empty).
  { unfold CartStateManager.buildCartFromEvents, empty. simpl.
    change (sumItems []) with 0. by rewrite Math_round_zero. }
  assert (Hlog : logOf w sessionId = Some ([], false)).
  { unfold logOf. simpl. by rewrite lookup_insert_eq. }
  repeat split.
  - unfold CartService.createSession, bind. simpl. fold sessionId.
    by rewrite Hcart.
  - done.
  - unfold handleOf. simpl. by rewrite lookup_insert_eq.
  - destruct (getCart_ok cfg _ _ _ _ Hlog) as (w1 & -> & _). simpl.
    by rewrite Hcart.
  - destruct (checkout_empty cfg sessionId w [] Hlog) as (w1 & -> & _); done.
Qed.

Lemma executeWithReplay_on_live cfg sessionId event w contextId context :
  handleOf w sessionId = Some (Some contextId) ->
  liveContext cfg w contextId context ->
  exists r w',
    CartService.executeWithReplay cfg sessionId (attempt cfg sessionId event) w
    = (r, w')
    /\ handleOf w' sessionId = Some (Some contextId)
    /\ nanoSeed w' = nanoSeed w
    /\ is_Some (contexts w' !! contextId).
Proof.
  intros Hhandle [Hctx Hidle].
  destruct (ensureSfContext_stored _ _ _ Hhandle) as (w0 & Hensure & Hun).
  destruct Hun as ([Hclock _] & Hctxs & Hseed & Hhandles).
  assert (Hlive0 : liveContext cfg w0 contextId context).
  { split; [by rewrite Hctxs|by rewrite Hclock]. }
  destruct (applicable_dec (ctx_items context) event) as [Happ|Hno].
  - pose proof (sfMutation_live _ _ _ _ _ Hlive0 Happ) as Hrun.
    set (w' := withContexts w0 _) in Hrun.
    assert (Hfirst : attempt cfg sessionId event w = (Ok tt, w')).
    { unfold attempt, bind. by rewrite Hensure. }
    exists (Ok tt), w'.
    rewrite (executeWithReplay_first_attempt_ok _ _ _ _ _ _ Hfirst).
    split; [done|]. split; [|split].
    + change (handleOf w0 sessionId = Some (Some contextId)). by rewrite Hhandles.
    + done.
    + subst w'. simpl. by rewrite lookup_insert_eq.
  - destruct (sfMutation_not_found _ _ _ _ _ Hlive0 Hno) as (i & Hrun & _).
    assert (Hfirst : attempt cfg sessionId event w
                     = (Throw (ItemNotFoundError i), w0)).
    { unfold attempt, bind. by rewrite Hensure. }
    exists (Throw (ItemNotFoundError i)), w0.
    rewrite (executeWithReplay_other_error _ _ _ _ _ _ Hfirst eq_refl).
    split; [done|]. split; [by rewrite Hhandles|]. split; [done|].
    rewrite Hctxs, Hctx. eauto.
Qed.

(** X26. A live backend context is reused. When the session stores a handle
    whose context has not expired, a client call, whatever it is and
    whether it succeeds or fails, keeps that handle and creates no context:
    there is no replay without an expiry. *)
Theorem live_context_is_reused cfg sessionId op w contextId context
    (Hhandle : handleOf w sessionId = Some (Some contextId))
    (Hlive : liveContext cfg w contextId context) :
  let w' := snd (perform cfg sessionId op w) in
  handleOf w' sessionId = Some (Some contextId)
  /\ nanoSeed w' = nanoSeed w
  /\ is_Some (contexts w' !! contextId).
Proof.
  intros w'. subst w'.
  destruct (perform_precheck cfg sessionId op w) as (w0 & Hun & Hrun).
  pose proof Hun as ([Hclock Hlogs] & Hctxs & Hseed & Hhandles).
  destruct (precheck cfg sessionId op (logOf w sessionId))
    as [e|[mutation event]] eqn:Hpre.
  - rewrite Hrun. simpl. rewrite Hhandles, Hseed, Hctxs.
    destruct Hlive as [-> _]. eauto.
  - assert (Hframe := precheck_mutation_frame _ _ _ _ _ _ Hpre).
    destruct (logOf w sessionId) as [[events co]|] eqn:Hlog.
    2:{ unfold precheck in Hpre. by destruct (validationError op). }
    destruct (precheck_attempt _ _ _ _ _ _ _ Hpre (clock w0)) as [-> _].
    assert (Hlive0 : liveContext cfg w0 contextId context).
    { destruct Hlive as [H1 H2]. split; [by rewrite Hctxs|by rewrite Hclock]. }
    assert (Hhandle0 : handleOf w0 sessionId = Some (Some contextId))
      by (by rewrite Hhandles).
    destruct (executeWithReplay_on_live cfg sessionId (event (clock w0)) w0
                contextId context Hhandle0 Hlive0)
      as (r & w1 & Hexec & Hh1 & Hseed1 & Hc1).
    assert (Hlog0 : logOf w0 sessionId = Some (events, co))
      by (by rewrite Hlogs).
    pose proof (mutateThenRecord_outcome cfg sessionId
                  (attempt cfg sessionId (event (clock w0))) event w0 events co
                  Hframe Hlog0) as Hout.
    rewrite Hexec in Hout. rewrite Hrun. destruct r as [[]|e].
    + destruct Hout as (w2 & -> & _ & (_ & O2 & O3 & _ & O5)). simpl.
      rewrite O2, O3, O5. split; [done|]. split; [congruence|done].
    + destruct Hout as [-> _]. simpl. split; [done|]. split; [congruence|done].
Qed.

Lemma live_context_is_reused_witness :
  handleOf (snd (perform testConfig "exp_0" (OpAddItem requestPlan) worldOneItem))
    "exp_0" = Some (Some "sf_1").
Proof.
  refine (proj1 (live_context_is_reused testConfig "exp_0" (OpAddItem requestPlan)
                   worldOneItem "sf_1"
                   {| ctx_contextId := "sf_1";
                      ctx_items :=
                        [("item1", {| item_id := "item1"; item_type := "DEVICE";
                                      item_name := "iPhone"; item_price := 99900;
                                      item_quantity := 1 |})];
                      ctx_createdAt := 0; ctx_lastActivity := 0 |} _ _)).
  - vm_compute. reflexivity.
  - split; [vm_compute; reflexivity|vm_compute; congruence].
Defined.

Lemma executeWithReplay_after_expiry cfg sessionId event w events checkedOut
      contextId :
  0 <= SF_CONTEXT_TTL_MS cfg ->
  logOf w sessionId = Some (events, checkedOut) ->
  handleOf w sessionId = Some (Some contextId) ->
  (forall context, ~ liveContext cfg w contextId context) ->
  applicable (foldEvents events) event ->
  exists w' context,
    CartService.executeWithReplay cfg sessionId (attempt cfg sessionId event) w
    = (Ok tt, w')
    /\ handleOf w' sessionId = Some (Some (nextHandle w))
    /\ contexts w' !! nextHandle w = Some context
    /\ ctx_items context = applyEvent (foldEvents events) event.
Proof.
  intros HTTL Hlog Hhandle Hdead Happ.
  destruct (ensureSfContext_stored _ _ _ Hhandle) as (w0 & Hensure & Hun).
  pose proof Hun as ([Hclock _] & Hctxs & Hseed & _).
  assert (Hdead0 : forall context, ~ liveContext cfg w0 contextId context).
  { intros context [H1 H2]. apply (Hdead context).
    split; [by rewrite <- Hctxs|by rewrite <- Hclock]. }
  pose proof (getValidContext_dead cfg w0 contextId Hdead0) as Hget.
  set (w1 := withContexts w0 _) in Hget.
  assert (Hfirst : attempt cfg sessionId event w
                   = (Throw (ContextExpiredError contextId), w1)).
  { unfold attempt, bind. rewrite Hensure. by apply sfMutation_expired. }
  assert (Hlog1 : logOf w1 sessionId = Some (events, checkedOut)).
  { change (logOf w0 sessionId = Some (events, checkedOut)).
    by rewrite (untouched_logOf _ _ _ Hun). }
  assert (Hnext : nextHandle w1 = nextHandle w).
  { unfold nextHandle. simpl. by rewrite Hseed. }
  destruct (replayEvents_live cfg sessionId w1 events checkedOut HTTL Hlog1)
    as (w2 & context2 & Hreplay & Hc2 & Hh2 & Hctx2 & Hnow2 & Hitems2).
  rewrite Hnext in Hh2, Hctx2.
  assert (Hlive2 : liveContext cfg w2 (nextHandle w) context2).
  { split; [done|]. rewrite Hnow2, Hc2. lia. }
  rewrite <- Hitems2 in Happ.
  destruct (attempt_live cfg sessionId event w2 _ context2 Hh2 Hlive2 Happ)
    as (w' & context' & Hrun & Hh' & Hctx' & Hitems').
  exists w', context'.
  rewrite (executeWithReplay_retry cfg sessionId _ w contextId w1 w2 Hfirst Hreplay).
  split; [done|]. split; [done|]. split; [done|]. by rewrite Hitems', Hitems2.
Qed.

(** X27. An expiry heals the backend. When the context stored in an active
    session has expired or is unknown to the backend, a client call whose
    checks pass succeeds (the TTL being >= 0) and returns the projection of
    the log with its event; the session then stores the handle of a new
    context, and that context holds the items of the new projection. This
    needs no assumption on what the old context held. *)
Theorem expiry_heals_the_backend cfg sessionId op w events contextId
    mutation event
    (HTTL : 0 <= SF_CONTEXT_TTL_MS cfg)
    (Hactive : logOf w sessionId = Some (events, false))
    (Hhandle : handleOf w sessionId = Some (Some contextId))
    (Hdead : forall context, ~ liveContext cfg w contextId context)
    (Hchecks : precheck cfg sessionId op (Some (events, false))
               = inr (mutation, event)) :
  let logged := events ++ [event (clock w)] in
  exists w' context,
    perform cfg sessionId op w
    = (Ok (CartStateManager.buildCartFromEvents cfg sessionId logged), w')
    /\ logOf w' sessionId = Some (logged, false)
    /\ handleOf w' sessionId = Some (Some (nextHandle w))
    /\ contexts w' !! nextHandle w = Some context
    /\ ctx_items context = foldEvents logged.
Proof.
  intros logged.
  destruct (perform_precheck cfg sessionId op w) as (w0 & Hun & Hrun).
  pose proof Hun as ([Hclock Hlogs] & Hctxs & Hseed & Hhandles).
  rewrite Hactive, Hchecks in Hrun.
  assert (Hframe := precheck_mutation_frame _ _ _ _ _ _ Hchecks).
  destruct (precheck_attempt _ _ _ _ _ _ _ Hchecks (clock w)) as [-> Happ].
  assert (Hlog0 : logOf w0 sessionId = Some (events, false))
    by (by rewrite Hlogs).
  assert (Hhandle0 : handleOf w0 sessionId = Some (Some contextId))
    by (by rewrite Hhandles).
  assert (Hdead0 : forall context, ~ liveContext cfg w0 contextId context).
  { intros context [H1 H2]. apply (Hdead context).
    split; [by rewrite <- Hctxs|by rewrite <- Hclock]. }
  destruct (executeWithReplay_after_expiry cfg sessionId (event (clock w)) w0
              events false contextId HTTL Hlog0 Hhandle0 Hdead0 Happ)
    as (w1 & context1 & Hexec & Hh1 & Hctx1 & Hitems1).
  assert (Hnext : nextHandle w0 = nextHandle w).
  { unfold nextHandle. by rewrite Hseed. }
  rewrite Hnext in Hh1, Hctx1.
  pose proof (mutateThenRecord_outcome cfg sessionId
                (attempt cfg sessionId (event (clock w))) event w0 events false
                Hframe Hlog0) as Hout.
  rewrite Hexec, Hclock in Hout.
  destruct Hout as (w' & Hrun' & Hlog' & (_ & O2 & O3 & _)).
  subst logged. exists w', context1. split; [congruence|]. split; [done|].
  split; [by rewrite O2|]. split; [by rewrite O3|].
  by rewrite foldEvents_snoc.
Qed.

Lemma expiry_heals_the_backend_witness :
  exists w' context,
    perform testConfig "exp_0" (OpUpdateItem "item1" 4) worldIdle
    = (Ok (CartStateManager.buildCartFromEvents testConfig "exp_0"
             ([ITEM_ADDED "item1" "DEVICE" "iPhone" 99900 1 0]
              ++ [ITEM_UPDATED "item1" 4 (clock worldIdle)])), w')
    /\ logOf w' "exp_0"
       = Some ([ITEM_ADDED "item1" "DEVICE" "iPhone" 99900 1 0]
               ++ [ITEM_UPDATED "item1" 4 (clock worldIdle)], false)
    /\ handleOf w' "exp_0" = Some (Some (nextHandle worldIdle))
    /\ contexts w' !! nextHandle worldIdle = Some context
    /\ ctx_items context
       = foldEvents ([ITEM_ADDED "item1" "DEVICE" "iPhone" 99900 1 0]
                     ++ [ITEM_UPDATED "item1" 4 (clock worldIdle)]).
Proof.
  refine (expiry_heals_the_backend testConfig "exp_0" (OpUpdateItem "item1" 4)
            worldIdle [ITEM_ADDED "item1" "DEVICE" "iPhone" 99900 1 0] "sf_1"
            (CartService.backendUpdate testConfig "exp_0" "item1" 4)
            (ITEM_UPDATED "item1" 4) _ _ _ _ _).
  - vm_compute. congruence.
  - vm_compute. reflexivity.
  - vm_compute. reflexivity.
  - intros context [Hctx Hidle]. vm_compute in Hctx. injection Hctx as <-.
    vm_compute in Hidle. congruence.
  - reflexivity.
Defined.
